(** * Citation de-duplication core of [new-parser.py]

    A shallow embedding of the duplicate-detection pipeline of the faculty
    citation analyser: the [Citation] record with its derived fields, the
    similarity score, the fingerprint grouper, the group resolver, the
    near-duplicate pass, the duplicate ledger and the organizer.

    Conventions of the embedding:
    - a Python [str] is a [string]; one [ascii] stands for one character,
      and the character classes of [re] and [str.lower] are those of the
      ASCII range: on the characters below 128 they are Python's, beyond
      them Python also knows letters, their lower-case forms and white
      space (U+0085, U+00A0) that the classes here do not;
    - a Python [float] is a rational [Q]: the scores are quotients of
      small integers and the only comparisons are [>=] and [<]; the sum
      with the bonus [0.1] is exact here and rounded in Python, so a score
      within one rounding error of the threshold can compare differently
      there (0.7 + 0.1 is below 0.8 in floating point);
    - [Optional[T]] is [option T]; truthiness tests ([if self.doi:]) are
      written out ([Some ""] and [Some 0] are falsy);
    - an insertion-ordered [dict] is an association list in order of first
      insertion;
    - mutation of [self.duplicates_removed] and of the local lists is
      explicit state passing. *)

From Stdlib Require Import Ascii String ZArith QArith Sorted Lia.
From stdpp Require Import base list strings.

Local Open Scope string_scope.
Local Open Scope list_scope.
Local Open Scope nat_scope.

(* ================================================================== *)
(** * [difflib.SequenceMatcher] (Python standard library)

    [SequenceMatcher(None, a, b)] with the default [autojunk=True] and no
    junk predicate, as used by [Citation.similarity_score]. *)

Module Difflib.

(** [b2j[x]]: the indices of [x] in [b], increasing. *)
Fixpoint indices_from (x : ascii) (b : list ascii) (j : nat) : list nat :=
  match b with
  | [] => []
  | y :: b' =>
      if Ascii.eqb x y then j :: indices_from x b' (S j)
      else indices_from x b' (S j)
  end.

(** [__chain_b]: with [autojunk] and [len(b) >= 200], an element that
    occurs more than [len(b) // 100 + 1] times is popular and loses its
    entry in [b2j]. *)
Definition popular (b : list ascii) (x : ascii) : bool :=
  let n := length b in
  (200 <=? n) && (n / 100 + 1 <? length (indices_from x b 0)).

Definition b2j (b : list ascii) (x : ascii) : list nat :=
  if popular b x then [] else indices_from x b 0.

(** [j2len.get(j, 0)] on a dictionary kept as an association list. *)
Fixpoint j2len_get (m : list (nat * nat)) (j : nat) : nat :=
  match m with
  | [] => 0
  | (j', k) :: m' => if j' =? j then k else j2len_get m' j
  end.

(** A match [(i, j, k)]: [a[i:i+k] == b[j:j+k]]. *)
Definition Match : Type := (nat * nat * nat)%type.

(** The loop [for j in b2j.get(a[i], nothing)] of [find_longest_match]. *)
Fixpoint scan_js (i blo bhi : nat) (j2len : list (nat * nat))
    (js : list nat) (newj2len : list (nat * nat)) (best : Match)
    : list (nat * nat) * Match :=
  match js with
  | [] => (newj2len, best)
  | j :: js' =>
      if j <? blo then scan_js i blo bhi j2len js' newj2len best
      else if bhi <=? j then (newj2len, best)
      else
        let k := S (match j with 0 => 0 | S j' => j2len_get j2len j' end) in
        let '(_, _, bestsize) := best in
        let best' := if bestsize <? k then (S i - k, S j - k, k) else best in
        scan_js i blo bhi j2len js' ((j, k) :: newj2len) best'
  end.

(** The loop [for i in range(alo, ahi)]; [n] counts the remaining
    iterations. *)
Fixpoint scan_is (a b : list ascii) (n i blo bhi : nat)
    (j2len : list (nat * nat)) (best : Match) : Match :=
  match n with
  | 0 => best
  | S n' =>
      let js := match a !! i with Some x => b2j b x | None => [] end in
      let '(newj2len, best') := scan_js i blo bhi j2len js [] best in
      scan_is a b n' (S i) blo bhi newj2len best'
  end.

Definition same_at (a b : list ascii) (i j : nat) : bool :=
  match a !! i, b !! j with
  | Some x, Some y => Ascii.eqb x y
  | _, _ => false
  end.

(** [while besti > alo and bestj > blo and a[besti-1] == b[bestj-1]]. *)
Fixpoint extend_left (a b : list ascii) (fuel alo blo : nat) (m : Match)
    : Match :=
  match fuel with
  | 0 => m
  | S fuel' =>
      let '(besti, bestj, bestsize) := m in
      if (alo <? besti) && (blo <? bestj)
         && same_at a b (besti - 1) (bestj - 1)
      then extend_left a b fuel' alo blo (besti - 1, bestj - 1, S bestsize)
      else m
  end.

(** [while besti+bestsize < ahi and bestj+bestsize < bhi and
    a[besti+bestsize] == b[bestj+bestsize]]. *)
Fixpoint extend_right (a b : list ascii) (fuel ahi bhi : nat) (m : Match)
    : Match :=
  match fuel with
  | 0 => m
  | S fuel' =>
      let '(besti, bestj, bestsize) := m in
      if (besti + bestsize <? ahi) && (bestj + bestsize <? bhi)
         && same_at a b (besti + bestsize) (bestj + bestsize)
      then extend_right a b fuel' ahi bhi (besti, bestj, S bestsize)
      else m
  end.

(** [find_longest_match(alo, ahi, blo, bhi)].  There is no junk, so the
    two junk-extension loops never run. *)
Definition find_longest_match (a b : list ascii) (alo ahi blo bhi : nat)
    : Match :=
  let m0 := scan_is a b (ahi - alo) alo blo bhi [] (alo, blo, 0) in
  let m1 := extend_left a b (length a) alo blo m0 in
  extend_right a b (length a) ahi bhi m1.

(** The sum of the sizes of [get_matching_blocks()]: the queue of
    [(alo, ahi, blo, bhi)] windows is a recursion on both sides of the
    longest match.  Each window is strictly inside its parent, so
    [length a] levels of recursion are enough. *)
Fixpoint matches_in (a b : list ascii) (fuel alo ahi blo bhi : nat) : nat :=
  match fuel with
  | 0 => 0
  | S fuel' =>
      let '(i, j, k) := find_longest_match a b alo ahi blo bhi in
      if k =? 0 then 0
      else
        k
        + (if (alo <? i) && (blo <? j)
           then matches_in a b fuel' alo i blo j else 0)
        + (if (i + k <? ahi) && (j + k <? bhi)
           then matches_in a b fuel' (i + k) ahi (j + k) bhi else 0)
  end.

Definition matches (a b : list ascii) : nat :=
  matches_in a b (S (length a)) 0 (length a) 0 (length b).

(** [_calculate_ratio(matches, length)]. *)
Definition _calculate_ratio (m len : nat) : Q :=
  if len =? 0 then 1%Q
  else (Z.of_nat (2 * m) # Pos.of_nat len)%Q.

(** [SequenceMatcher(None, a, b).ratio()]. *)
Definition ratio (a b : string) : Q :=
  let la := list_ascii_of_string a in
  let lb := list_ascii_of_string b in
  _calculate_ratio (matches la lb) (length la + length lb).

End Difflib.

(* ================================================================== *)
(** * The [re] module (Python standard library)

    A backtracking matcher with Python's priorities: alternatives left to
    right, greedy repetition longest first, lazy repetition shortest
    first, the leftmost match wins.  Only the constructs of the patterns
    of [new-parser.py] are present, with one capturing group. *)

Module Re.

(** Character classes, ASCII range: Python's classes restricted to the
    characters below 128. *)
Definition code (c : ascii) : nat := nat_of_ascii c.

Definition is_space (c : ascii) : bool :=
  let n := code c in
  ((9 <=? n) && (n <=? 13)) || ((28 <=? n) && (n <=? 32)).

Definition is_digit (c : ascii) : bool :=
  let n := code c in (48 <=? n) && (n <=? 57).

Definition is_upper (c : ascii) : bool :=
  let n := code c in (65 <=? n) && (n <=? 90).

Definition is_lower (c : ascii) : bool :=
  let n := code c in (97 <=? n) && (n <=? 122).

Definition is_word (c : ascii) : bool :=
  is_digit c || is_upper c || is_lower c || (code c =? 95).

(** [str.lower] on one character of the ASCII range. *)
Definition lower_char (c : ascii) : ascii :=
  if is_upper c then ascii_of_nat (code c + 32) else c.

Definition one_of (cs : string) (c : ascii) : bool :=
  existsb (Ascii.eqb c) (list_ascii_of_string cs).

Inductive re : Type :=
| Eps
| Chr (p : ascii -> bool)
| Seq (r1 r2 : re)
| Alt (r1 r2 : re)
| Star (r : re)
| StarLazy (r : re)
| Group (r : re)
| WordB.

(** Position of the matcher: the character before the cursor, the text
    after it, the index of the cursor and the span of group 1. *)
Record state : Type := mk_state {
  prev : option ascii;
  rest : list ascii;
  pos : nat;
  grp : option (nat * nat)
}.

(** End of the match and span of group 1. *)
Definition result : Type := (nat * option (nat * nat))%type.

Definition word_opt (o : option ascii) : bool :=
  match o with Some c => is_word c | None => false end.

(** Greedy repetition: one more round of [body] first, the rest of the
    pattern when no further round leads to a match.  A round that
    consumes nothing is not repeated. *)
Fixpoint star_loop (body : (state -> option result) -> state -> option result)
    (k : state -> option result) (n : nat) (st : state) : option result :=
  match n with
  | 0 => k st
  | S n' =>
      match body (fun st' =>
                    if pos st <? pos st' then star_loop body k n' st'
                    else None) st with
      | Some x => Some x
      | None => k st
      end
  end.

(** Lazy repetition: the rest of the pattern first. *)
Fixpoint lazy_loop (body : (state -> option result) -> state -> option result)
    (k : state -> option result) (n : nat) (st : state) : option result :=
  match k st with
  | Some x => Some x
  | None =>
      match n with
      | 0 => None
      | S n' =>
          body (fun st' =>
                  if pos st <? pos st' then lazy_loop body k n' st'
                  else None) st
      end
  end.

Fixpoint run (r : re) (k : state -> option result) (st : state)
    : option result :=
  match r with
  | Eps => k st
  | Chr p =>
      match rest st with
      | c :: s' =>
          if p c then k (mk_state (Some c) s' (S (pos st)) (grp st))
          else None
      | [] => None
      end
  | Seq r1 r2 => run r1 (run r2 k) st
  | Alt r1 r2 =>
      match run r1 k st with
      | Some x => Some x
      | None => run r2 k st
      end
  | Star r' => star_loop (run r') k (S (length (rest st))) st
  | StarLazy r' => lazy_loop (run r') k (S (length (rest st))) st
  | Group r' =>
      run r' (fun st' =>
                k (mk_state (prev st') (rest st') (pos st')
                            (Some (pos st, pos st')))) st
  | WordB =>
      if xorb (word_opt (prev st)) (word_opt (head (rest st))) then k st
      else None
  end.

(** [pattern.match] at the cursor. *)
Definition match_here (r : re) (p : option ascii) (s : list ascii)
    (i : nat) : option result :=
  run r (fun st => Some (pos st, grp st)) (mk_state p s i None).

(** [re.search] from the cursor: start, end and group 1 of the leftmost
    match. *)
Fixpoint search_from (r : re) (p : option ascii) (s : list ascii)
    (i : nat) : option (nat * result) :=
  match match_here r p s i with
  | Some res => Some (i, res)
  | None =>
      match s with
      | [] => None
      | c :: s' => search_from r (Some c) s' (S i)
      end
  end.

Definition slice (s : list ascii) (i j : nat) : string :=
  string_of_list_ascii (take (j - i) (drop i s)).

(** [re.search(r, text)] followed by [match.group(1)]. *)
Definition search_group1 (r : re) (text : string) : option string :=
  let s := list_ascii_of_string text in
  match search_from r None s 0 with
  | Some (_, (_, Some (i, j))) => Some (slice s i j)
  | _ => None
  end.

(** [re.findall(r, text)] for a pattern with one group that matches no
    empty string: group 1 of the successive matches. *)
Fixpoint findall_from (fuel : nat) (r : re) (p : option ascii)
    (s : list ascii) (i : nat) (whole : list ascii) : list string :=
  match fuel with
  | 0 => []
  | S fuel' =>
      match match_here r p s i with
      | Some (e, g) =>
          let found :=
            match g with Some (gi, gj) => slice whole gi gj | None => "" end
          in
          if i <? e
          then found :: findall_from fuel' r (last (take (e - i) s))
                          (drop (e - i) s) e whole
          else match s with
               | [] => [found]
               | c :: s' =>
                   found :: findall_from fuel' r (Some c) s' (S i) whole
               end
      | None =>
          match s with
          | [] => []
          | c :: s' => findall_from fuel' r (Some c) s' (S i) whole
          end
      end
  end.

Definition findall (r : re) (text : string) : list string :=
  let s := list_ascii_of_string text in
  findall_from (S (length s)) r None s 0 s.

(** [re.sub(r, repl, text)] for a pattern that matches no empty string:
    every match, left to right and without overlap, becomes [repl]. *)
Fixpoint sub_from (fuel : nat) (r : re) (repl : list ascii)
    (p : option ascii) (s : list ascii) (i : nat) : list ascii :=
  match fuel with
  | 0 => s
  | S fuel' =>
      match match_here r p s i with
      | Some (e, _) =>
          if i <? e
          then repl ++ sub_from fuel' r repl (last (take (e - i) s))
                         (drop (e - i) s) e
          else match s with
               | [] => []
               | c :: s' => c :: sub_from fuel' r repl (Some c) s' (S i)
               end
      | None =>
          match s with
          | [] => []
          | c :: s' => c :: sub_from fuel' r repl (Some c) s' (S i)
          end
      end
  end.

Definition sub (r : re) (repl text : string) : string :=
  let s := list_ascii_of_string text in
  string_of_list_ascii
    (sub_from (S (length s)) r (list_ascii_of_string repl) None s 0).

(** Pattern syntax. *)
Definition lit (c : ascii) : re := Chr (Ascii.eqb c).
Definition lit_i (c : ascii) : re :=
  Chr (fun x => Ascii.eqb (lower_char x) (lower_char c)).
Definition word (s : string) : re :=
  fold_right (fun c r => Seq (lit c) r) Eps (list_ascii_of_string s).
Definition word_i (s : string) : re :=
  fold_right (fun c r => Seq (lit_i c) r) Eps (list_ascii_of_string s).
Definition plus (r : re) : re := Seq r (Star r).
Definition plus_lazy (r : re) : re := Seq r (StarLazy r).
Definition opt (r : re) : re := Alt r Eps.
Definition seqs (rs : list re) : re := fold_right Seq Eps rs.
Definition digit : re := Chr is_digit.
Definition space : re := Chr is_space.
Definition none_of (cs : string) : re := Chr (fun c => negb (one_of cs c)).

(** The states a pattern can lead to, whatever the priorities. *)
Inductive sem : re -> state -> state -> Prop :=
| sem_eps st : sem Eps st st
| sem_chr p c s' st :
    rest st = c :: s' -> p c = true ->
    sem (Chr p) st (mk_state (Some c) s' (S (pos st)) (grp st))
| sem_seq r1 r2 st m st' :
    sem r1 st m -> sem r2 m st' -> sem (Seq r1 r2) st st'
| sem_alt_l r1 r2 st st' : sem r1 st st' -> sem (Alt r1 r2) st st'
| sem_alt_r r1 r2 st st' : sem r2 st st' -> sem (Alt r1 r2) st st'
| sem_star_nil r st : sem (Star r) st st
| sem_star_cons r st m st' :
    sem r st m -> sem (Star r) m st' -> sem (Star r) st st'
| sem_lazy_nil r st : sem (StarLazy r) st st
| sem_lazy_cons r st m st' :
    sem r st m -> sem (StarLazy r) m st' -> sem (StarLazy r) st st'
| sem_group r st m :
    sem r st m ->
    sem (Group r) st (mk_state (prev m) (rest m) (pos m)
                               (Some (pos st, pos m)))
| sem_wordb st :
    xorb (word_opt (prev st)) (word_opt (head (rest st))) = true ->
    sem WordB st st.

(** Every match of the pattern goes through the literal [c]. *)
Inductive contains_lit (c : ascii) : re -> Prop :=
| contains_here r2 : contains_lit c (Seq (lit c) r2)
| contains_later r1 r2 : contains_lit c r2 -> contains_lit c (Seq r1 r2).

(** The pattern is a sequence whose last item is the group [body]. *)
Inductive ends_in_group (body : re) : re -> Prop :=
| ends_here : ends_in_group body (Seq (Group body) Eps)
| ends_later r1 r2 : ends_in_group body r2 -> ends_in_group body (Seq r1 r2).

End Re.

(* ================================================================== *)
(** * [hashlib.md5] (Python standard library)

    RFC 1321 on 32-bit words kept in [Z], with the wrap-around written
    out; [hexdigest] prints the sixteen bytes in lower-case hexadecimal. *)

Module Md5.

Local Open Scope Z_scope.

Definition wrap (x : Z) : Z := x mod 4294967296.

Definition rotl (x : Z) (c : Z) : Z :=
  wrap (Z.lor (Z.shiftl x c) (Z.shiftr x (32 - c))).

Definition not32 (x : Z) : Z := 4294967295 - x.

(** [K[i] = floor(2^32 * abs(sin(i + 1)))]. *)
Definition K : list Z :=
  [
    3614090360; 3905402710; 606105819; 3250441966;
    4118548399; 1200080426; 2821735955; 4249261313;
    1770035416; 2336552879; 4294925233; 2304563134;
    1804603682; 4254626195; 2792965006; 1236535329;
    4129170786; 3225465664; 643717713; 3921069994;
    3593408605; 38016083; 3634488961; 3889429448;
    568446438; 3275163606; 4107603335; 1163531501;
    2850285829; 4243563512; 1735328473; 2368359562;
    4294588738; 2272392833; 1839030562; 4259657740;
    2763975236; 1272893353; 4139469664; 3200236656;
    681279174; 3936430074; 3572445317; 76029189;
    3654602809; 3873151461; 530742520; 3299628645;
    4096336452; 1126891415; 2878612391; 4237533241;
    1700485571; 2399980690; 4293915773; 2240044497;
    1873313359; 4264355552; 2734768916; 1309151649;
    4149444226; 3174756917; 718787259; 3951481745 ].

(** Per-round shift amounts. *)
Definition S : list Z :=
  [
    7; 12; 17; 22; 7; 12; 17; 22; 7; 12; 17; 22; 7; 12; 17; 22;
    5; 9; 14; 20; 5; 9; 14; 20; 5; 9; 14; 20; 5; 9; 14; 20;
    4; 11; 16; 23; 4; 11; 16; 23; 4; 11; 16; 23; 4; 11; 16; 23;
    6; 10; 15; 21; 6; 10; 15; 21; 6; 10; 15; 21; 6; 10; 15; 21 ].

Definition byte (c : ascii) : Z := Z.of_nat (nat_of_ascii c).

(** The message, [0x80], zeros up to 56 modulo 64, then the bit length
    as eight little-endian bytes. *)
Fixpoint le_bytes (n : nat) (x : Z) : list Z :=
  match n with
  | O => []
  | Datatypes.S n' => (x mod 256) :: le_bytes n' (x / 256)
  end.

Definition pad (msg : list Z) : list Z :=
  let len := Z.of_nat (length msg) in
  let zeros := Z.to_nat ((55 - len) mod 64) in
  msg ++ [128] ++ repeat 0 zeros ++ le_bytes 8 (8 * len).

Fixpoint le_word (bs : list Z) : Z :=
  match bs with
  | [] => 0
  | b :: bs' => b + 256 * le_word bs'
  end.

(** The sixteen little-endian words of a 64-byte block. *)
Fixpoint words (n : nat) (bs : list Z) : list Z :=
  match n with
  | O => []
  | Datatypes.S n' => le_word (take 4 bs) :: words n' (drop 4 bs)
  end.

Definition nthZ (l : list Z) (i : Z) : Z := nth (Z.to_nat i) l 0.

Definition step (M : list Z) (st : Z * Z * Z * Z) (i : Z)
    : Z * Z * Z * Z :=
  let '(A, B, C, D) := st in
  let '(F, g) :=
    if i <? 16 then (Z.lor (Z.land B C) (Z.land (not32 B) D), i)
    else if i <? 32
    then (Z.lor (Z.land D B) (Z.land (not32 D) C), (5 * i + 1) mod 16)
    else if i <? 48 then (Z.lxor B (Z.lxor C D), (3 * i + 5) mod 16)
    else (Z.lxor C (Z.lor B (not32 D)), (7 * i) mod 16) in
  let F' := wrap (F + A + nthZ K i + nthZ M g) in
  (D, wrap (B + rotl F' (nthZ S i)), B, C).

Definition rounds : list Z := map Z.of_nat (seq 0 64).

Definition block (st : Z * Z * Z * Z) (bs : list Z) : Z * Z * Z * Z :=
  let M := words 16 bs in
  let '(a0, b0, c0, d0) := st in
  let '(A, B, C, D) := fold_left (step M) rounds st in
  (wrap (a0 + A), wrap (b0 + B), wrap (c0 + C), wrap (d0 + D)).

Fixpoint blocks (n : nat) (st : Z * Z * Z * Z) (bs : list Z)
    : Z * Z * Z * Z :=
  match n with
  | O => st
  | Datatypes.S n' => blocks n' (block st (take 64 bs)) (drop 64 bs)
  end.

Definition init : Z * Z * Z * Z :=
  (1732584193, 4023233417, 2562383102, 271733878).

Definition digest (msg : list Z) : list Z :=
  let p := pad msg in
  let '(a, b, c, d) := blocks (length p / 64) init p in
  le_bytes 4 a ++ le_bytes 4 b ++ le_bytes 4 c ++ le_bytes 4 d.

Definition hex_digit (x : Z) : ascii :=
  nth (Z.to_nat x) (list_ascii_of_string "0123456789abcdef") "0"%char.

Definition hex_byte (b : Z) : list ascii :=
  [hex_digit (b / 16); hex_digit (b mod 16)].

(** [hashlib.md5(s.encode()).hexdigest()]; in the ASCII range [encode]
    maps a character to the byte of its code. *)
Definition hexdigest (s : string) : string :=
  string_of_list_ascii
    (concat (map hex_byte (digest (map byte (list_ascii_of_string s))))).

End Md5.

(* ================================================================== *)
(** * Built-ins on [str] and [int] *)

Module Py.

(** [s.lower()]. *)
Definition lower (s : string) : string :=
  string_of_list_ascii (map Re.lower_char (list_ascii_of_string s)).

Fixpoint lstrip_list (p : ascii -> bool) (s : list ascii) : list ascii :=
  match s with
  | [] => []
  | c :: s' => if p c then lstrip_list p s' else s
  end.

Definition rstrip_list (p : ascii -> bool) (s : list ascii) : list ascii :=
  rev (lstrip_list p (rev s)).

(** [s.strip()]. *)
Definition strip (s : string) : string :=
  string_of_list_ascii
    (rstrip_list Re.is_space
       (lstrip_list Re.is_space (list_ascii_of_string s))).

(** [s.rstrip(chars)]. *)
Definition rstrip (chars s : string) : string :=
  string_of_list_ascii
    (rstrip_list (Re.one_of chars) (list_ascii_of_string s)).

(** [int(s)] on a run of decimal digits. *)
Definition int_of_digits (s : string) : Z :=
  fold_left (fun acc c => (10 * acc + Z.of_nat (Re.code c - 48))%Z)
    (list_ascii_of_string s) 0%Z.

Definition digit_char (d : Z) : ascii := ascii_of_nat (48 + Z.to_nat d).

Fixpoint digits_of (fuel : nat) (n : Z) (acc : list ascii) : list ascii :=
  match fuel with
  | 0 => acc
  | S fuel' =>
      let acc' := digit_char (n mod 10) :: acc in
      if (n <? 10)%Z then acc' else digits_of fuel' (n / 10)%Z acc'
  end.

(** [str(n)] for an [int]. *)
Definition str_of_int (n : Z) : string :=
  let ds := digits_of (S (Z.to_nat (Z.log2 (Z.abs n)))) (Z.abs n) [] in
  string_of_list_ascii (if (n <? 0)%Z then "-"%char :: ds else ds).

(** Truthiness of an [Optional[str]] and of an [Optional[int]]. *)
Definition truthy_str (o : option string) : bool :=
  match o with
  | Some s => negb (String.eqb s "")
  | None => false
  end.

Definition truthy_int (o : option Z) : bool :=
  match o with
  | Some n => negb (n =? 0)%Z
  | None => false
  end.

(** [min(1.0, x)]. *)
Definition min1 (x : Q) : Q := if Qle_bool 1 x then 1%Q else x.

End Py.

(* ================================================================== *)
(** * [class Citation] *)

Record Citation : Type := mkCitation {
  text : string;
  author : string;
  year : option Z;
  category : string;
  normalized_text : string;
  fingerprint : string;
  doi : option string;
  title : option string
}.

(** The generated [__eq__] of the dataclass compares the tuples of all
    fields. *)
#[global] Instance Citation_eq_dec : EqDecision Citation.
Proof. solve_decision. Defined.

Module Patterns.
Import Re.

(** [r'\((\d{4})\)'] *)
Definition paren_year : re :=
  seqs [lit "("; Group (seqs [digit; digit; digit; digit]); lit ")"].

(** [r'\b(\d{4})\b'] *)
Definition bare_year : re :=
  seqs [WordB; Group (seqs [digit; digit; digit; digit]); WordB].

(** [r'[&\s]+'] *)
Definition amp_spaces : re :=
  plus (Chr (fun c => Ascii.eqb c "&" || is_space c)).

(** [r'[.,;:!?Q]'] where [Q] is the double quote (code 34). *)
Definition punctuation : re :=
  Chr (fun c => one_of ".,;:!?" c || (code c =? 34)).

(** [r'\s+'] *)
Definition spaces : re := plus space.

(** [r'doi:\s*'] *)
Definition doi_prefix : re := seqs [word "doi:"; Star space].

(** [r'https?://[^\s]+'] *)
Definition url : re :=
  seqs [word "http"; opt (lit "s"); word "://";
        plus (Chr (fun c => negb (is_space c)))].

(** [r'\([^)]*\)'] *)
Definition parenthetical : re :=
  seqs [lit "("; Star (none_of ")"); lit ")"].

(** [r'vol\.\s*\d+'] *)
Definition volume : re := seqs [word "vol."; Star space; plus digit].

(** [r'pp?\.\s*\d+[-–]\d+']; the en dash of the class lies outside
    the ASCII range of this model. *)
Definition pages : re :=
  seqs [lit "p"; opt (lit "p"); lit "."; Star space; plus digit;
        lit "-"; plus digit].

(** [([0-9.]+/[^\s,)]+)] *)
Definition doi_body : re :=
  Group (seqs [plus (Chr (fun c => is_digit c || Ascii.eqb c "."));
               lit "/";
               plus (Chr (fun c => negb (is_space c || one_of ",)" c)))]).

(** The four patterns of [_extract_doi], under [re.IGNORECASE]:
    [r'doi:\s*([0-9.]+/[^\s,)]+)'],
    [r'https?://doi\.org/([0-9.]+/[^\s,)]+)'],
    [r'https?://dx\.doi\.org/([0-9.]+/[^\s,)]+)'],
    [r'\b(10\.[0-9]+/[^\s,)]+)']. *)
Definition doi_patterns : list re :=
  [ seqs [word_i "doi:"; Star space; doi_body];
    seqs [word_i "http"; opt (lit_i "s"); word_i "://doi.org/"; doi_body];
    seqs [word_i "http"; opt (lit_i "s"); word_i "://dx.doi.org/";
          doi_body];
    seqs [WordB;
          Group (seqs [word "10."; plus digit; lit "/";
                       plus (Chr (fun c =>
                                    negb (is_space c || one_of ",)" c)))])]
  ].

(** [r'Q([^Q]+)Q'] where [Q] is the double quote (code 34). *)
Definition quoted : re :=
  let q := Chr (fun c => code c =? 34) in
  let nq := Chr (fun c => negb (code c =? 34)) in
  seqs [q; Group (plus nq); q].

(** [(?:\.|\))\s+([^.]+?)] *)
Definition title_lead : re :=
  seqs [Alt (lit ".") (lit ")"); plus space;
        Group (plus_lazy (none_of "."))].

(** [r'(?:\.|\))\s+([^.]+?)\.\s+[A-Z][^.]+(?:Journal|Conference|Proceedings)']
    and [r'(?:\.|\))\s+([^.]+?)\s+\(\d{4}\)']. *)
Definition title_patterns : list re :=
  [ seqs [title_lead; lit "."; plus space; Chr is_upper;
          plus (none_of ".");
          Alt (word "Journal") (Alt (word "Conference")
                                    (word "Proceedings"))];
    seqs [title_lead; plus space; lit "(";
          digit; digit; digit; digit; lit ")"]
  ].

(** [r'[^\w\s]'] *)
Definition not_word_space : re :=
  Chr (fun c => negb (is_word c || is_space c)).

End Patterns.

(** [Citation._extract_year] *)
Definition in_year_range (y : Z) : bool := (1950 <=? y)%Z && (y <=? 2030)%Z.

Definition _extract_year (text : string) : option Z :=
  let fallback :=
    head (List.filter in_year_range
            (map Py.int_of_digits (Re.findall Patterns.bare_year text))) in
  match Re.search_group1 Patterns.paren_year text with
  | Some g =>
      let y := Py.int_of_digits g in
      if in_year_range y then Some y else fallback
  | None => fallback
  end.

(** [Citation._normalize_text] *)
Definition _normalize_text (text : string) : string :=
  let t := Py.lower text in
  let t := Re.sub Patterns.amp_spaces " " t in
  let t := Re.sub Patterns.punctuation "" t in
  let t := Re.sub Patterns.spaces " " t in
  let t := Re.sub Patterns.doi_prefix "" t in
  let t := Re.sub Patterns.url "" t in
  let t := Re.sub Patterns.parenthetical "" t in
  let t := Re.sub Patterns.volume "" t in
  let t := Re.sub Patterns.pages "" t in
  Py.strip t.

(** [Citation._extract_doi]: the first pattern that matches wins. *)
Fixpoint first_doi (patterns : list Re.re) (text : string) : option string :=
  match patterns with
  | [] => None
  | p :: ps =>
      match Re.search_group1 p text with
      | Some d => Some (Py.lower (Py.rstrip ".,;)" d))
      | None => first_doi ps text
      end
  end.

Definition _extract_doi (text : string) : option string :=
  first_doi Patterns.doi_patterns text.

(** [Citation._extract_title] *)
Fixpoint first_title (patterns : list Re.re) (text : string)
    : option string :=
  match patterns with
  | [] => None
  | p :: ps =>
      match Re.search_group1 p text with
      | Some g =>
          let t := Py.strip g in
          if 10 <? String.length t then Some t else first_title ps text
      | None => first_title ps text
      end
  end.

Definition _extract_title (text : string) : option string :=
  match Re.search_group1 Patterns.quoted text with
  | Some g => Some (Py.strip g)
  | None => first_title Patterns.title_patterns text
  end.

(** [Citation._generate_fingerprint], on the fields it reads. *)
Definition _generate_fingerprint (doi : option string)
    (normalized_text : string) (year : option Z) : string :=
  match doi with
  | Some d =>
      if Py.truthy_str doi then Md5.hexdigest ("doi:" ++ d)
      else
        Md5.hexdigest
          (normalized_text ++ ":" ++
           (if Py.truthy_int year
            then Py.str_of_int (default 0%Z year) else "no_year"))
  | None =>
      Md5.hexdigest
        (normalized_text ++ ":" ++
         (if Py.truthy_int year
          then Py.str_of_int (default 0%Z year) else "no_year"))
  end.

(** [Citation(text=..., author=..., year=..., category=...)]: the generated
    [__init__] followed by [__post_init__]. *)
Definition Citation_new (text author : string) (year : option Z)
    (category : string) : Citation :=
  let year :=
    match year with None => _extract_year text | Some y => Some y end in
  let normalized_text := _normalize_text text in
  let doi := _extract_doi text in
  let title := _extract_title text in
  let fingerprint := _generate_fingerprint doi normalized_text year in
  mkCitation text author year category normalized_text fingerprint doi title.

(** [Citation._normalize_string] *)
Definition _normalize_string (s : string) : string :=
  Py.strip (Re.sub Patterns.not_word_space "" (Py.lower s)).

(** [Citation.similarity_score] *)
Definition similarity_score (self other : Citation) : Q :=
  if Py.truthy_str (doi self) && Py.truthy_str (doi other)
     && bool_decide (doi self = doi other)
  then 1%Q
  else if Py.truthy_str (title self) && Py.truthy_str (title other)
          && bool_decide (year self = year other)
          && String.eqb (_normalize_string (default "" (title self)))
                        (_normalize_string (default "" (title other)))
  then (95 # 100)%Q
  else
    let similarity :=
      Difflib.ratio (normalized_text self) (normalized_text other) in
    if Py.truthy_int (year self) && Py.truthy_int (year other)
       && bool_decide (year self = year other)
    then Py.min1 (similarity + (1 # 10))%Q
    else similarity.

(** [Citation.is_duplicate_of] *)
Definition is_duplicate_of (self other : Citation) (threshold : Q) : bool :=
  Qle_bool threshold (similarity_score self other).

(* ================================================================== *)
(** * [class AnalysisConfig]

    The dataclass has no [__post_init__]: any string is accepted as
    [duplicate_strategy].  The file names, languages, output formats and
    translations only drive input and output and are left out. *)

Record AnalysisConfig : Type := mkAnalysisConfig {
  enable_duplicate_detection : bool;
  similarity_threshold : Q;
  duplicate_strategy : string;
  report_duplicates : bool
}.

(** The defaults of the dataclass. *)
Definition default_config : AnalysisConfig :=
  mkAnalysisConfig true (85 # 100)%Q "keep_first" true.

(* ================================================================== *)
(** * [class CitationAnalyzer] *)

(** One entry of [duplicates_removed]: [(original, duplicate)]. *)
Definition DuplicatePair : Type := (Citation * Citation)%type.

(** [organized_data]: category, then year, then the citations. *)
Definition Organized : Type := list (string * list (Z * list Citation)).

Record Analyzer : Type := mkAnalyzer {
  citations : list Citation;
  duplicates_removed : list DuplicatePair;
  organized_data : Organized
}.

(** [CitationAnalyzer.__init__] *)
Definition Analyzer_init : Analyzer := mkAnalyzer [] [] [].

(** One author record of the input file; both keys may be missing. *)
Record Faculty : Type := mkFaculty {
  faculty_name : option string;
  faculty_citations : option (list (string * list string))
}.

(** [CitationAnalyzer._parse_citations] *)
Definition parse_faculty (f : Faculty) : list Citation :=
  match faculty_citations f with
  | None => []
  | Some by_category =>
      let name := default "Unknown" (faculty_name f) in
      concat (map (fun '(category, texts) =>
                     map (fun t => Citation_new t name None category) texts)
                  by_category)
  end.

Definition _parse_citations (faculty_data : list Faculty) : list Citation :=
  concat (map parse_faculty faculty_data).

(** [d[k].append(v)] on a [defaultdict(list)]. *)
Fixpoint dict_append {K V : Type} (eqb : K -> K -> bool) (k : K) (v : V)
    (d : list (K * list V)) : list (K * list V) :=
  match d with
  | [] => [(k, [v])]
  | (k', vs) :: d' =>
      if eqb k' k then (k', vs ++ [v]) :: d'
      else (k', vs) :: dict_append eqb k v d'
  end.

(** The first loop of [_remove_duplicates]. *)
Definition fingerprint_groups (cs : list Citation)
    : list (string * list Citation) :=
  fold_left (fun groups c => dict_append String.eqb (fingerprint c) c groups)
            cs [].

Definition text_len (c : Citation) : nat := String.length (text c).

(** [max(c :: cs, key=lambda c: len(c.text))]: the first element of
    greatest length. *)
Fixpoint max_by_len (best : Citation) (cs : list Citation) : Citation :=
  match cs with
  | [] => best
  | c :: cs' =>
      if text_len best <? text_len c then max_by_len c cs'
      else max_by_len best cs'
  end.

(** [[(kept, dup) for dup in group if dup != kept]] *)
Definition pairs_against (kept : Citation) (group : list Citation)
    : list DuplicatePair :=
  map (fun dup => (kept, dup))
      (List.filter (fun dup => negb (bool_decide (dup = kept))) group).

(** [CitationAnalyzer._resolve_duplicate_group] *)
Definition _resolve_duplicate_group (config : AnalysisConfig)
    (group : list Citation) : list Citation * list DuplicatePair :=
  match group with
  | [] | [_] => (group, [])
  | first :: others =>
      if String.eqb (duplicate_strategy config) "keep_first" then
        ([first], map (fun dup => (first, dup)) others)
      else if String.eqb (duplicate_strategy config) "keep_longest" then
        let longest := max_by_len first others in
        ([longest], pairs_against longest group)
      else if String.eqb (duplicate_strategy config) "keep_most_complete" then
        let with_doi :=
          List.filter (fun c => Py.truthy_str (doi c)) group in
        let best :=
          match with_doi with
          | d :: ds => max_by_len d ds
          | [] => max_by_len first others
          end in
        ([best], pairs_against best group)
      else ([], [])
  end.

(** [CitationAnalyzer._should_replace] *)
Definition _should_replace (config : AnalysisConfig)
    (existing new : Citation) : bool :=
  if String.eqb (duplicate_strategy config) "keep_first" then false
  else if String.eqb (duplicate_strategy config) "keep_longest" then
    text_len existing <? text_len new
  else if String.eqb (duplicate_strategy config) "keep_most_complete" then
    if Py.truthy_str (doi new) && negb (Py.truthy_str (doi existing))
    then true
    else if Py.truthy_str (doi existing) && negb (Py.truthy_str (doi new))
    then false
    else text_len existing <? text_len new
  else false.

(** [list.remove(x)]: the first element equal to [x] goes. *)
Fixpoint list_remove (x : Citation) (l : list Citation) : list Citation :=
  match l with
  | [] => []
  | y :: l' => if bool_decide (y = x) then l' else y :: list_remove x l'
  end.

(** One iteration of the outer loop of [_remove_similar_duplicates]: the
    inner loop stops at the first accepted citation that [citation] is a
    duplicate of. *)
Definition similar_step (config : AnalysisConfig)
    (st : list Citation * list DuplicatePair) (citation : Citation)
    : list Citation * list DuplicatePair :=
  let '(unique_citations, removed) := st in
  match List.find (fun unique_citation =>
                     is_duplicate_of citation unique_citation
                       (similarity_threshold config))
                  unique_citations with
  | Some unique_citation =>
      if _should_replace config unique_citation citation
      then (list_remove unique_citation unique_citations ++ [citation],
            removed ++ [(citation, unique_citation)])
      else (unique_citations, removed ++ [(unique_citation, citation)])
  | None => (unique_citations ++ [citation], removed)
  end.

(** [CitationAnalyzer._remove_similar_duplicates]: the accepted list and
    the ledger after the pass. *)
Definition _remove_similar_duplicates (config : AnalysisConfig)
    (cs : list Citation) (removed : list DuplicatePair)
    : list Citation * list DuplicatePair :=
  fold_left (similar_step config) cs ([], removed).

(** The loop over [fingerprint_groups.items()] of [_remove_duplicates]. *)
Definition resolve_step (config : AnalysisConfig)
    (st : list Citation * list DuplicatePair)
    (entry : string * list Citation) : list Citation * list DuplicatePair :=
  let '(unique_citations, removed) := st in
  let group := snd entry in
  if length group =? 1 then (unique_citations ++ group, removed)
  else
    let '(kept, pairs) := _resolve_duplicate_group config group in
    (unique_citations ++ kept, removed ++ pairs).

Definition resolve_groups (config : AnalysisConfig)
    (groups : list (string * list Citation)) (removed : list DuplicatePair)
    : list Citation * list DuplicatePair :=
  fold_left (resolve_step config) groups ([], removed).

(** [organized_data[category][year].append(citation)] *)
Fixpoint organized_append {V : Type} (category : string) (y : Z) (c : V)
    (d : list (string * list (Z * list V)))
    : list (string * list (Z * list V)) :=
  match d with
  | [] => [(category, [(y, [c])])]
  | (k, years) :: d' =>
      if String.eqb k category
      then (k, dict_append Z.eqb y c years) :: d'
      else (k, years) :: organized_append category y c d'
  end.

(** [sorted(items, reverse=True)] on the items of a dictionary with integer
    keys: the keys are distinct, so the order of the pairs is the
    descending order of the keys. *)
Fixpoint insert_desc {V : Type} (kv : Z * V) (l : list (Z * V))
    : list (Z * V) :=
  match l with
  | [] => [kv]
  | kv' :: l' =>
      if (fst kv' <? fst kv)%Z then kv :: l
      else kv' :: insert_desc kv l'
  end.

Definition sorted_desc {V : Type} (items : list (Z * V)) : list (Z * V) :=
  fold_left (fun acc kv => insert_desc kv acc) items [].

(** [CitationAnalyzer._organize_citations] *)
Definition organize_step (d : Organized) (c : Citation) : Organized :=
  match year c with
  | Some y =>
      if Py.truthy_int (year c) then organized_append (category c) y c d
      else d
  | None => d
  end.

(** The loop [for category in organized: organized[category] =
    dict(sorted(organized[category].items(), reverse=True))]. *)
Definition sort_years {V : Type} (d : list (string * list (Z * list V)))
    : list (string * list (Z * list V)) :=
  map (fun '(category, years) => (category, sorted_desc years)) d.

Definition _organize_citations (cs : list Citation) : Organized :=
  sort_years (fold_left organize_step cs []).

(** [CitationAnalyzer._remove_duplicates] *)
Definition _remove_duplicates (config : AnalysisConfig) (self : Analyzer)
    : Analyzer :=
  let groups := fingerprint_groups (citations self) in
  let '(unique_citations, removed) :=
    resolve_groups config groups (duplicates_removed self) in
  let '(unique_citations, removed) :=
    if negb (Qle_bool 1 (similarity_threshold config))
    then _remove_similar_duplicates config unique_citations removed
    else (unique_citations, removed) in
  mkAnalyzer unique_citations removed (_organize_citations unique_citations).

(** What [open] and [json.load] give for the input file. *)
Inductive Source : Type :=
| Missing
| Malformed
| Loaded (faculty_data : list Faculty).

Inductive Exception : Type :=
| FileNotFoundError
| JSONDecodeError.

Inductive Outcome (A : Type) : Type :=
| Returns (a : A)
| Raises (e : Exception).
Arguments Returns {A} a.
Arguments Raises {A} e.

(** [CitationAnalyzer(config)] followed by [load_data()]. *)
Definition load_data (config : AnalysisConfig) (input : Source)
    : Outcome Analyzer :=
  match input with
  | Missing => Raises FileNotFoundError
  | Malformed => Raises JSONDecodeError
  | Loaded faculty_data =>
      let self :=
        mkAnalyzer (citations Analyzer_init ++ _parse_citations faculty_data)
                   (duplicates_removed Analyzer_init)
                   (organized_data Analyzer_init) in
      if enable_duplicate_detection config
      then Returns (_remove_duplicates config self)
      else Returns self
  end.

(* ================================================================== *)
(** * [citation_analyzer.py]: the organizer without de-duplication *)

Module citation_analyzer.

(** An organized entry: [{'text': citation, 'author': faculty_name}]. *)
Record Entry : Type := mkEntry {
  entry_text : string;
  entry_author : string
}.

(** [extract_year(citation_text)]: the same two searches as
    [Citation._extract_year]. *)
Definition extract_year (citation_text : string) : option Z :=
  _extract_year citation_text.

Definition add_citation (faculty_name category : string)
    (organized : list (string * list (Z * list Entry))) (citation : string)
    : list (string * list (Z * list Entry)) :=
  match extract_year citation with
  | Some y =>
      if Py.truthy_int (Some y)
      then organized_append category y (mkEntry citation faculty_name)
                            organized
      else organized
  | None => organized
  end.

Definition add_faculty
    (organized : list (string * list (Z * list Entry))) (f : Faculty)
    : list (string * list (Z * list Entry)) :=
  match faculty_citations f with
  | None => organized
  | Some by_category =>
      let faculty_name := default "Unknown" (faculty_name f) in
      fold_left (fun organized '(category, texts) =>
                   fold_left (add_citation faculty_name category)
                             texts organized)
                by_category organized
  end.

(** [parse_citations(json_file)] on the loaded [faculty_data]. *)
Definition parse_citations (faculty_data : list Faculty)
    : list (string * list (Z * list Entry)) :=
  sort_years (fold_left add_faculty faculty_data []).

End citation_analyzer.

(* ================================================================== *)
(** * Vocabulary of the properties *)

(** ** The three strategies *)

Definition known_strategy (s : string) : bool :=
  String.eqb s "keep_first" || String.eqb s "keep_longest"
  || String.eqb s "keep_most_complete".

Definition with_strategy (config : AnalysisConfig) (s : string)
    : AnalysisConfig :=
  mkAnalysisConfig (enable_duplicate_detection config)
                   (similarity_threshold config) s
                   (report_duplicates config).

(** A citation as the constructor builds it. *)
Definition constructed (c : Citation) : Prop :=
  exists text author year category,
    c = Citation_new text author year category.

(** A ledger entry of the near-duplicate pass pairs a candidate with the
    accepted citation it was found to duplicate. *)
Definition justified (config : AnalysisConfig) (p : DuplicatePair) : Prop :=
  is_duplicate_of (fst p) (snd p) (similarity_threshold config) = true
  \/ is_duplicate_of (snd p) (fst p) (similarity_threshold config) = true.

(** The state the run starts the de-duplication from. *)
Definition parsed (faculty_data : list Faculty) : Analyzer :=
  mkAnalyzer (_parse_citations faculty_data) [] [].

(** The flattened survivors of the fingerprint groups, with the ledger. *)
Definition group_survivors (config : AnalysisConfig) (self : Analyzer)
    : list Citation * list DuplicatePair :=
  resolve_groups config (fingerprint_groups (citations self))
                 (duplicates_removed self).

(** The first two rules of [similarity_score]: the two DOIs are present and
    equal; the two titles are present, the years are equal and the
    normalized titles are equal. *)
Definition doi_rule (a b : Citation) : bool :=
  Py.truthy_str (doi a) && Py.truthy_str (doi b)
  && bool_decide (doi a = doi b).

Definition title_rule (a b : Citation) : bool :=
  Py.truthy_str (title a) && Py.truthy_str (title b)
  && bool_decide (year a = year b)
  && String.eqb (_normalize_string (default "" (title a)))
                (_normalize_string (default "" (title b))).

(** [v in d[k]] for a dictionary of lists. *)
Definition holds {K V : Type} (d : list (K * list V)) (k : K) (v : V)
    : Prop :=
  exists g, In (k, g) d /\ In v g.

(** [c in organized[category][y]]. *)
Definition bucket {V : Type} (d : list (string * list (Z * list V)))
    (category : string) (y : Z) (c : V) : Prop :=
  exists years, In (category, years) d /\ holds years y c.

(** The year keys of a category, in the order of iteration. *)
Definition year_keys {V : Type} (years : list (Z * list V)) : list Z :=
  map fst years.

(** The keys of a nested dictionary are distinct at both levels. *)
Definition well_keyed {V : Type} (d : list (string * list (Z * list V)))
    : Prop :=
  List.NoDup (map fst d)
  /\ Forall (fun e => List.NoDup (year_keys (snd e))) d.

(** ** Sample data *)

Module Samples.

Definition keep_first : AnalysisConfig := default_config.
Definition keep_longest : AnalysisConfig :=
  with_strategy default_config "keep_longest".
Definition keep_most_complete : AnalysisConfig :=
  with_strategy default_config "keep_most_complete".
Definition keep_best : AnalysisConfig :=
  with_strategy default_config "keep_best".
Definition strict : AnalysisConfig :=
  mkAnalysisConfig true 1%Q "keep_first" true.

Definition short : Citation :=
  Citation_new "Smith (2020) short." "A" None "articles".
Definition long : Citation :=
  Citation_new
    "Smith, J. (2020) short title, expanded version with more detail."
    "A" None "articles".
Definition with_doi : Citation :=
  Citation_new "Kaya (2020) nets. doi:10.1/abc" "B" None "articles".
Definition doi_again : Citation :=
  Citation_new "Kaya, M. Nets, 2020. https://doi.org/10.1/ABC." "C" None
               "articles".
Definition year_2019 : Citation :=
  Citation_new "Acar (2019) first." "A" None "articles".
Definition year_2022 : Citation :=
  Citation_new "Acar (2022) second." "A" None "articles".
Definition year_2020 : Citation :=
  Citation_new "Acar (2020) third." "A" None "articles".
Definition tide : Citation := Citation_new "tide" "A" None "articles".
Definition diet : Citation := Citation_new "diet" "A" None "articles".
Definition study_2020 : Citation :=
  Citation_new "smith (2020) study" "A" None "articles".
Definition study_2021 : Citation :=
  Citation_new "smith (2021) study" "A" None "articles".

Definition nets : Citation :=
  Citation_new "Kaya (2020) neural nets" "A" None "articles".
Definition net : Citation :=
  Citation_new "Kaya (2020) neural net" "A" None "articles".

Definition one_author (texts : list string) : list Faculty :=
  [mkFaculty (Some "A") (Some [("articles", texts)])].

End Samples.

(* ================================================================== *)
(** * The reports and the pipeline *)

(* ------------------------------------------------------------------ *)
(** ** The outputs of [new-parser.py]

    What the analyzer computes for its reports: the names of the
    categories, the rows of the CSV file and the statistics.  Opening and
    writing the files is left out; a function that writes a file is
    modelled by what it writes. *)

(** [AnalysisConfig.translations] (and [TRANSLATIONS] of
    [citation_analyzer.py]): category key, then language, then the name.
    The field only drives the output and is passed to the functions that
    read it. *)
Definition Translations : Type := list (string * list (string * string)).

(** [d.get(k)] on a dictionary with string keys. *)
Fixpoint dict_get {V : Type} (k : string) (d : list (string * V))
    : option V :=
  match d with
  | [] => None
  | (k', v) :: d' => if String.eqb k' k then Some v else dict_get k d'
  end.

(** [s.replace(old, new)] for single characters. *)
Definition str_replace_char (old new : ascii) (s : string) : string :=
  string_of_list_ascii
    (map (fun c => if Ascii.eqb c old then new else c)
         (list_ascii_of_string s)).

Definition upper_char (c : ascii) : ascii :=
  if Re.is_lower c then ascii_of_nat (Re.code c - 32) else c.

Definition is_cased (c : ascii) : bool := Re.is_upper c || Re.is_lower c.

(** [s.title()]: a letter that follows a letter is lower-cased, any other
    letter is upper-cased. *)
Fixpoint title_from (previous_is_cased : bool) (s : list ascii)
    : list ascii :=
  match s with
  | [] => []
  | c :: s' =>
      (if previous_is_cased then Re.lower_char c else upper_char c)
      :: title_from (is_cased c) s'
  end.

Definition str_title (s : string) : string :=
  string_of_list_ascii (title_from false (list_ascii_of_string s)).

(** [CitationAnalyzer.get_category_name] *)
Definition get_category_name (translations : Translations)
    (category_key language : string) : string :=
  match dict_get category_key translations with
  | Some names => default category_key (dict_get language names)
  | None => str_title (str_replace_char "_" " " category_key)
  end.

(** One row of the CSV file: category name, year, author, citation. *)
Definition CsvRow : Type := (string * Z * string * string)%type.

Definition csv_header : list string :=
  ["Category"; "Year"; "Author"; "Citation"].

(** [CitationAnalyzer.save_to_csv]: the rows written after [csv_header]. *)
Definition save_to_csv (translations : Translations) (self : Analyzer)
    (language : string) : list CsvRow :=
  concat
    (map (fun '(category, years) =>
            let category_name :=
              get_category_name translations category language in
            concat
              (map (fun '(year, citations) =>
                      map (fun citation =>
                             (category_name, year, author citation,
                              text citation))
                          citations)
                   years))
         (organized_data self)).

(** The dictionary of [get_duplicate_statistics] when the detection is
    enabled. *)
Record DuplicateStatistics : Type := mkDuplicateStatistics {
  stat_duplicates_removed : nat;
  stat_similarity_threshold : Q;
  stat_strategy : string;
  doi_based_duplicates : nat;
  similarity_based_duplicates : Z
}.

(** [CitationAnalyzer.get_duplicate_statistics]; [None] stands for
    [{"duplicate_detection_enabled": False}]. *)
Definition get_duplicate_statistics (config : AnalysisConfig)
    (self : Analyzer) : option DuplicateStatistics :=
  if negb (enable_duplicate_detection config) then None
  else
    let doi_duplicates :=
      length
        (List.filter
           (fun '(kept, removed) =>
              Py.truthy_str (doi kept) && Py.truthy_str (doi removed)
              && bool_decide (doi kept = doi removed))
           (duplicates_removed self)) in
    Some (mkDuplicateStatistics
            (length (duplicates_removed self))
            (similarity_threshold config)
            (duplicate_strategy config)
            doi_duplicates
            (Z.of_nat (length (duplicates_removed self))
             - Z.of_nat doi_duplicates)).

(** A value, or the [TypeError] that computing it raised. *)
Inductive Computed (A : Type) : Type :=
| Value (a : A)
| RaisesTypeError.
Arguments Value {A} a.
Arguments RaisesTypeError {A}.

(** [dict(keys)] on an iterable of [int]: [dict] wants pairs, and the
    first [int] it meets raises [TypeError]. *)
Definition dict_of_keys (keys : list Z) : Computed (list (Z * Z)) :=
  match keys with
  | [] => Value []
  | _ :: _ => RaisesTypeError
  end.

Record CategoryStatistics : Type := mkCategoryStatistics {
  category_total : nat;
  category_years : list (Z * Z);
  year_range : option (Z * Z)
}.

(** The entry that [generate_statistics] builds for one category. *)
Definition category_statistics (years : list (Z * list Citation))
    : Computed CategoryStatistics :=
  let category_total :=
    list_sum (map (fun '(_, citations) => length citations) years) in
  match years with
  | [] => Value (mkCategoryStatistics category_total [] None)
  | (y, _) :: rest =>
      match dict_of_keys (year_keys years) with
      | Value d =>
          Value (mkCategoryStatistics category_total d
                   (Some (fold_left Z.min (year_keys rest) y,
                          fold_left Z.max (year_keys rest) y)))
      | RaisesTypeError => RaisesTypeError
      end
  end.

(** The loop over [organized_data.items()] of [generate_statistics]. *)
Fixpoint categories_statistics (organized : Organized)
    (categories : list (string * CategoryStatistics))
    : Computed (list (string * CategoryStatistics)) :=
  match organized with
  | [] => Value categories
  | (category, years) :: organized' =>
      match category_statistics years with
      | Value s =>
          categories_statistics organized' (categories ++ [(category, s)])
      | RaisesTypeError => RaisesTypeError
      end
  end.

(** [d[k] += 1] on a [defaultdict(int)]. *)
Fixpoint counter_add {K : Type} (eqb : K -> K -> bool) (k : K)
    (d : list (K * nat)) : list (K * nat) :=
  match d with
  | [] => [(k, 1)]
  | (k', n) :: d' =>
      if eqb k' k then (k', S n) :: d'
      else (k', n) :: counter_add eqb k d'
  end.

(** The loop over the citations of [generate_statistics]. *)
Definition count_step (st : list (Z * nat) * list (string * nat))
    (citation : Citation) : list (Z * nat) * list (string * nat) :=
  let '(years, authors) := st in
  (match year citation with
   | Some y =>
       if Py.truthy_int (year citation) then counter_add Z.eqb y years
       else years
   | None => years
   end,
   counter_add String.eqb (author citation) authors).

Record Statistics : Type := mkStatistics {
  total_citations : nat;
  citations_with_years : nat;
  citations_without_years : nat;
  stat_categories : list (string * CategoryStatistics);
  stat_years : list (Z * nat);
  stat_authors : list (string * nat);
  duplicate_info : option DuplicateStatistics
}.

(** [CitationAnalyzer.generate_statistics] *)
Definition generate_statistics (config : AnalysisConfig) (self : Analyzer)
    : Computed Statistics :=
  let total := length (citations self) in
  let with_years :=
    length (List.filter (fun c => Py.truthy_int (year c))
                        (citations self)) in
  let without_years :=
    length (List.filter (fun c => negb (Py.truthy_int (year c)))
                        (citations self)) in
  let info := get_duplicate_statistics config self in
  match categories_statistics (organized_data self) [] with
  | Value categories =>
      let '(years, authors) :=
        fold_left count_step (citations self) ([], []) in
      Value (mkStatistics total with_years without_years categories
                          years authors info)
  | RaisesTypeError => RaisesTypeError
  end.

(* ------------------------------------------------------------------ *)
(** ** The outputs of [citation_analyzer.py] *)

Module legacy_outputs.

Import citation_analyzer.

(** A value, or the [KeyError] that looking it up raised. *)
Inductive Looked (A : Type) : Type :=
| Found (a : A)
| RaisesKeyError.
Arguments Found {A} a.
Arguments RaisesKeyError {A}.

(** [get_category_name(category_key, language)]:
    [TRANSLATIONS[category_key][language]] raises [KeyError] for a
    language that the entry of the category does not have. *)
Definition get_category_name (TRANSLATIONS : Translations)
    (category_key language : string) : Looked string :=
  match dict_get category_key TRANSLATIONS with
  | Some names =>
      match dict_get language names with
      | Some name => Found name
      | None => RaisesKeyError
      end
  | None => Found (str_title (str_replace_char "_" " " category_key))
  end.

(** [save_to_csv(organized_citations, filename, language)]: the rows
    written after the header, or the [KeyError] of a category name. *)
Fixpoint save_to_csv (TRANSLATIONS : Translations)
    (organized_citations : list (string * list (Z * list Entry)))
    (language : string) : Looked (list CsvRow) :=
  match organized_citations with
  | [] => Found []
  | (category, years) :: organized' =>
      match get_category_name TRANSLATIONS category language with
      | Found category_name =>
          let rows :=
            concat
              (map (fun '(year, citations) =>
                      map (fun citation =>
                             (category_name, year, entry_author citation,
                              entry_text citation))
                          citations)
                   years) in
          match save_to_csv TRANSLATIONS organized' language with
          | Found rows' => Found (rows ++ rows')
          | RaisesKeyError => RaisesKeyError
          end
      | RaisesKeyError => RaisesKeyError
      end
  end.

(** [print_summary(organized_citations)]: the number printed as
    [Total citations with years], or the [KeyError] of the English name of
    a category; [total] is the sum so far. *)
Fixpoint print_summary (TRANSLATIONS : Translations)
    (organized_citations : list (string * list (Z * list Entry)))
    (total : nat) : Looked nat :=
  match organized_citations with
  | [] => Found total
  | (category, years) :: organized' =>
      let cat_total :=
        list_sum (map (fun '(_, citations) => length citations) years) in
      match get_category_name TRANSLATIONS category "en" with
      | Found _ => print_summary TRANSLATIONS organized' (total + cat_total)
      | RaisesKeyError => RaisesKeyError
      end
  end.

End legacy_outputs.

(* ------------------------------------------------------------------ *)
(** ** Vocabulary of the outputs *)

(** The pairs [(year, x)] and the triples [(category, year, x)] of a
    nested dictionary, in the order of iteration. *)
Definition year_entries {V : Type} (years : list (Z * list V))
    : list (Z * V) :=
  concat (map (fun '(y, vs) => map (pair y) vs) years).

Definition entries {V : Type} (d : list (string * list (Z * list V)))
    : list (string * Z * V) :=
  concat (map (fun '(cat, years) =>
                 map (fun '(y, v) => (cat, y, v)) (year_entries years))
              d).

(** A citation with the year it is filed under, when it has one. *)
Definition dated (c : Citation) : option (string * Z * Citation) :=
  match year c with
  | Some y => if Py.truthy_int (year c) then Some (category c, y, c) else None
  | None => None
  end.

(** The row of a citation in the CSV file. *)
Definition csv_row (translations : Translations) (language : string)
    (c : Citation) : option CsvRow :=
  match dated c with
  | Some (cat, y, _) =>
      Some (get_category_name translations cat language, y, author c, text c)
  | None => None
  end.

(** The citations of one author record with their author and category,
    and those of the whole input file, in the order of the file. *)
Definition faculty_listed (f : Faculty) : list (string * string * string) :=
  match faculty_citations f with
  | None => []
  | Some by_category =>
      concat
        (map (fun '(cat, texts) =>
                map (fun t => (default "Unknown" (faculty_name f), cat, t))
                    texts)
             by_category)
  end.

Definition listed (faculty_data : list Faculty)
    : list (string * string * string) :=
  concat (map faculty_listed faculty_data).

(** The entry that [parse_citations] of [citation_analyzer.py] files such
    a citation as, with its category and year. *)
Definition legacy_dated (x : string * string * string)
    : option (string * Z * citation_analyzer.Entry) :=
  let '(name, cat, t) := x in
  match citation_analyzer.extract_year t with
  | Some y =>
      if Py.truthy_int (Some y)
      then Some (cat, y, citation_analyzer.mkEntry t name)
      else None
  | None => None
  end.

(** Its row in the CSV file of [citation_analyzer.py]. *)
Definition legacy_row (TRANSLATIONS : Translations) (language : string)
    (x : string * string * string) : option CsvRow :=
  match legacy_dated x with
  | Some (cat, y, e) =>
      Some (get_category_name TRANSLATIONS cat language, y,
            citation_analyzer.entry_author e,
            citation_analyzer.entry_text e)
  | None => None
  end.


(* ------------------------------------------------------------------ *)
(** ** The pipeline of [new-parser.py] *)

(** How [analyze] ends: it returns, with the analyzer and the statistics
    of the summary, or an exception leaves it, one of [load_data] or the
    [TypeError] of [generate_statistics]. *)
Inductive Run : Type :=
| Completes (self : Analyzer) (stats : Statistics)
| Fails (e : Exception)
| FailsTypeError.

(** [CitationAnalyzer.analyze]: [load_data], the files of the requested
    formats, the summary.  Writing the files is taken to succeed.
    [print_summary] calls [generate_statistics] first thing, as
    [save_to_json] does when the format is requested, and reads no key
    that the statistics lack. *)
Definition analyze (config : AnalysisConfig) (input : Source) : Run :=
  match load_data config input with
  | Raises e => Fails e
  | Returns self =>
      match generate_statistics config self with
      | Value stats => Completes self stats
      | RaisesTypeError => FailsTypeError
      end
  end.

(** The configuration that [main] builds. *)
Definition main_config : AnalysisConfig :=
  mkAnalysisConfig true (85 # 100)%Q "keep_most_complete" true.

(** [main()]: the exit code.  Any exception of [analyze] is logged and
    answered with 1. *)
Definition main (input : Source) : Z :=
  match analyze main_config input with
  | Completes _ _ => 0%Z
  | Fails _ | FailsTypeError => 1%Z
  end.

(* ------------------------------------------------------------------ *)
(** ** Vocabulary of the comparison of the two organizers *)

(** The entry that [citation_analyzer.py] keeps of a citation. *)
Definition as_entry (c : Citation) : citation_analyzer.Entry :=
  citation_analyzer.mkEntry (text c) (author c).

(** A nested dictionary with [f] applied to the elements of its lists. *)
Definition map_years {V W : Type} (f : V -> W) (years : list (Z * list V))
    : list (Z * list W) :=
  map (fun '(y, vs) => (y, map f vs)) years.

Definition map_organized {V W : Type} (f : V -> W)
    (d : list (string * list (Z * list V)))
    : list (string * list (Z * list W)) :=
  map (fun '(cat, years) => (cat, map_years f years)) d.

(* ================================================================== *)
(** * Vocabulary of the further properties *)

(** The citations of [cs] under the fingerprint [k], in their order. *)
Definition with_fingerprint (k : string) (cs : list Citation)
    : list Citation :=
  List.filter (fun c => String.eqb (fingerprint c) k) cs.

(** What a group gives under a strategy that is none of the three: a group
    of one is kept, a larger one is dropped. *)
Definition lone (group : list Citation) : list Citation :=
  if length group =? 1 then group else [].

(** No element of the list is a duplicate of an earlier one. *)
Definition no_duplicate_of_earlier (threshold : Q) (l : list Citation)
    : Prop :=
  forall i j u c,
    i < j -> l !! i = Some u -> l !! j = Some c ->
    is_duplicate_of c u threshold = false.

(** The dictionary [d] groups the elements of [p] by [key]: distinct keys,
    every element of [p] under its key, and under each key the elements
    of [p] with that key, in the order of [p]. *)
Definition grouped {K V : Type} (eqb : K -> K -> bool) (key : V -> K)
    (d : list (K * list V)) (p : list V) : Prop :=
  List.NoDup (map fst d)
  /\ (forall x, In x p -> In (key x) (map fst d))
  /\ (forall k g, In (k, g) d ->
                  g <> [] /\ g = List.filter (fun x => eqb (key x) k) p).

(** Every year key of the nested dictionary satisfies [P]. *)
Definition year_keys_satisfy {V : Type} (P : Z -> Prop)
    (d : list (string * list (Z * list V))) : Prop :=
  forall cat years y, In (cat, years) d -> In y (year_keys years) -> P y.

(** Every character class of the pattern lies inside [P]. *)
Fixpoint all_chr (P : ascii -> Prop) (r : Re.re) : Prop :=
  match r with
  | Re.Chr p => forall c, p c = true -> P c
  | Re.Seq r1 r2 | Re.Alt r1 r2 => all_chr P r1 /\ all_chr P r2
  | Re.Star r' | Re.StarLazy r' | Re.Group r' => all_chr P r'
  | Re.Eps | Re.WordB => True
  end.

(** No match of the pattern is possible without a character of [P]: the
    pattern is a sequence with an item whose class lies inside [P]. *)
Inductive needs (P : ascii -> Prop) : Re.re -> Prop :=
| needs_chr p : (forall c, p c = true -> P c) -> needs P (Re.Chr p)
| needs_left r1 r2 : needs P r1 -> needs P (Re.Seq r1 r2)
| needs_right r1 r2 : needs P r2 -> needs P (Re.Seq r1 r2).

(** The characters of the DOI that [_extract_doi] returns. *)
Definition doi_char (c : ascii) : Prop :=
  Re.is_space c = false /\ Re.is_upper c = false
  /\ c <> ","%char /\ c <> ")"%char.

(** The characters of a normalized citation text. *)
Definition normalized_char (c : ascii) : Prop :=
  Re.is_upper c = false
  /\ Re.one_of ".,;:!?&" c = false /\ Re.code c <> 34
  /\ (Re.is_space c = true -> c = " "%char).

(** The characters of a string normalized by [_normalize_string]. *)
Definition normalized_string_char (c : ascii) : Prop :=
  (Re.is_digit c || Re.is_lower c || (Re.code c =? 95) || Re.is_space c)
  = true.

(** A string of characters of the ASCII range. *)
Definition ascii_only (s : string) : Prop :=
  Forall (fun c => Re.code c < 128) (list_ascii_of_string s).

(** Neither the first nor the last character of the string is white
    space. *)
Definition stripped (s : string) : Prop :=
  (forall c l, list_ascii_of_string s = c :: l -> Re.is_space c = false)
  /\ (forall l c, list_ascii_of_string s = l ++ [c] ->
                  Re.is_space c = false).

(** The pattern has no capturing group. *)
Fixpoint no_group (r : Re.re) : Prop :=
  match r with
  | Re.Group _ => False
  | Re.Seq r1 r2 | Re.Alt r1 r2 => no_group r1 /\ no_group r2
  | Re.Star r' | Re.StarLazy r' => no_group r'
  | Re.Eps | Re.Chr _ | Re.WordB => True
  end.

(** The pattern is a sequence one item of which is the group [body], and
    no later item has a group. *)
Inductive group_in (body : Re.re) : Re.re -> Prop :=
| group_here : group_in body (Re.Group body)
| group_left r1 r2 :
    group_in body r1 -> no_group r2 -> group_in body (Re.Seq r1 r2)
| group_right r1 r2 : group_in body r2 -> group_in body (Re.Seq r1 r2).

(** The form of a title: the stripped inside of the first quoted part of
    the text, or, when the text has no quoted part, more than ten
    characters without a full stop. *)
Definition quoted_title (text t : string) : Prop :=
  exists g, Re.search_group1 Patterns.quoted text = Some g
            /\ t = Py.strip g
            /\ Forall (fun c => Re.code c <> 34) (list_ascii_of_string t).

Definition guessed_title (text t : string) : Prop :=
  Re.search_group1 Patterns.quoted text = None
  /\ 10 < String.length t
  /\ Forall (fun c => c <> "."%char) (list_ascii_of_string t).

(** A match that lies inside the window [a[alo:ahi]], [b[blo:bhi]]. *)
Definition inside (alo ahi blo bhi : nat) (m : Difflib.Match) : Prop :=
  let '(i, j, k) := m in
  alo <= i /\ blo <= j /\ i + k <= ahi /\ j + k <= bhi.

(** An entry [(j, k)] of [j2len] before row [i]: a run of [k] equal
    elements that ends at [j] in [b] and before [i] in [a], inside the
    window. *)
Definition run_entry (alo blo i : nat) (e : nat * nat) : Prop :=
  blo <= fst e /\ snd e + blo <= S (fst e) /\ snd e + alo <= i.

(** The ledger entry [(kept, removed)] honours the strategy: under
    [keep_longest] the removed citation is not the longer one; under
    [keep_most_complete] a citation with a DOI is not removed for one
    without, and of two citations that both have a DOI, or both have none,
    the removed one is not the longer one. *)
Definition honours (config : AnalysisConfig) (p : DuplicatePair) : Prop :=
  (duplicate_strategy config = "keep_longest" ->
   text_len (snd p) <= text_len (fst p))
  /\ (duplicate_strategy config = "keep_most_complete" ->
      (Py.truthy_str (doi (snd p)) = true ->
       Py.truthy_str (doi (fst p)) = true)
      /\ (Py.truthy_str (doi (snd p)) = Py.truthy_str (doi (fst p)) ->
          text_len (snd p) <= text_len (fst p))).

(** What the loop over the fingerprint groups keeps of one group. *)
Definition kept_of (config : AnalysisConfig)
    (entry : string * list Citation) : list Citation :=
  if length (snd entry) =? 1 then snd entry
  else fst (_resolve_duplicate_group config (snd entry)).

(** The first citations of the groups, in the order of the groups. *)
Definition firsts (groups : list (string * list Citation))
    : list Citation :=
  concat (map (fun e => take 1 (snd e)) groups).

(** The last part of the text that is hashed when a citation has no DOI:
    [self.year or 'no_year'] inside the f-string. *)
Definition year_part (year : option Z) : string :=
  if Py.truthy_int year then Py.str_of_int (default 0%Z year) else "no_year".

(** The derived fields of the citation are what the constructor computes
    from its text alone, no year being given. *)
Definition recomputable (c : Citation) : Prop :=
  year c = _extract_year (text c)
  /\ normalized_text c = _normalize_text (text c)
  /\ doi c = _extract_doi (text c)
  /\ fingerprint c
     = _generate_fingerprint (_extract_doi (text c))
         (_normalize_text (text c)) (_extract_year (text c)).

(** The citation is among the kept citations of the analyzer or in one of
    its ledger entries. *)
Definition appears (a : Analyzer) (c : Citation) : Prop :=
  In c (citations a)
  \/ exists p, In p (duplicates_removed a) /\ (c = fst p \/ c = snd p).

(** ** More sample data *)

Module MoreSamples.

Definition lenient : AnalysisConfig :=
  mkAnalysisConfig true 0%Q "keep_first" true.
Definition detection_off : AnalysisConfig :=
  mkAnalysisConfig false (85 # 100)%Q "keep_first" true.
Definition translations : Translations :=
  [("national_books", [("en", "National Books")])].

End MoreSamples.

(* ================================================================== *)
(** * Properties *)

Lemma known_strategy_cases (s : string) :
  known_strategy s = true ->
  s = "keep_first" \/ s = "keep_longest" \/ s = "keep_most_complete".
Proof.
  unfold known_strategy; intros H.
  apply orb_true_iff in H as [H | H];
    [apply orb_true_iff in H as [H | H] |];
    apply String.eqb_eq in H; auto.
Qed.

(** ** The near-duplicate pass, one candidate at a time *)

Section SimilarPass.

Variable config : AnalysisConfig.

(** A candidate with no accepted duplicate is accepted. *)
Lemma similar_step_fresh (unique_citations : list Citation)
    (removed : list DuplicatePair) (c : Citation) :
  List.find (fun u => is_duplicate_of c u (similarity_threshold config))
            unique_citations = None ->
  similar_step config (unique_citations, removed) c
  = (unique_citations ++ [c], removed).
Proof. intros H; unfold similar_step; rewrite H; reflexivity. Qed.

(** A candidate with an accepted duplicate [u] either replaces it or is
    dropped. *)
Lemma similar_step_match (unique_citations : list Citation)
    (removed : list DuplicatePair) (c u : Citation) :
  List.find (fun u => is_duplicate_of c u (similarity_threshold config))
            unique_citations = Some u ->
  similar_step config (unique_citations, removed) c
  = if _should_replace config u c
    then (list_remove u unique_citations ++ [c], removed ++ [(c, u)])
    else (unique_citations, removed ++ [(u, c)]).
Proof. intros H; unfold similar_step; rewrite H; reflexivity. Qed.

Lemma list_remove_length (u : Citation) (l : list Citation) :
  In u l -> S (length (list_remove u l)) = length l.
Proof.
  induction l as [| y l IH]; simpl; [tauto |].
  intros [-> | Hin].
  - rewrite bool_decide_eq_true_2 by reflexivity; reflexivity.
  - destruct (bool_decide (y = u)); [reflexivity |].
    simpl; rewrite IH by assumption; reflexivity.
Qed.

(** Each candidate adds one element to the accepted list or one entry to
    the ledger, never both. *)
Lemma similar_step_count (st : list Citation * list DuplicatePair)
    (c : Citation) :
  length (fst (similar_step config st c))
  + length (snd (similar_step config st c))
  = S (length (fst st) + length (snd st)).
Proof.
  destruct st as [uniq removed]; unfold similar_step; simpl.
  destruct (List.find _ uniq) as [u |] eqn:Hfind.
  - apply find_some in Hfind as [Hin _].
    destruct (_should_replace config u c); simpl;
      rewrite ?length_app; simpl.
    + pose proof (list_remove_length u uniq Hin). lia.
    + lia.
  - simpl; rewrite length_app; simpl; lia.
Qed.

Lemma remove_similar_count (cs : list Citation)
    (st : list Citation * list DuplicatePair) :
  length (fst (fold_left (similar_step config) cs st))
  + length (snd (fold_left (similar_step config) cs st))
  = length cs + (length (fst st) + length (snd st)).
Proof.
  revert st; induction cs as [| c cs IH]; intros st; cbn [fold_left length];
    [lia |].
  rewrite IH, similar_step_count; lia.
Qed.

(** When nothing is ever replaced, the accepted list only grows at its
    end, by candidates in their order. *)
Lemma never_replace_sublist (cs acc : list Citation)
    (removed : list DuplicatePair) :
  (forall existing new, _should_replace config existing new = false) ->
  exists tail,
    fst (fold_left (similar_step config) cs (acc, removed)) = acc ++ tail
    /\ sublist tail cs.
Proof.
  intros Hnever; revert acc removed.
  induction cs as [| c cs IH]; intros acc removed; cbn [fold_left].
  - exists []; rewrite app_nil_r; split; [reflexivity | constructor].
  - destruct (List.find
                (fun u => is_duplicate_of c u (similarity_threshold config))
                acc) as [u |] eqn:Hfind.
    + rewrite (similar_step_match _ _ _ _ Hfind), Hnever.
      destruct (IH acc (removed ++ [(u, c)])) as (tail & -> & Hsub).
      exists tail; split; [reflexivity | apply sublist_cons; exact Hsub].
    + rewrite (similar_step_fresh _ _ _ Hfind).
      destruct (IH (acc ++ [c]) removed) as (tail & -> & Hsub).
      exists (c :: tail); split.
      * rewrite <- app_assoc; reflexivity.
      * apply sublist_skip; exact Hsub.
Qed.

End SimilarPass.

(** [C10] Under [keep_first] the decision function never asks for a
    replacement, and the list returned by the near-duplicate pass is a
    subsequence of the list it was given: its elements are input elements
    in their input order. *)
Theorem keep_first_pass_is_subsequence (config : AnalysisConfig)
    (cs : list Citation) (removed : list DuplicatePair) :
  duplicate_strategy config = "keep_first" ->
  (forall existing new, _should_replace config existing new = false)
  /\ sublist (fst (_remove_similar_duplicates config cs removed)) cs.
Proof.
  intros Hfirst.
  assert (Hnever : forall existing new,
             _should_replace config existing new = false).
  { intros existing new; unfold _should_replace; rewrite Hfirst; reflexivity. }
  split; [exact Hnever |].
  destruct (never_replace_sublist config cs [] removed Hnever)
    as (tail & Heq & Hsub).
  unfold _remove_similar_duplicates; rewrite Heq; exact Hsub.
Qed.

Lemma keep_first_pass_is_subsequence_witness :
  sublist
    (fst (_remove_similar_duplicates Samples.keep_first
            [Samples.tide; Samples.diet; Samples.tide] []))
    [Samples.tide; Samples.diet; Samples.tide].
Proof.
  apply (keep_first_pass_is_subsequence Samples.keep_first
           [Samples.tide; Samples.diet; Samples.tide] []).
  reflexivity.
Defined.

(** ** The group resolver *)

Lemma max_by_len_in (best : Citation) (cs : list Citation) :
  In (max_by_len best cs) (best :: cs).
Proof.
  revert best; induction cs as [| c cs IH]; intros best; simpl; [auto |].
  destruct (text_len best <? text_len c).
  - right; apply IH.
  - destruct (IH best) as [H | H]; [left; exact H | right; right; exact H].
Qed.

Lemma max_by_len_lower (best : Citation) (cs : list Citation) :
  text_len best <= text_len (max_by_len best cs).
Proof.
  revert best; induction cs as [| c cs IH]; intros best; simpl; [lia |].
  destruct (text_len best <? text_len c) eqn:E.
  - apply Nat.ltb_lt in E. specialize (IH c). lia.
  - apply IH.
Qed.

Lemma max_by_len_ge (best : Citation) (cs : list Citation) (c : Citation) :
  In c (best :: cs) -> text_len c <= text_len (max_by_len best cs).
Proof.
  revert best; induction cs as [| x cs IH]; intros best Hin.
  - destruct Hin as [<- | []]; simpl; lia.
  - simpl. destruct (text_len best <? text_len x) eqn:E.
    + apply Nat.ltb_lt in E.
      destruct Hin as [<- | Hin].
      * pose proof (max_by_len_lower x cs). lia.
      * apply IH; exact Hin.
    + apply Nat.ltb_ge in E.
      destruct Hin as [<- | [<- | Hin]].
      * apply max_by_len_lower.
      * pose proof (max_by_len_lower best cs). lia.
      * apply IH; right; exact Hin.
Qed.

(** [C5] Under [keep_most_complete] a fingerprint group of two or more
    citations keeps one element of the group: the longest text among the
    elements with a DOI when there is one, the longest text of the group
    when there is none.  In the near-duplicate pass, when the candidate
    and the accepted citation it duplicates differ in having a DOI, the
    one with the DOI stays in the accepted list and is recorded as kept,
    whatever the lengths of the two texts. *)
Theorem keep_most_complete_survivor (config : AnalysisConfig)
    (group : list Citation) :
  duplicate_strategy config = "keep_most_complete" ->
  2 <= length group ->
  (exists best,
      fst (_resolve_duplicate_group config group) = [best]
      /\ In best group
      /\ ((exists c, In c group /\ Py.truthy_str (doi c) = true) ->
          Py.truthy_str (doi best) = true
          /\ forall c, In c group -> Py.truthy_str (doi c) = true ->
                       text_len c <= text_len best)
      /\ ((forall c, In c group -> Py.truthy_str (doi c) = false) ->
          forall c, In c group -> text_len c <= text_len best))
  /\ (forall unique_citations removed c u,
         List.find (fun u =>
                      is_duplicate_of c u (similarity_threshold config))
                   unique_citations = Some u ->
         (Py.truthy_str (doi c) = true -> Py.truthy_str (doi u) = false ->
          similar_step config (unique_citations, removed) c
          = (list_remove u unique_citations ++ [c], removed ++ [(c, u)]))
         /\ (Py.truthy_str (doi u) = true -> Py.truthy_str (doi c) = false ->
             In u unique_citations
             /\ similar_step config (unique_citations, removed) c
                = (unique_citations, removed ++ [(u, c)]))).
Proof.
  intros Hstrategy Hlen. split.
  - destruct group as [| first [| second others]]; simpl in Hlen; try lia.
    unfold _resolve_duplicate_group; rewrite Hstrategy.
    cbn [String.eqb Ascii.eqb Bool.eqb].
    set (group := first :: second :: others).
    destruct (List.filter (fun c => Py.truthy_str (doi c)) group)
      as [| d ds] eqn:Hdoi.
    + exists (max_by_len first (second :: others)).
      split; [reflexivity |]. split; [apply max_by_len_in |]. split.
      * intros (c & Hin & Hc).
        assert (In c (List.filter (fun c => Py.truthy_str (doi c)) group))
          by (apply filter_In; auto).
        rewrite Hdoi in H; destruct H.
      * intros _ c Hin. apply max_by_len_ge; exact Hin.
    + exists (max_by_len d ds).
      assert (Hbest : In (max_by_len d ds)
                         (List.filter (fun c => Py.truthy_str (doi c)) group))
        by (rewrite Hdoi; apply max_by_len_in).
      apply filter_In in Hbest as [Hin Htruthy].
      split; [reflexivity |]. split; [exact Hin |]. split.
      * intros _. split; [exact Htruthy |].
        intros c Hc Hcdoi. apply max_by_len_ge.
        rewrite <- Hdoi. apply filter_In; auto.
      * intros Hnone.
        rewrite (Hnone _ Hin) in Htruthy; discriminate.
  - intros uniq removed c u Hfind.
    rewrite (similar_step_match _ _ _ _ _ Hfind).
    unfold _should_replace; rewrite Hstrategy.
    cbn [String.eqb Ascii.eqb Bool.eqb].
    split.
    + intros -> ->; reflexivity.
    + intros -> ->. split; [| reflexivity].
      apply find_some in Hfind; tauto.
Qed.

Lemma keep_most_complete_survivor_witness :
  exists best,
    fst (_resolve_duplicate_group Samples.keep_most_complete
           [Samples.long; Samples.with_doi]) = [best]
    /\ In best [Samples.long; Samples.with_doi].
Proof.
  destruct (keep_most_complete_survivor Samples.keep_most_complete
              [Samples.long; Samples.with_doi]) as [Hgroup _].
  - reflexivity.
  - simpl; lia.
  - destruct Hgroup as (best & Hkept & Hin & _).
    exists best; split; assumption.
Defined.

(** Under [keep_first] every element after the first is paired with the
    first: the ledger grows by the size of the group minus one. *)
Lemma resolve_keep_first_ledger (config : AnalysisConfig)
    (first second : Citation) (others : list Citation) :
  duplicate_strategy config = "keep_first" ->
  _resolve_duplicate_group config (first :: second :: others)
  = ([first], map (fun dup => (first, dup)) (second :: others)).
Proof.
  intros Hstrategy; unfold _resolve_duplicate_group; rewrite Hstrategy.
  reflexivity.
Qed.

(** [pairs_against] skips every element equal to the survivor, the
    survivor itself and its copies alike. *)
Lemma pairs_against_length (kept : Citation) (group : list Citation) :
  length (pairs_against kept group) + count_occ Citation_eq_dec group kept
  = length group.
Proof.
  unfold pairs_against; rewrite length_map.
  induction group as [| c group IH]; simpl; [reflexivity |].
  destruct (Citation_eq_dec c kept) as [-> | Hne].
  - rewrite bool_decide_eq_true_2 by reflexivity; simpl. lia.
  - rewrite bool_decide_eq_false_2 by exact Hne; simpl. lia.
Qed.

(** In a group without repeated elements the two other strategies record
    the size of the group minus one as well. *)
Lemma pairs_against_NoDup (kept : Citation) (group : list Citation) :
  List.NoDup group -> In kept group ->
  S (length (pairs_against kept group)) = length group.
Proof.
  intros Hnodup Hin.
  pose proof (pairs_against_length kept group) as Hlen.
  pose proof (proj1 (NoDup_count_occ Citation_eq_dec group) Hnodup kept).
  pose proof (proj1 (count_occ_In Citation_eq_dec group kept) Hin).
  lia.
Qed.

(** [C2] The group of two copies of one citation (same text, author and
    category, as when an author's page lists an entry twice): under
    [keep_longest] and [keep_most_complete] the group keeps one copy and
    the ledger receives nothing, where the size of the group minus one is
    one; under [keep_first] the same group does give its one entry.  The
    whole run on that input ends with one citation and an empty ledger. *)
Theorem identical_copies_leave_no_ledger_entry :
  _resolve_duplicate_group Samples.keep_longest
    [Samples.short; Samples.short] = ([Samples.short], [])
  /\ _resolve_duplicate_group Samples.keep_most_complete
       [Samples.short; Samples.short] = ([Samples.short], [])
  /\ _resolve_duplicate_group Samples.keep_first
       [Samples.short; Samples.short]
     = ([Samples.short], [(Samples.short, Samples.short)])
  /\ load_data Samples.keep_longest
       (Loaded (Samples.one_author
                  ["Smith (2020) short."; "Smith (2020) short."]))
     = Returns (mkAnalyzer [Samples.short] []
                           [("articles", [(2020%Z, [Samples.short])])]).
Proof. vm_compute. repeat split; reflexivity. Qed.

(** ** Unknown strategies *)

Lemma similar_step_never (config config' : AnalysisConfig)
    (st : list Citation * list DuplicatePair) (c : Citation) :
  similarity_threshold config = similarity_threshold config' ->
  (forall existing new, _should_replace config existing new = false) ->
  (forall existing new, _should_replace config' existing new = false) ->
  similar_step config st c = similar_step config' st c.
Proof.
  intros Hthreshold Hnever Hnever'.
  destruct st as [uniq removed]; unfold similar_step.
  rewrite Hthreshold.
  destruct (List.find _ uniq); [| reflexivity].
  rewrite Hnever, Hnever'; reflexivity.
Qed.

Lemma should_replace_unknown (config : AnalysisConfig)
    (existing new : Citation) :
  known_strategy (duplicate_strategy config) = false ->
  _should_replace config existing new = false.
Proof.
  unfold known_strategy, _should_replace; intros H.
  apply orb_false_iff in H as [H H3].
  apply orb_false_iff in H as [H1 H2].
  rewrite H1, H2, H3; reflexivity.
Qed.

(** [C1] A configuration whose [duplicate_strategy] is none of the three
    names is accepted: on every loaded input the run returns an analyzer
    and raises nothing, and in the near-duplicate pass the decision
    function answers [False] for every pair, so that the pass does what it
    does under [keep_first]. *)
Theorem unknown_strategy_is_not_rejected (config : AnalysisConfig) :
  known_strategy (duplicate_strategy config) = false ->
  (forall faculty_data,
      exists a, load_data config (Loaded faculty_data) = Returns a)
  /\ (forall existing new, _should_replace config existing new = false)
  /\ (forall cs removed,
         _remove_similar_duplicates config cs removed
         = _remove_similar_duplicates (with_strategy config "keep_first")
             cs removed).
Proof.
  intros Hunknown.
  assert (Hnever : forall existing new,
             _should_replace config existing new = false)
    by (intros; apply should_replace_unknown; exact Hunknown).
  split; [| split; [exact Hnever |]].
  - intros faculty_data; unfold load_data.
    destruct (enable_duplicate_detection config); eexists; reflexivity.
  - intros cs removed; unfold _remove_similar_duplicates.
    generalize (@nil Citation, removed).
    induction cs as [| c cs IH]; intros st; cbn [fold_left]; [reflexivity |].
    rewrite (similar_step_never config (with_strategy config "keep_first"));
      [apply IH | reflexivity | exact Hnever | reflexivity].
Qed.

Lemma unknown_strategy_is_not_rejected_witness :
  known_strategy (duplicate_strategy Samples.keep_best) = false
  /\ exists a,
      load_data Samples.keep_best
        (Loaded (Samples.one_author ["tide"; "diet"])) = Returns a.
Proof.
  split; [reflexivity |].
  apply (unknown_strategy_is_not_rejected Samples.keep_best).
  reflexivity.
Defined.

(** The run on a configuration with the strategy [keep_best] returns: no
    configuration error is raised. *)
Lemma unknown_strategy_run_returns :
  known_strategy (duplicate_strategy Samples.keep_best) = false
  /\ load_data Samples.keep_best
       (Loaded (Samples.one_author ["tide"; "diet"]))
     = Returns (mkAnalyzer [Samples.tide; Samples.diet] [] []).
Proof. vm_compute. split; reflexivity. Qed.

(** ** The near-duplicate pass as a whole *)

Section PassInvariants.

Variable config : AnalysisConfig.

Lemma list_remove_other (u x : Citation) (l : list Citation) :
  In x l -> x <> u -> In x (list_remove u l).
Proof.
  intros Hin Hne; induction l as [| y l IH]; simpl in *; [tauto |].
  destruct (bool_decide (y = u)) eqn:E.
  - apply bool_decide_eq_true in E. destruct Hin as [-> | Hin]; congruence.
  - destruct Hin as [-> | Hin]; [left; reflexivity | right; auto].
Qed.

(** Nothing vanishes: what was accepted or is the candidate is accepted
    or recorded as removed afterwards. *)
Lemma similar_step_accounts (st : list Citation * list DuplicatePair)
    (c x : Citation) :
  In x (fst st) \/ In x (map snd (snd st)) \/ x = c ->
  In x (fst (similar_step config st c))
  \/ In x (map snd (snd (similar_step config st c))).
Proof.
  destruct st as [uniq removed]; unfold similar_step; cbn [fst snd].
  destruct (List.find _ uniq) as [u |].
  - destruct (_should_replace config u c); cbn [fst snd];
      rewrite ?map_app, ?in_app_iff; simpl.
    + intros [H | [H | ->]]; [| tauto | tauto].
      destruct (Citation_eq_dec x u) as [-> | Hne]; [tauto |].
      left; left; apply list_remove_other; assumption.
    + intros [H | [H | ->]]; tauto.
  - cbn [fst snd]; rewrite in_app_iff; simpl.
    intros [H | [H | ->]]; tauto.
Qed.

Lemma remove_similar_accounts (cs : list Citation)
    (st : list Citation * list DuplicatePair) (x : Citation) :
  In x (fst st) \/ In x (map snd (snd st)) \/ In x cs ->
  In x (fst (fold_left (similar_step config) cs st))
  \/ In x (map snd (snd (fold_left (similar_step config) cs st))).
Proof.
  revert st; induction cs as [| c cs IH]; intros st H; cbn [fold_left].
  - simpl in H; tauto.
  - apply IH.
    destruct H as [H | [H | [<- | H]]]; [| | | tauto].
    + destruct (similar_step_accounts st c x); tauto.
    + destruct (similar_step_accounts st c x); tauto.
    + destruct (similar_step_accounts st c c); tauto.
Qed.

(** The ledger only grows, by justified entries. *)
Lemma similar_step_ledger (st : list Citation * list DuplicatePair)
    (c : Citation) :
  exists new,
    snd (similar_step config st c) = snd st ++ new
    /\ Forall (justified config) new.
Proof.
  destruct st as [uniq removed]; unfold similar_step; cbn [fst snd].
  destruct (List.find _ uniq) as [u |] eqn:Hfind.
  - apply find_some in Hfind as [_ Hdup].
    destruct (_should_replace config u c); cbn [snd];
      eexists; (split; [reflexivity |]);
      (constructor; [| constructor]); unfold justified; simpl; auto.
  - exists []; rewrite app_nil_r; split; [reflexivity | constructor].
Qed.

Lemma remove_similar_ledger (cs : list Citation)
    (st : list Citation * list DuplicatePair) :
  exists new,
    snd (fold_left (similar_step config) cs st) = snd st ++ new
    /\ Forall (justified config) new.
Proof.
  revert st; induction cs as [| c cs IH]; intros st; cbn [fold_left].
  - exists []; rewrite app_nil_r; split; [reflexivity | constructor].
  - destruct (IH (similar_step config st c)) as (new2 & -> & H2).
    destruct (similar_step_ledger st c) as (new1 & -> & H1).
    exists (new1 ++ new2); rewrite app_assoc; split; [reflexivity |].
    apply Forall_app; split; assumption.
Qed.

End PassInvariants.

Lemma find_none_intro {A : Type} (f : A -> bool) (l : list A) :
  (forall x, In x l -> f x = false) -> List.find f l = None.
Proof.
  induction l as [| y l IH]; intros H; simpl; [reflexivity |].
  rewrite (H y) by (left; reflexivity).
  apply IH; intros x Hx; apply H; right; exact Hx.
Qed.

Lemma load_data_loaded (config : AnalysisConfig)
    (faculty_data : list Faculty) :
  load_data config (Loaded faculty_data)
  = Returns (if enable_duplicate_detection config
             then _remove_duplicates config (parsed faculty_data)
             else parsed faculty_data).
Proof.
  unfold load_data, parsed; simpl.
  destruct (enable_duplicate_detection config); reflexivity.
Qed.

Lemma remove_duplicates_gate (config : AnalysisConfig) (self : Analyzer) :
  (citations (_remove_duplicates config self),
   duplicates_removed (_remove_duplicates config self))
  = if negb (Qle_bool 1 (similarity_threshold config))
    then _remove_similar_duplicates config
           (fst (group_survivors config self))
           (snd (group_survivors config self))
    else group_survivors config self.
Proof.
  unfold _remove_duplicates, group_survivors.
  destruct (resolve_groups config _ _) as [survivors removed]; cbn [fst snd].
  destruct (negb (Qle_bool 1 (similarity_threshold config))).
  - destruct (_remove_similar_duplicates config survivors removed);
      reflexivity.
  - reflexivity.
Qed.

(** [C8] When duplicate detection is enabled the run is one call of
    [_remove_duplicates] on the parsed citations.  That call hands the
    flattened survivors of the fingerprint groups to the near-duplicate
    pass once if [similarity_threshold] is below 1.0, and keeps them as
    they are otherwise.  The pass takes the candidates in their order; a
    candidate that duplicates no accepted citation is appended; a
    candidate that duplicates one is settled against the first such
    citation by the keep/replace decision, which leaves the size of the
    accepted list unchanged.  At the end every candidate is accepted or
    recorded as removed, every new ledger entry joins a pair found to be
    duplicates, and the accepted citations and the new entries together
    are as many as the candidates. *)
Theorem near_duplicate_pass_runs_once_below_one (config : AnalysisConfig) :
  (forall faculty_data,
      load_data config (Loaded faculty_data)
      = Returns (if enable_duplicate_detection config
                 then _remove_duplicates config (parsed faculty_data)
                 else parsed faculty_data))
  /\ (forall self,
         (citations (_remove_duplicates config self),
          duplicates_removed (_remove_duplicates config self))
         = if negb (Qle_bool 1 (similarity_threshold config))
           then _remove_similar_duplicates config
                  (fst (group_survivors config self))
                  (snd (group_survivors config self))
           else group_survivors config self)
  /\ (forall cs c removed,
         _remove_similar_duplicates config (cs ++ [c]) removed
         = similar_step config
             (_remove_similar_duplicates config cs removed) c)
  /\ (forall unique_citations removed c,
         (forall u, In u unique_citations ->
                    is_duplicate_of c u (similarity_threshold config)
                    = false) ->
         similar_step config (unique_citations, removed) c
         = (unique_citations ++ [c], removed))
  /\ (forall unique_citations removed c u,
         List.find (fun u =>
                      is_duplicate_of c u (similarity_threshold config))
                   unique_citations = Some u ->
         similar_step config (unique_citations, removed) c
         = (if _should_replace config u c
            then (list_remove u unique_citations ++ [c],
                  removed ++ [(c, u)])
            else (unique_citations, removed ++ [(u, c)]))
         /\ length (fst (similar_step config (unique_citations, removed) c))
            = length unique_citations)
  /\ (forall cs removed x,
         In x cs ->
         In x (fst (_remove_similar_duplicates config cs removed))
         \/ In x (map snd
                    (snd (_remove_similar_duplicates config cs removed))))
  /\ (forall cs removed,
         exists new,
           snd (_remove_similar_duplicates config cs removed)
           = removed ++ new
           /\ Forall (justified config) new
           /\ length (fst (_remove_similar_duplicates config cs removed))
              + length new = length cs).
Proof.
  split; [apply load_data_loaded |].
  split; [apply remove_duplicates_gate |].
  split.
  { intros cs c removed; unfold _remove_similar_duplicates.
    rewrite fold_left_app; reflexivity. }
  split.
  { intros uniq removed c Hnone.
    apply similar_step_fresh, find_none_intro; exact Hnone. }
  split.
  { intros uniq removed c u Hfind.
    rewrite (similar_step_match _ _ _ _ _ Hfind).
    split; [reflexivity |].
    apply find_some in Hfind as [Hin _].
    destruct (_should_replace config u c); cbn [fst]; [| reflexivity].
    rewrite length_app; simpl.
    pose proof (list_remove_length u uniq Hin). lia. }
  split.
  { intros cs removed x Hin; unfold _remove_similar_duplicates.
    apply remove_similar_accounts; tauto. }
  intros cs removed; unfold _remove_similar_duplicates.
  destruct (remove_similar_ledger config cs ([], removed))
    as (new & Hledger & Hjust).
  exists new; split; [exact Hledger |]; split; [exact Hjust |].
  pose proof (remove_similar_count config cs ([], removed)) as Hcount.
  rewrite Hledger in Hcount; cbn [fst snd] in Hcount.
  rewrite length_app in Hcount; simpl in Hcount. lia.
Qed.

Lemma near_duplicate_pass_runs_once_below_one_witness :
  In Samples.net
     (fst (_remove_similar_duplicates Samples.keep_first
             [Samples.nets; Samples.net] []))
  \/ In Samples.net
        (map snd
           (snd (_remove_similar_duplicates Samples.keep_first
                   [Samples.nets; Samples.net] []))).
Proof.
  apply (near_duplicate_pass_runs_once_below_one Samples.keep_first).
  simpl; tauto.
Defined.

(** With [similarity_threshold = 1.0] and detection enabled the pass does
    not run: the two survivors score 1.0 against each other and the pass
    would merge them, yet the run keeps both and the ledger stays
    empty. *)
Lemma pass_skipped_at_threshold_one :
  enable_duplicate_detection Samples.strict = true
  /\ is_duplicate_of Samples.net Samples.nets
       (similarity_threshold Samples.strict) = true
  /\ _remove_similar_duplicates Samples.strict
       [Samples.nets; Samples.net] []
     = ([Samples.nets], [(Samples.nets, Samples.net)])
  /\ load_data Samples.strict
       (Loaded (Samples.one_author
                  ["Kaya (2020) neural nets"; "Kaya (2020) neural net"]))
     = Returns (mkAnalyzer [Samples.nets; Samples.net] []
                  [("articles", [(2020%Z, [Samples.nets; Samples.net])])]).
Proof. vm_compute. repeat split; reflexivity. Qed.

(** ** The threshold *)

Lemma is_duplicate_of_iff (self other : Citation) (threshold : Q) :
  is_duplicate_of self other threshold = true
  <-> (threshold <= similarity_score self other)%Q.
Proof. unfold is_duplicate_of; apply Qle_bool_iff. Qed.

Lemma pass_on_pair (config : AnalysisConfig) (c1 c2 : Citation)
    (removed : list DuplicatePair) :
  length (fst (_remove_similar_duplicates config [c1; c2] removed)) = 1
  <-> is_duplicate_of c2 c1 (similarity_threshold config) = true.
Proof.
  unfold _remove_similar_duplicates; simpl.
  destruct (is_duplicate_of c2 c1 (similarity_threshold config)).
  - destruct (_should_replace config c1 c2); simpl.
    + rewrite bool_decide_eq_true_2 by reflexivity; simpl; tauto.
    + tauto.
  - simpl; split; [lia | discriminate].
Qed.

(** [C6] [is_duplicate_of] answers [True] exactly when the similarity
    score is greater than or equal to the threshold, a score equal to the
    threshold included.  The run applies this test in the near-duplicate
    pass, and only when [similarity_threshold] is below 1.0: then two
    candidates handed to the pass are merged exactly when the score of the
    second against the first reaches the threshold; with a threshold of
    1.0 or more no pair is tested and the survivors of the fingerprint
    groups are final. *)
Theorem duplicate_iff_score_reaches_threshold :
  (forall self other threshold,
      is_duplicate_of self other threshold = true
      <-> (threshold <= similarity_score self other)%Q)
  /\ (forall config c1 c2 removed,
         length (fst (_remove_similar_duplicates config [c1; c2] removed)) = 1
         <-> (similarity_threshold config <= similarity_score c2 c1)%Q)
  /\ (forall config self,
         (similarity_threshold config < 1)%Q ->
         (citations (_remove_duplicates config self),
          duplicates_removed (_remove_duplicates config self))
         = _remove_similar_duplicates config
             (fst (group_survivors config self))
             (snd (group_survivors config self)))
  /\ (forall config self,
         (1 <= similarity_threshold config)%Q ->
         (citations (_remove_duplicates config self),
          duplicates_removed (_remove_duplicates config self))
         = group_survivors config self).
Proof.
  split; [apply is_duplicate_of_iff |].
  split.
  { intros config c1 c2 removed.
    rewrite pass_on_pair. apply is_duplicate_of_iff. }
  split.
  - intros config self Hlt. rewrite remove_duplicates_gate.
    destruct (Qle_bool 1 (similarity_threshold config)) eqn:E;
      [| reflexivity].
    apply Qle_bool_iff in E. apply Qle_not_lt in E. contradiction.
  - intros config self Hle. rewrite remove_duplicates_gate.
    apply Qle_bool_iff in Hle. rewrite Hle; reflexivity.
Qed.

Lemma duplicate_iff_score_reaches_threshold_witness :
  (citations (_remove_duplicates Samples.keep_first
                (parsed (Samples.one_author ["tide"; "diet"]))),
   duplicates_removed (_remove_duplicates Samples.keep_first
                (parsed (Samples.one_author ["tide"; "diet"]))))
  = _remove_similar_duplicates Samples.keep_first
      (fst (group_survivors Samples.keep_first
              (parsed (Samples.one_author ["tide"; "diet"]))))
      (snd (group_survivors Samples.keep_first
              (parsed (Samples.one_author ["tide"; "diet"])))).
Proof.
  apply (proj1 (proj2 (proj2 duplicate_iff_score_reaches_threshold))).
  reflexivity.
Defined.

(** With [similarity_threshold = 1.0] the two citations have distinct
    fingerprints and a score of exactly 1.0, equal to the threshold, and
    the run classifies them as distinct: both are kept and the ledger is
    empty. *)
Lemma score_equal_to_threshold_one_not_merged :
  (similarity_score Samples.study_2021 Samples.study_2020 == 1)%Q
  /\ (similarity_threshold Samples.strict
      <= similarity_score Samples.study_2021 Samples.study_2020)%Q
  /\ fingerprint Samples.study_2020 <> fingerprint Samples.study_2021
  /\ load_data Samples.strict
       (Loaded (Samples.one_author
                  ["smith (2020) study"; "smith (2021) study"]))
     = Returns (mkAnalyzer [Samples.study_2020; Samples.study_2021] []
                  [("articles",
                    [(2021%Z, [Samples.study_2021]);
                     (2020%Z, [Samples.study_2020])])]).
Proof.
  split; [vm_compute; reflexivity |].
  split; [vm_compute; discriminate |].
  split; [vm_compute; discriminate |].
  vm_compute; reflexivity.
Qed.

(** ** Symmetry of the score *)

Lemma min1_compat (x y : Q) : (x == y)%Q -> (Py.min1 x == Py.min1 y)%Q.
Proof.
  intros Hxy; unfold Py.min1.
  destruct (Qle_bool 1 x) eqn:Ex, (Qle_bool 1 y) eqn:Ey;
    try reflexivity; try exact Hxy.
  - apply Qle_bool_iff in Ex. rewrite Hxy in Ex.
    apply Qle_bool_iff in Ex. congruence.
  - apply Qle_bool_iff in Ey. rewrite <- Hxy in Ey.
    apply Qle_bool_iff in Ey. congruence.
Qed.

Lemma bool_decide_sym {A : Type} `{EqDecision A} (x y : A) :
  bool_decide (x = y) = bool_decide (y = x).
Proof. apply bool_decide_ext; split; intros; congruence. Qed.

Lemma doi_rule_sym (a b : Citation) : doi_rule a b = doi_rule b a.
Proof.
  unfold doi_rule.
  rewrite (bool_decide_sym (doi a) (doi b)).
  rewrite (andb_comm (Py.truthy_str (doi a))). reflexivity.
Qed.

Lemma title_rule_sym (a b : Citation) : title_rule a b = title_rule b a.
Proof.
  unfold title_rule.
  rewrite (bool_decide_sym (year a) (year b)).
  rewrite (andb_comm (Py.truthy_str (title a))).
  rewrite (String.eqb_sym (_normalize_string (default "" (title a)))).
  reflexivity.
Qed.

Lemma similarity_score_rules (a b : Citation) :
  similarity_score a b
  = if doi_rule a b then 1%Q
    else if title_rule a b then (95 # 100)%Q
    else if Py.truthy_int (year a) && Py.truthy_int (year b)
            && bool_decide (year a = year b)
    then Py.min1 (Difflib.ratio (normalized_text a) (normalized_text b)
                  + (1 # 10))%Q
    else Difflib.ratio (normalized_text a) (normalized_text b).
Proof. reflexivity. Qed.

(** [C3] A pair settled by the DOI rule or by the title rule of
    [similarity_score] has the same score in both orders; a pair scored
    by the text rule has the same score in both orders whenever the
    [SequenceMatcher] ratio of the two normalized texts is the same in
    both orders. *)
Theorem similarity_score_symmetric_when_ratio_is (a b : Citation) :
  doi_rule a b = true \/ title_rule a b = true
  \/ (Difflib.ratio (normalized_text a) (normalized_text b)
      == Difflib.ratio (normalized_text b) (normalized_text a))%Q ->
  (similarity_score a b == similarity_score b a)%Q.
Proof.
  intros H. rewrite !similarity_score_rules.
  rewrite (doi_rule_sym b a), (title_rule_sym b a).
  rewrite (bool_decide_sym (year b) (year a)).
  rewrite (andb_comm (Py.truthy_int (year b)) (Py.truthy_int (year a))).
  destruct (doi_rule a b); [reflexivity |].
  destruct (title_rule a b); [reflexivity |].
  destruct H as [H | [H | Hratio]]; try discriminate.
  destruct (_ && _ && bool_decide (year a = year b)); [| exact Hratio].
  apply min1_compat. rewrite Hratio; reflexivity.
Qed.

Lemma similarity_score_symmetric_when_ratio_is_witness :
  (similarity_score Samples.nets Samples.net
   == similarity_score Samples.net Samples.nets)%Q.
Proof.
  apply (similarity_score_symmetric_when_ratio_is Samples.nets Samples.net).
  right; right. vm_compute; reflexivity.
Defined.

(** The citations [tide] and [diet]: 0.25 in one order, 0.5 in the
    other. *)
Lemma similarity_score_tide_diet :
  (similarity_score Samples.tide Samples.diet == 1 # 4)%Q
  /\ (similarity_score Samples.diet Samples.tide == 1 # 2)%Q
  /\ ~ (similarity_score Samples.tide Samples.diet
        == similarity_score Samples.diet Samples.tide)%Q.
Proof.
  split; [vm_compute; reflexivity |].
  split; [vm_compute; reflexivity |].
  vm_compute; discriminate.
Qed.

(** ** Dictionaries of lists *)

Section Dict.

Context {K V : Type}.
Variable eqb : K -> K -> bool.
Hypothesis eqb_eq : forall a b, eqb a b = true <-> a = b.

Lemma dict_append_holds (d : list (K * list V)) (k k' : K) (v x : V) :
  holds (dict_append eqb k v d) k' x
  <-> holds d k' x \/ (k' = k /\ x = v).
Proof.
  unfold holds; induction d as [| [k0 g0] d IH]; simpl.
  - split.
    + intros (g & [Heq | []] & Hin). inversion Heq; subst.
      destruct Hin as [-> | []]; auto.
    + intros [(g & [] & _) | [-> ->]].
      exists [v]; simpl; auto.
  - destruct (eqb k0 k) eqn:E.
    + apply eqb_eq in E; subst k0. split.
      * intros (g & [Heq | Hin] & Hx).
        -- inversion Heq; subst. apply in_app_iff in Hx as [Hx | Hx].
           ++ left; exists g0; simpl; auto.
           ++ destruct Hx as [-> | []]; auto.
        -- left; exists g; simpl; auto.
      * intros [(g & [Heq | Hin] & Hx) | [-> ->]].
        -- inversion Heq; subst. exists (g ++ [v]); split; [simpl; auto |].
           apply in_app_iff; auto.
        -- exists g; simpl; auto.
        -- exists (g0 ++ [v]); split; [simpl; auto |].
           apply in_app_iff; simpl; auto.
    + split.
      * intros (g & [Heq | Hin] & Hx).
        -- left; exists g; split; [left; exact Heq | exact Hx].
        -- destruct (proj1 IH (ex_intro _ g (conj Hin Hx)))
             as [(g' & Hg' & Hx') | Hnew]; [| right; exact Hnew].
           left; exists g'; split; [right; exact Hg' | exact Hx'].
      * intros [(g & [Heq | Hin] & Hx) | Hnew].
        -- exists g; split; [left; exact Heq | exact Hx].
        -- destruct (proj2 IH (or_introl (ex_intro _ g (conj Hin Hx))))
             as (g' & Hg' & Hx').
           exists g'; split; [right; exact Hg' | exact Hx'].
        -- destruct (proj2 IH (or_intror Hnew)) as (g' & Hg' & Hx').
           exists g'; split; [right; exact Hg' | exact Hx'].
Qed.

Lemma dict_append_key (d : list (K * list V)) (k k' : K) (v : V) :
  In k' (map fst (dict_append eqb k v d)) <-> In k' (map fst d) \/ k' = k.
Proof.
  induction d as [| [k0 g0] d IH]; simpl.
  - intuition congruence.
  - destruct (eqb k0 k) eqn:E; simpl.
    + apply eqb_eq in E; subst k0. intuition congruence.
    + rewrite IH. tauto.
Qed.

Lemma dict_append_NoDup (d : list (K * list V)) (k : K) (v : V) :
  List.NoDup (map fst d) -> List.NoDup (map fst (dict_append eqb k v d)).
Proof.
  induction d as [| [k0 g0] d IH]; simpl; intros Hnodup.
  - constructor; [simpl; tauto | constructor].
  - inversion Hnodup as [| ? ? Hnotin Hrest]; subst.
    destruct (eqb k0 k) eqn:E; simpl.
    + constructor; assumption.
    + constructor; [| apply IH; exact Hrest].
      rewrite dict_append_key. intros [Hin | ->]; [tauto |].
      assert (eqb k k = true) by (apply eqb_eq; reflexivity). congruence.
Qed.

End Dict.

(** Under distinct keys a key has one value. *)
Lemma assoc_unique {K V : Type} (d : list (K * V)) (k : K) (v1 v2 : V) :
  List.NoDup (map fst d) -> In (k, v1) d -> In (k, v2) d -> v1 = v2.
Proof.
  induction d as [| [k0 v0] d IH]; simpl; [tauto |].
  intros Hnodup H1 H2. inversion Hnodup as [| ? ? Hnotin Hrest]; subst.
  destruct H1 as [H1 | H1], H2 as [H2 | H2].
  - congruence.
  - inversion H1; subst. exfalso; apply Hnotin.
    apply (in_map fst) in H2; exact H2.
  - inversion H2; subst. exfalso; apply Hnotin.
    apply (in_map fst) in H1; exact H1.
  - apply IH; assumption.
Qed.

(** ** The fingerprint grouper *)

Lemma fingerprint_groups_fold (cs : list Citation)
    (d : list (string * list Citation)) (k : string) (x : Citation) :
  holds (fold_left (fun groups c =>
                      dict_append String.eqb (fingerprint c) c groups) cs d)
        k x
  <-> holds d k x \/ (In x cs /\ fingerprint x = k).
Proof.
  revert d; induction cs as [| c cs IH]; intros d; cbn [fold_left].
  - simpl; tauto.
  - rewrite IH, (dict_append_holds String.eqb String.eqb_eq). simpl.
    intuition (subst; auto).
Qed.

(** A citation is in the group of its fingerprint and in no other. *)
Lemma fingerprint_groups_holds (cs : list Citation) (k : string)
    (x : Citation) :
  holds (fingerprint_groups cs) k x <-> In x cs /\ fingerprint x = k.
Proof.
  unfold fingerprint_groups; rewrite fingerprint_groups_fold.
  unfold holds; simpl. split; [| tauto].
  intros [(g & [] & _) | H]; exact H.
Qed.

Lemma fingerprint_groups_NoDup (cs : list Citation) :
  List.NoDup (map fst (fingerprint_groups cs)).
Proof.
  unfold fingerprint_groups.
  assert (H : List.NoDup (map fst (@nil (string * list Citation))))
    by constructor.
  revert H; generalize (@nil (string * list Citation)).
  induction cs as [| c cs IH]; intros d Hd; cbn [fold_left]; [exact Hd |].
  apply IH, (dict_append_NoDup String.eqb String.eqb_eq); exact Hd.
Qed.

(** A non-empty group resolved under one of the three strategies keeps
    exactly one of its elements. *)
Lemma resolve_one_survivor (config : AnalysisConfig)
    (group : list Citation) :
  known_strategy (duplicate_strategy config) = true ->
  group <> [] ->
  exists survivor,
    fst (_resolve_duplicate_group config group) = [survivor]
    /\ In survivor group.
Proof.
  intros Hknown Hne.
  destruct group as [| first [| second others]]; [congruence | |].
  - exists first; simpl; auto.
  - set (group := first :: second :: others).
    apply known_strategy_cases in Hknown as [H | [H | H]];
      unfold _resolve_duplicate_group; rewrite H;
      cbn [String.eqb Ascii.eqb Bool.eqb].
    + exists first; simpl; auto.
    + exists (max_by_len first (second :: others)); split; [reflexivity |].
      apply max_by_len_in.
    + fold group.
      destruct (List.filter (fun c => Py.truthy_str (doi c)) group)
        as [| d ds] eqn:Hdoi.
      * exists (max_by_len first (second :: others)); split; [reflexivity |].
        apply max_by_len_in.
      * exists (max_by_len d ds); split; [reflexivity |].
        assert (Hin : In (max_by_len d ds)
                         (List.filter (fun c => Py.truthy_str (doi c)) group))
          by (rewrite Hdoi; apply max_by_len_in).
        apply filter_In in Hin; tauto.
Qed.

(** ** The matcher and the extracted DOI *)

Section Matcher.

Import Re.

Lemma star_loop_sound (r : re)
    (body : (state -> option result) -> state -> option result) :
  (forall k st res,
      body k st = Some res -> exists st', sem r st st' /\ k st' = Some res) ->
  forall k n st res,
    star_loop body k n st = Some res ->
    exists st', sem (Star r) st st' /\ k st' = Some res.
Proof.
  intros Hbody k n; induction n as [| n IHn]; intros st res; cbn [star_loop].
  - intros H; exists st; split; [constructor | exact H].
  - match goal with
    | |- context [body ?k' st] => destruct (body k' st) as [x |] eqn:E
    end.
    + intros [= <-]. apply Hbody in E as (m & Hm & Hk).
      destruct (pos st <? pos m); [| discriminate].
      apply IHn in Hk as (st' & Hs & Hk).
      exists st'; split; [econstructor; eassumption | exact Hk].
    + intros H; exists st; split; [constructor | exact H].
Qed.

Lemma lazy_loop_sound (r : re)
    (body : (state -> option result) -> state -> option result) :
  (forall k st res,
      body k st = Some res -> exists st', sem r st st' /\ k st' = Some res) ->
  forall k n st res,
    lazy_loop body k n st = Some res ->
    exists st', sem (StarLazy r) st st' /\ k st' = Some res.
Proof.
  intros Hbody k n; induction n as [| n IHn]; intros st res; cbn [lazy_loop].
  - destruct (k st) eqn:E; [| discriminate].
    intros [= <-]; exists st; split; [constructor | exact E].
  - destruct (k st) eqn:E.
    + intros [= <-]; exists st; split; [constructor | exact E].
    + intros H. apply Hbody in H as (m & Hm & Hk).
      destruct (pos st <? pos m); [| discriminate].
      apply IHn in Hk as (st' & Hs & Hk).
      exists st'; split; [econstructor; eassumption | exact Hk].
Qed.

Lemma run_sound (r : re) :
  forall k st res,
    run r k st = Some res -> exists st', sem r st st' /\ k st' = Some res.
Proof.
  induction r as [| p | r1 IH1 r2 IH2 | r1 IH1 r2 IH2 | r IH | r IH | r IH |];
    intros k st res; cbn [run].
  - intros H; exists st; split; [constructor | exact H].
  - destruct (rest st) as [| c s'] eqn:Hrest; [discriminate |].
    destruct (p c) eqn:Hp; [| discriminate].
    intros H; eexists; split; [econstructor; eassumption | exact H].
  - intros H. apply IH1 in H as (m & Hm & H).
    apply IH2 in H as (st' & Hst' & H).
    exists st'; split; [econstructor; eassumption | exact H].
  - destruct (run r1 k st) as [x |] eqn:E.
    + intros [= <-]. apply IH1 in E as (st' & Hs & Hk).
      exists st'; split; [apply sem_alt_l; exact Hs | exact Hk].
    + intros H. apply IH2 in H as (st' & Hs & Hk).
      exists st'; split; [apply sem_alt_r; exact Hs | exact Hk].
  - apply star_loop_sound; exact IH.
  - apply lazy_loop_sound; exact IH.
  - intros H. apply IH in H as (m & Hm & Hk).
    eexists; split; [apply sem_group; exact Hm | exact Hk].
  - destruct (xorb _ _) eqn:E; [| discriminate].
    intros H; exists st; split; [constructor; exact E | exact H].
Qed.

(** A match consumes a prefix of the remaining text. *)
Lemma sem_consumes (r : re) (st st' : state) :
  sem r st st' ->
  exists w, rest st = w ++ rest st' /\ pos st' = pos st + length w.
Proof.
  induction 1 as [st | p c s' st Hrest Hp | r1 r2 st m st' _ IH1 _ IH2
                 | r1 r2 st st' _ IH | r1 r2 st st' _ IH
                 | r st | r st m st' _ IH1 _ IH2
                 | r st | r st m st' _ IH1 _ IH2
                 | r st m _ IH | st Hb].
  - exists []; simpl; split; [reflexivity | lia].
  - exists [c]; simpl; split; [exact Hrest | lia].
  - destruct IH1 as (w1 & H1 & P1), IH2 as (w2 & H2 & P2).
    exists (w1 ++ w2); rewrite <- app_assoc, <- H2, H1, length_app.
    split; [reflexivity | lia].
  - exact IH.
  - exact IH.
  - exists []; simpl; split; [reflexivity | lia].
  - destruct IH1 as (w1 & H1 & P1), IH2 as (w2 & H2 & P2).
    exists (w1 ++ w2); rewrite <- app_assoc, <- H2, H1, length_app.
    split; [reflexivity | lia].
  - exists []; simpl; split; [reflexivity | lia].
  - destruct IH1 as (w1 & H1 & P1), IH2 as (w2 & H2 & P2).
    exists (w1 ++ w2); rewrite <- app_assoc, <- H2, H1, length_app.
    split; [reflexivity | lia].
  - exact IH.
  - exists []; simpl; split; [reflexivity | lia].
Qed.


(** The matcher is at index [pos st] of the text [s]. *)
Lemma sem_in_text (r : re) (st st' : state) (s : list ascii) :
  rest st = drop (pos st) s -> sem r st st' -> rest st' = drop (pos st') s.
Proof.
  intros Hst Hsem. apply sem_consumes in Hsem as (w & Hw & ->).
  rewrite <- drop_drop, <- Hst, Hw. rewrite drop_app_length. reflexivity.
Qed.

Lemma contains_lit_sem (c : ascii) (r : re) :
  contains_lit c r ->
  forall st st',
    sem r st st' ->
    exists w, rest st = w ++ rest st' /\ pos st' = pos st + length w
              /\ In c w.
Proof.
  induction 1 as [r2 | r1 r2 _ IH]; intros st st' Hsem;
    inversion Hsem as [| | ? ? ? m ? H1 H2 | | | | | | | |]; subst.
  - inversion H1 as [| ? c0 s' ? Hrest Hp | | | | | | | | |]; subst.
    apply Ascii.eqb_eq in Hp; subst c0.
    apply sem_consumes in H2 as (w2 & Hw2 & P2). cbn [rest pos] in *.
    exists (c :: w2); simpl. rewrite Hrest, Hw2.
    split; [reflexivity |]. split; [lia | auto].
  - apply sem_consumes in H1 as (w1 & Hw1 & P1).
    apply IH in H2 as (w2 & Hw2 & P2 & Hin).
    exists (w1 ++ w2). rewrite <- app_assoc, <- Hw2, Hw1, length_app.
    split; [reflexivity |]. split; [lia |]. apply in_app_iff; auto.
Qed.

Lemma ends_in_group_sem (body r : re) (s : list ascii) :
  ends_in_group body r ->
  forall st st',
    rest st = drop (pos st) s -> sem r st st' ->
    exists g m,
      sem body g m /\ grp st' = Some (pos g, pos m)
      /\ rest g = drop (pos g) s.
Proof.
  induction 1 as [| r1 r2 _ IH]; intros st st' Hst Hsem;
    inversion Hsem as [| | ? ? ? m ? H1 H2 | | | | | | | |]; subst.
  - inversion H2; subst.
    inversion H1 as [| | | | | | | | | ? ? m' Hbody |]; subst.
    exists st, m'. auto.
  - apply (IH m st'); [| exact H2].
    eapply sem_in_text; eassumption.
Qed.

(** Group 1 of a match of such a pattern contains the literal. *)
Lemma match_here_group (c : ascii) (body r : re) (s : list ascii)
    (p : option ascii) (i e : nat) (g : option (nat * nat)) :
  ends_in_group body r -> contains_lit c body ->
  match_here r p (drop i s) i = Some (e, g) ->
  exists gi gj, g = Some (gi, gj) /\ In c (take (gj - gi) (drop gi s)).
Proof.
  intros Hends Hlit Hmatch. unfold match_here in Hmatch.
  apply run_sound in Hmatch as (st' & Hsem & [= <- <-]).
  eapply ends_in_group_sem in Hsem as (g0 & m & Hbody & Hgrp & Hg0);
    [| exact Hends | reflexivity].
  apply (contains_lit_sem c body Hlit) in Hbody as (w & Hw & Hpos & Hin).
  exists (pos g0), (pos m). split; [exact Hgrp |].
  rewrite <- Hg0, Hw, Hpos.
  replace (pos g0 + length w - pos g0) with (length w) by lia.
  rewrite take_app_length. exact Hin.
Qed.

Lemma search_from_group (c : ascii) (body r : re) (s : list ascii) :
  ends_in_group body r -> contains_lit c body ->
  forall t i p start e g,
    t = drop i s ->
    search_from r p t i = Some (start, (e, g)) ->
    exists gi gj, g = Some (gi, gj) /\ In c (take (gj - gi) (drop gi s)).
Proof.
  intros Hends Hlit t; induction t as [| x t IH]; intros i p start e g Ht;
    cbn [search_from];
    destruct (match_here r p _ i) as [[e' g'] |] eqn:E;
    try discriminate.
  - intros [= <- <- <-]. rewrite Ht in E.
    eapply match_here_group; eassumption.
  - intros [= <- <- <-]. rewrite Ht in E.
    eapply match_here_group; eassumption.
  - apply IH.
    rewrite <- (Nat.add_1_r i), <- drop_drop, <- Ht. reflexivity.
Qed.

End Matcher.

Lemma search_group1_contains (c : ascii) (body r : Re.re) (text g : string) :
  Re.ends_in_group body r -> Re.contains_lit c body ->
  Re.search_group1 r text = Some g ->
  In c (list_ascii_of_string g).
Proof.
  intros Hends Hlit; unfold Re.search_group1.
  destruct (Re.search_from r None (list_ascii_of_string text) 0)
    as [[start [e grp]] |] eqn:E; [| discriminate].
  eapply (search_from_group c body r (list_ascii_of_string text))
    in E as (gi & gj & -> & Hin); [| assumption | assumption | reflexivity].
  intros [= <-]. unfold Re.slice.
  rewrite list_ascii_of_string_of_list_ascii. exact Hin.
Qed.

Lemma lstrip_list_keeps (p : ascii -> bool) (c : ascii) (l : list ascii) :
  In c l -> p c = false -> In c (Py.lstrip_list p l).
Proof.
  induction l as [| x l IH]; simpl; [tauto |].
  intros Hin Hp. destruct (p x) eqn:Hx; [| exact Hin].
  destruct Hin as [-> | Hin]; [congruence | auto].
Qed.

Lemma rstrip_list_keeps (p : ascii -> bool) (c : ascii) (l : list ascii) :
  In c l -> p c = false -> In c (Py.rstrip_list p l).
Proof.
  intros Hin Hp; unfold Py.rstrip_list.
  apply in_rev. rewrite rev_involutive.
  apply lstrip_list_keeps; [apply in_rev in Hin; exact Hin | exact Hp].
Qed.

Lemma doi_patterns_shape :
  Forall (fun r => exists body,
              Re.ends_in_group body r
              /\ Re.contains_lit "/"%char body)
         Patterns.doi_patterns.
Proof.
  unfold Patterns.doi_patterns, Patterns.doi_body.
  repeat apply List.Forall_cons; [| | | | apply List.Forall_nil];
    eexists; (split; [cbn [Re.seqs fold_right]; repeat constructor |]);
    cbn [Re.seqs fold_right].
  - apply Re.contains_later, Re.contains_here.
  - apply Re.contains_later, Re.contains_here.
  - apply Re.contains_later, Re.contains_here.
  - apply Re.contains_later, Re.contains_later, Re.contains_here.
Qed.

Lemma first_doi_nonempty (patterns : list Re.re) (text d : string) :
  Forall (fun r => exists body,
              Re.ends_in_group body r
              /\ Re.contains_lit "/"%char body) patterns ->
  first_doi patterns text = Some d -> d <> "".
Proof.
  induction 1 as [| r patterns (body & Hends & Hlit) _ IH]; simpl;
    [discriminate |].
  destruct (Re.search_group1 r text) as [g |] eqn:E; [| exact IH].
  intros [= <-].
  apply (search_group1_contains _ _ _ _ _ Hends Hlit) in E.
  apply (rstrip_list_keeps (Re.one_of ".,;)")) in E; [| reflexivity].
  unfold Py.lower, Py.rstrip.
  rewrite list_ascii_of_string_of_list_ascii.
  destruct (Py.rstrip_list _ _); [destruct E | discriminate].
Qed.

(** An extracted DOI is never the empty string: it contains the slash. *)
Lemma extract_doi_nonempty (text d : string) :
  _extract_doi text = Some d -> d <> "".
Proof. apply first_doi_nonempty, doi_patterns_shape. Qed.

Lemma fingerprint_of_doi (c : Citation) (d : string) :
  constructed c -> doi c = Some d ->
  fingerprint c = Md5.hexdigest ("doi:" ++ d).
Proof.
  intros (t & a & y & k & ->) Hdoi.
  unfold Citation_new in *. cbn [fingerprint doi] in *.
  pose proof (extract_doi_nonempty t d Hdoi) as Hne.
  unfold _generate_fingerprint. rewrite Hdoi. cbn [Py.truthy_str].
  apply String.eqb_neq in Hne. rewrite Hne. reflexivity.
Qed.

(** [C4] Two citations built by the constructor whose extracted DOI is
    present and the same have the same fingerprint, [md5("doi:" + doi)].
    If both are among the citations of a run they lie in one and the same
    fingerprint group, the only group under that key, and resolving that
    group under any of the three strategies keeps exactly one element of
    it. *)
Theorem same_doi_same_group_one_survivor (config : AnalysisConfig)
    (cs : list Citation) (x y : Citation) (d : string) :
  constructed x -> constructed y ->
  doi x = Some d -> doi y = Some d ->
  In x cs -> In y cs ->
  known_strategy (duplicate_strategy config) = true ->
  fingerprint x = Md5.hexdigest ("doi:" ++ d)
  /\ fingerprint y = fingerprint x
  /\ exists group,
      In (fingerprint x, group) (fingerprint_groups cs)
      /\ In x group /\ In y group
      /\ (forall group', In (fingerprint x, group') (fingerprint_groups cs) ->
                         group' = group)
      /\ exists survivor,
          fst (_resolve_duplicate_group config group) = [survivor]
          /\ In survivor group.
Proof.
  intros Hx Hy Hdx Hdy Hinx Hiny Hknown.
  assert (Hfx : fingerprint x = Md5.hexdigest ("doi:" ++ d))
    by (apply fingerprint_of_doi; assumption).
  assert (Hfy : fingerprint y = fingerprint x)
    by (rewrite Hfx; apply fingerprint_of_doi; assumption).
  split; [exact Hfx |]. split; [exact Hfy |].
  destruct (proj2 (fingerprint_groups_holds cs (fingerprint x) x))
    as (gx & Hgx & Hxin); [auto |].
  destruct (proj2 (fingerprint_groups_holds cs (fingerprint x) y))
    as (gy & Hgy & Hyin); [auto |].
  pose proof (fingerprint_groups_NoDup cs) as Hnodup.
  assert (gy = gx) by (eapply assoc_unique; eassumption); subst gy.
  exists gx. repeat split; try assumption.
  - intros g' Hg'. eapply assoc_unique; eassumption.
  - apply resolve_one_survivor; [exact Hknown |].
    intros ->; destruct Hxin.
Qed.

Lemma same_doi_same_group_one_survivor_witness :
  fingerprint Samples.with_doi
  = Md5.hexdigest ("doi:" ++ "10.1/abc").
Proof.
  refine (proj1 (same_doi_same_group_one_survivor Samples.keep_longest
           [Samples.with_doi; Samples.short; Samples.doi_again]
           Samples.with_doi Samples.doi_again "10.1/abc" _ _ _ _ _ _ _)).
  - exists "Kaya (2020) nets. doi:10.1/abc", "B", None, "articles".
    reflexivity.
  - exists "Kaya, M. Nets, 2020. https://doi.org/10.1/ABC.", "C", None,
      "articles".
    reflexivity.
  - vm_compute; reflexivity.
  - vm_compute; reflexivity.
  - left; reflexivity.
  - right; right; left; reflexivity.
  - reflexivity.
Defined.

(** ** [sorted(..., reverse=True)] *)

Section SortedDesc.

Context {W : Type}.

Lemma insert_desc_in (kv x : Z * W) (l : list (Z * W)) :
  In x (insert_desc kv l) <-> x = kv \/ In x l.
Proof.
  induction l as [| kv' l IH]; simpl; [intuition congruence |].
  destruct (fst kv' <? fst kv)%Z; simpl; [intuition congruence |].
  rewrite IH. intuition congruence.
Qed.

Lemma sorted_desc_fold_in (items acc : list (Z * W)) (x : Z * W) :
  In x (fold_left (fun acc kv => insert_desc kv acc) items acc)
  <-> In x items \/ In x acc.
Proof.
  revert acc; induction items as [| kv items IH]; intros acc;
    cbn [fold_left]; simpl; [tauto |].
  rewrite IH, insert_desc_in. intuition congruence.
Qed.

Lemma sorted_desc_in (items : list (Z * W)) (x : Z * W) :
  In x (sorted_desc items) <-> In x items.
Proof.
  unfold sorted_desc; rewrite sorted_desc_fold_in; simpl; tauto.
Qed.

Lemma insert_desc_sorted (kv : Z * W) (l : list (Z * W)) :
  StronglySorted Z.gt (map fst l) ->
  ~ In (fst kv) (map fst l) ->
  StronglySorted Z.gt (map fst (insert_desc kv l)).
Proof.
  induction l as [| kv' l IH]; simpl; intros Hsorted Hnotin.
  - constructor; constructor.
  - inversion Hsorted as [| ? ? Hrest Hall]; subst.
    destruct (fst kv' <? fst kv)%Z eqn:E; simpl.
    + apply Z.ltb_lt in E.
      constructor; [exact Hsorted |].
      constructor; [lia |].
      eapply Forall_impl; [exact Hall |]. simpl; intros; lia.
    + apply Z.ltb_ge in E.
      constructor; [apply IH; tauto |].
      apply List.Forall_forall; intros k Hk.
      apply in_map_iff in Hk as (x & <- & Hx).
      apply insert_desc_in in Hx as [-> | Hx].
      * assert (fst kv' <> fst kv) by tauto. lia.
      * rewrite List.Forall_forall in Hall.
        apply Hall, in_map; exact Hx.
Qed.

Lemma sorted_desc_fold_sorted (items acc : list (Z * W)) :
  StronglySorted Z.gt (map fst acc) ->
  List.NoDup (map fst items) ->
  (forall k, In k (map fst items) -> ~ In k (map fst acc)) ->
  StronglySorted Z.gt
    (map fst (fold_left (fun acc kv => insert_desc kv acc) items acc)).
Proof.
  revert acc; induction items as [| kv items IH]; intros acc Hacc Hnodup
    Hfresh; cbn [fold_left]; [exact Hacc |].
  simpl in Hnodup; inversion Hnodup as [| ? ? Hnotin Hrest]; subst.
  apply IH; [| exact Hrest |].
  - apply insert_desc_sorted; [exact Hacc |].
    apply Hfresh; simpl; auto.
  - intros k Hk Hin.
    apply in_map_iff in Hin as (x & <- & Hx).
    apply insert_desc_in in Hx as [-> | Hx]; [tauto |].
    apply (Hfresh (fst x)); [simpl; auto | apply in_map; exact Hx].
Qed.

(** Distinct keys come out in strictly descending order. *)
Lemma sorted_desc_sorted (items : list (Z * W)) :
  List.NoDup (map fst items) ->
  StronglySorted Z.gt (map fst (sorted_desc items)).
Proof.
  intros Hnodup; unfold sorted_desc.
  apply sorted_desc_fold_sorted; [constructor | exact Hnodup |].
  simpl; tauto.
Qed.

End SortedDesc.

(** ** The organizer *)

Section Organizer.

Context {V : Type}.

Lemma bucket_nil (category : string) (y : Z) (c : V) :
  bucket [] category y c <-> False.
Proof. unfold bucket; simpl; split; [intros (? & [] & _) | tauto]. Qed.

Lemma bucket_cons (k : string) (years : list (Z * list V))
    (d : list (string * list (Z * list V))) (category : string) (y : Z)
    (c : V) :
  bucket ((k, years) :: d) category y c
  <-> (k = category /\ holds years y c) \/ bucket d category y c.
Proof.
  unfold bucket; simpl; split.
  - intros (ys & [Heq | Hin] & Hholds).
    + inversion Heq; subst; auto.
    + right; exists ys; auto.
  - intros [[-> Hholds] | (ys & Hin & Hholds)].
    + exists years; auto.
    + exists ys; auto.
Qed.

Lemma organized_append_bucket (d : list (string * list (Z * list V)))
    (category category' : string) (y y' : Z) (c c' : V) :
  bucket (organized_append category y c d) category' y' c'
  <-> bucket d category' y' c'
      \/ (category' = category /\ y' = y /\ c' = c).
Proof.
  induction d as [| [k years] d IH]; cbn [organized_append].
  - rewrite bucket_cons, !bucket_nil.
    unfold holds; simpl. split.
    + intros [[-> (g & [Heq | []] & Hin)] | []].
      inversion Heq; subst. destruct Hin as [-> | []]; auto.
    + intros [[] | (-> & -> & ->)].
      left; split; [reflexivity |]. exists [c]; simpl; auto.
  - destruct (String.eqb k category) eqn:E.
    + apply String.eqb_eq in E; subst k.
      rewrite !bucket_cons, (dict_append_holds Z.eqb Z.eqb_eq).
      intuition (subst; auto).
    + rewrite !bucket_cons, IH. tauto.
Qed.

Lemma organized_append_key (d : list (string * list (Z * list V)))
    (category k : string) (y : Z) (c : V) :
  In k (map fst (organized_append category y c d))
  <-> In k (map fst d) \/ k = category.
Proof.
  induction d as [| [k0 years] d IH]; cbn [organized_append]; simpl.
  - intuition congruence.
  - destruct (String.eqb k0 category) eqn:E; simpl.
    + apply String.eqb_eq in E; subst k0. intuition congruence.
    + rewrite IH. tauto.
Qed.

Lemma organized_append_well_keyed (d : list (string * list (Z * list V)))
    (category : string) (y : Z) (c : V) :
  well_keyed d -> well_keyed (organized_append category y c d).
Proof.
  unfold well_keyed.
  induction d as [| [k years] d IH]; cbn [organized_append];
    intros [Hcats Hyears].
  - split.
    + simpl; constructor; [simpl; tauto | constructor].
    + constructor; [| constructor].
      unfold year_keys; simpl; constructor; [simpl; tauto | constructor].
  - simpl in Hcats.
    inversion Hcats as [| ? ? Hnotin Hrest]; subst.
    inversion Hyears as [| ? ? Hk Hd]; subst.
    destruct (String.eqb k category) eqn:E.
    + split; [simpl; constructor; assumption |].
      constructor; [| exact Hd].
      apply (dict_append_NoDup Z.eqb Z.eqb_eq); exact Hk.
    + destruct (IH (conj Hrest Hd)) as [IHcats IHyears].
      split; [| constructor; assumption].
      simpl; constructor; [| exact IHcats].
      rewrite organized_append_key. intros [Hin | ->]; [tauto |].
      rewrite String.eqb_refl in E; discriminate.
Qed.

Lemma sort_years_bucket (d : list (string * list (Z * list V)))
    (category : string) (y : Z) (c : V) :
  bucket (sort_years d) category y c <-> bucket d category y c.
Proof.
  induction d as [| [k years] d IH]; simpl; [reflexivity |].
  rewrite !bucket_cons, IH. unfold holds.
  assert (H : (exists g, In (y, g) (sorted_desc years) /\ In c g)
              <-> (exists g, In (y, g) years /\ In c g)).
  { split; intros (g & Hg & Hc); exists g; split; try exact Hc;
      apply sorted_desc_in; exact Hg. }
  rewrite H; reflexivity.
Qed.

Lemma sort_years_keys (d : list (string * list (Z * list V))) :
  map fst (sort_years d) = map fst d.
Proof.
  induction d as [| [k years] d IH]; simpl; [| rewrite IH]; reflexivity.
Qed.

Lemma sort_years_sorted (d : list (string * list (Z * list V)))
    (category : string) (years : list (Z * list V)) :
  well_keyed d -> In (category, years) (sort_years d) ->
  StronglySorted Z.gt (year_keys years).
Proof.
  intros [_ Hyears] Hin. unfold sort_years in Hin.
  apply in_map_iff in Hin as ([k ys] & Heq & Hin).
  inversion Heq; subst.
  apply sorted_desc_sorted.
  rewrite List.Forall_forall in Hyears. apply (Hyears _ Hin).
Qed.

End Organizer.

Lemma well_keyed_nil {V : Type} :
  well_keyed (@nil (string * list (Z * list V))).
Proof. split; constructor. Qed.

Lemma organize_step_bucket (d : Organized) (x : Citation)
    (cat : string) (y : Z) (c : Citation) :
  bucket (organize_step d x) cat y c
  <-> bucket d cat y c
      \/ (c = x /\ cat = category x /\ year x = Some y
          /\ y <> 0%Z).
Proof.
  unfold organize_step.
  destruct (year x) as [yx |] eqn:Hyear; simpl.
  - destruct (yx =? 0)%Z eqn:E; simpl.
    + apply Z.eqb_eq in E. intuition congruence.
    + apply Z.eqb_neq in E. rewrite organized_append_bucket.
      intuition congruence.
  - intuition congruence.
Qed.

Lemma organize_fold_bucket (cs : list Citation) (d : Organized)
    (cat : string) (y : Z) (c : Citation) :
  bucket (fold_left organize_step cs d) cat y c
  <-> bucket d cat y c
      \/ (In c cs /\ category c = cat /\ year c = Some y
          /\ y <> 0%Z).
Proof.
  revert d; induction cs as [| x cs IH]; intros d; cbn [fold_left].
  - simpl; tauto.
  - rewrite IH, organize_step_bucket. simpl.
    intuition (subst; auto).
Qed.

Lemma organize_fold_well_keyed (cs : list Citation) (d : Organized) :
  well_keyed d -> well_keyed (fold_left organize_step cs d).
Proof.
  revert d; induction cs as [| x cs IH]; intros d Hd; cbn [fold_left];
    [exact Hd |].
  apply IH. unfold organize_step.
  destruct (year x); [| exact Hd].
  destruct (Py.truthy_int _); [| exact Hd].
  apply organized_append_well_keyed; exact Hd.
Qed.

Lemma legacy_fold_well_keyed (faculty_data : list Faculty)
    (d : list (string * list (Z * list citation_analyzer.Entry))) :
  well_keyed d ->
  well_keyed (fold_left citation_analyzer.add_faculty faculty_data d).
Proof.
  revert d; induction faculty_data as [| f fs IH]; intros d Hd;
    cbn [fold_left]; [exact Hd |].
  apply IH. unfold citation_analyzer.add_faculty.
  destruct (faculty_citations f) as [by_category |]; [| exact Hd].
  revert d Hd; induction by_category as [| [category texts] rest IHc];
    intros d Hd; cbn [fold_left]; [exact Hd |].
  apply IHc.
  revert d Hd; induction texts as [| t texts IHt]; intros d Hd;
    cbn [fold_left]; [exact Hd |].
  apply IHt. unfold citation_analyzer.add_citation.
  destruct (citation_analyzer.extract_year t); [| exact Hd].
  destruct (Py.truthy_int _); [| exact Hd].
  apply organized_append_well_keyed; exact Hd.
Qed.

(** [C9] [_organize_citations] files a citation under its category and
    its year exactly when the citation is in the list and its year is
    present (and not zero); a citation without a year is in no bucket.
    Each category occurs once, and the year keys of each category are in
    strictly descending order; three citations of one category with the
    years 2019, 2022 and 2020 give the key order 2022, 2020, 2019.  The
    year keys built by [_parse_citations] of [citation_analyzer.py] are in
    strictly descending order as well.  The structure kept by a
    de-duplication run is the organizer's result on the final list of
    citations. *)
Theorem organizer_groups_and_orders (cs : list Citation) :
  (forall cat y c,
      bucket (_organize_citations cs) cat y c
      <-> In c cs /\ category c = cat /\ year c = Some y /\ y <> 0%Z)
  /\ (forall c, year c = None ->
                forall cat y, ~ bucket (_organize_citations cs) cat y c)
  /\ List.NoDup (map fst (_organize_citations cs))
  /\ (forall cat years,
         In (cat, years) (_organize_citations cs) ->
         StronglySorted Z.gt (year_keys years))
  /\ (forall a b c cat,
         category a = cat -> category b = cat -> category c = cat ->
         year a = Some 2019%Z -> year b = Some 2022%Z ->
         year c = Some 2020%Z ->
         _organize_citations [a; b; c]
         = [(cat, [(2022%Z, [b]); (2020%Z, [c]); (2019%Z, [a])])])
  /\ (forall faculty_data cat years,
         In (cat, years) (citation_analyzer.parse_citations faculty_data) ->
         StronglySorted Z.gt (year_keys years))
  /\ (forall config self,
         organized_data (_remove_duplicates config self)
         = _organize_citations (citations (_remove_duplicates config self))).
Proof.
  assert (Hbucket : forall cat y c,
             bucket (_organize_citations cs) cat y c
             <-> In c cs /\ category c = cat /\ year c = Some y /\ y <> 0%Z).
  { intros cat y c. unfold _organize_citations.
    rewrite sort_years_bucket, organize_fold_bucket, bucket_nil. tauto. }
  split; [exact Hbucket |].
  split.
  { intros c Hnone cat y Hb. apply Hbucket in Hb.
    destruct Hb as (_ & _ & H & _).
    congruence. }
  split.
  { unfold _organize_citations. rewrite sort_years_keys.
    apply (organize_fold_well_keyed cs []), well_keyed_nil. }
  split.
  { intros cat years. unfold _organize_citations.
    apply sort_years_sorted, organize_fold_well_keyed, well_keyed_nil. }
  split.
  { intros a b c cat Ha Hb Hc Hya Hyb Hyc.
    unfold _organize_citations; cbn [fold_left]; unfold organize_step.
    rewrite Hya, Hyb, Hyc, Ha, Hb, Hc.
    cbn [Py.truthy_int Z.eqb negb organized_append].
    rewrite String.eqb_refl; cbn [organized_append dict_append Z.eqb
                                  Pos.eqb].
    rewrite String.eqb_refl; reflexivity. }
  split.
  { intros faculty_data cat years.
    unfold citation_analyzer.parse_citations.
    apply sort_years_sorted, legacy_fold_well_keyed, well_keyed_nil. }
  intros config self. unfold _remove_duplicates.
  destruct (resolve_groups config _ _) as [survivors removed].
  destruct (negb _); [| reflexivity].
  destruct (_remove_similar_duplicates config survivors removed); reflexivity.
Qed.

Lemma organizer_groups_and_orders_witness :
  _organize_citations
    [Samples.year_2019; Samples.year_2022; Samples.year_2020]
  = [("articles",
      [(2022%Z, [Samples.year_2022]); (2020%Z, [Samples.year_2020]);
       (2019%Z, [Samples.year_2019])])].
Proof.
  refine (proj1 (proj2 (proj2 (proj2 (proj2
            (organizer_groups_and_orders [])))))
            Samples.year_2019 Samples.year_2022 Samples.year_2020
            "articles" _ _ _ _ _ _);
    vm_compute; reflexivity.
Defined.

(* ================================================================== *)
(** * Further properties *)

(** ** The fingerprint grouper as a partition *)

Section Grouping.

Context {K V : Type}.
Variable eqb : K -> K -> bool.
Hypothesis eqb_eq : forall a b, eqb a b = true <-> a = b.
Variable key : V -> K.

Lemma eqb_false (a b : K) : a <> b -> eqb a b = false.
Proof.
  intros Hne; destruct (eqb a b) eqn:E; [| reflexivity].
  apply eqb_eq in E; contradiction.
Qed.

(** Where an entry of the dictionary comes from after an append. *)
Lemma dict_append_entry (d : list (K * list V)) (k k' : K) (v : V)
    (g' : list V) :
  List.NoDup (map fst d) ->
  In (k', g') (dict_append eqb k v d) ->
  (k' <> k /\ In (k', g') d)
  \/ (k' = k
      /\ ((exists g, In (k, g) d /\ g' = g ++ [v])
          \/ (~ In k (map fst d) /\ g' = [v]))).
Proof.
  induction d as [| [k0 g0] d IH]; simpl; intros Hnodup Hin.
  - destruct Hin as [[= <- <-] | []]. right; split; [reflexivity |].
    right; tauto.
  - inversion Hnodup as [| ? ? Hnotin Hrest]; subst.
    destruct (eqb k0 k) eqn:E.
    + apply eqb_eq in E; subst k0.
      destruct Hin as [[= <- <-] | Hin].
      * right; split; [reflexivity |]. left; exists g0; auto.
      * left; split; [| right; exact Hin].
        intros ->. apply Hnotin. apply (in_map fst) in Hin; exact Hin.
    + assert (Hne : k0 <> k)
        by (intros ->; rewrite (proj2 (eqb_eq k k) eq_refl) in E;
            discriminate).
      destruct Hin as [[= <- <-] | Hin].
      * left; split; [exact Hne | left; reflexivity].
      * destruct (IH Hrest Hin) as [[Hk Hd] | [-> [(g & Hg & ->) | [Hk ->]]]].
        -- left; split; [exact Hk | right; exact Hd].
        -- right; split; [reflexivity |]. left; exists g; auto.
        -- right; split; [reflexivity |]. right; split; [| reflexivity].
           intros [Heq | Hin']; [congruence | contradiction].
Qed.

Lemma grouped_step (d : list (K * list V)) (p : list V) (v : V) :
  grouped eqb key d p ->
  grouped eqb key (dict_append eqb (key v) v d) (p ++ [v]).
Proof.
  intros (Hnodup & Hkeys & Hgroups). split; [| split].
  - apply (dict_append_NoDup eqb eqb_eq); exact Hnodup.
  - intros x Hx. apply (dict_append_key eqb eqb_eq).
    apply in_app_iff in Hx as [Hx | [<- | []]]; auto.
  - intros k g Hin. rewrite List.filter_app. simpl.
    apply dict_append_entry in Hin
        as [[Hk Hd] | [-> [(g0 & Hg0 & ->) | [Hk ->]]]]; [| | | exact Hnodup].
    + destruct (Hgroups k g Hd) as [Hne Hg].
      rewrite (eqb_false (key v) k) by congruence.
      rewrite app_nil_r. auto.
    + destruct (Hgroups _ g0 Hg0) as [Hne Hg].
      rewrite (proj2 (eqb_eq _ _) eq_refl), <- Hg.
      split; [destruct g0; discriminate | reflexivity].
    + rewrite (proj2 (eqb_eq _ _) eq_refl).
      split; [discriminate |].
      assert (Hnone : List.filter (fun x => eqb (key x) (key v)) p = []).
      { destruct (List.filter _ p) as [| x l] eqn:E; [reflexivity |].
        assert (Hx : In x (List.filter (fun x => eqb (key x) (key v)) p))
          by (rewrite E; left; reflexivity).
        apply filter_In in Hx as [Hx Hkx]. apply eqb_eq in Hkx.
        exfalso; apply Hk. rewrite <- Hkx. apply Hkeys; exact Hx. }
      rewrite Hnone; reflexivity.
Qed.

Lemma grouped_fold (cs : list V) (d : list (K * list V)) (p : list V) :
  grouped eqb key d p ->
  grouped eqb key (fold_left (fun d c => dict_append eqb (key c) c d) cs d)
          (p ++ cs).
Proof.
  revert d p; induction cs as [| c cs IH]; intros d p H; cbn [fold_left].
  - rewrite app_nil_r; exact H.
  - replace (p ++ c :: cs) with ((p ++ [c]) ++ cs)
      by (rewrite <- app_assoc; reflexivity).
    apply IH, grouped_step; exact H.
Qed.

(** The lists of the dictionary hold as many elements as were added. *)
Lemma dict_append_total (d : list (K * list V)) (k : K) (v : V) :
  length (concat (map snd (dict_append eqb k v d)))
  = S (length (concat (map snd d))).
Proof.
  induction d as [| [k0 g0] d IH]; simpl; [reflexivity |].
  destruct (eqb k0 k); simpl; rewrite !length_app; simpl; [lia |].
  rewrite IH; lia.
Qed.

End Grouping.

Lemma fingerprint_groups_grouped (cs : list Citation) :
  grouped String.eqb fingerprint (fingerprint_groups cs) cs.
Proof.
  unfold fingerprint_groups.
  apply (grouped_fold String.eqb String.eqb_eq fingerprint cs [] []).
  split; [constructor |]. split; intros; simpl in *; tauto.
Qed.

Lemma fingerprint_groups_total (cs : list Citation) :
  length (concat (map snd (fingerprint_groups cs))) = length cs.
Proof.
  unfold fingerprint_groups.
  assert (H : forall d,
             length (concat (map snd
               (fold_left (fun groups c =>
                             dict_append String.eqb (fingerprint c) c groups)
                          cs d)))
             = length cs + length (concat (map snd d))).
  { induction cs as [| c cs IH]; intros d; cbn [fold_left]; [reflexivity |].
    rewrite IH, dict_append_total; simpl; lia. }
  rewrite H; simpl; lia.
Qed.

(** [X1] The fingerprint groups partition the citations: the keys are distinct,
    every citation has its fingerprint among them, each group is not empty
    and is the list of the citations with its fingerprint in their input
    order, and the groups together hold as many citations as the input. *)
Theorem fingerprint_groups_partition (cs : list Citation) :
  List.NoDup (map fst (fingerprint_groups cs))
  /\ (forall c, In c cs ->
                In (fingerprint c) (map fst (fingerprint_groups cs)))
  /\ (forall k group,
         In (k, group) (fingerprint_groups cs) ->
         group <> [] /\ group = with_fingerprint k cs)
  /\ length (concat (map snd (fingerprint_groups cs))) = length cs.
Proof.
  destruct (fingerprint_groups_grouped cs) as (Hnodup & Hkeys & Hgroups).
  split; [exact Hnodup |]. split; [exact Hkeys |].
  split; [exact Hgroups | apply fingerprint_groups_total].
Qed.

Lemma fingerprint_groups_partition_witness :
  In (fingerprint Samples.diet)
     (map fst (fingerprint_groups [Samples.tide; Samples.diet])).
Proof.
  refine (proj1 (proj2 (fingerprint_groups_partition
                          [Samples.tide; Samples.diet])) Samples.diet _).
  right; left; reflexivity.
Defined.

(** ** The group resolver, member by member *)

Lemma pairs_against_in (kept : Citation) (group : list Citation)
    (p : DuplicatePair) :
  In p (pairs_against kept group)
  <-> fst p = kept /\ In (snd p) group /\ snd p <> kept.
Proof.
  unfold pairs_against. rewrite in_map_iff. split.
  - intros (dup & <- & Hin). apply filter_In in Hin as [Hin Hne].
    apply negb_true_iff, bool_decide_eq_false in Hne. simpl; auto.
  - intros (Hk & Hin & Hne). exists (snd p). split.
    + destruct p; simpl in *; congruence.
    + apply filter_In; split; [exact Hin |].
      apply negb_true_iff, bool_decide_eq_false; exact Hne.
Qed.

(** [X2] The survivor of a group of two or more under one of the three
    strategies is an element of the group; every ledger pair of the group
    joins the survivor to an element of the group; and every element of the
    group is equal to the survivor or recorded against it. *)
Theorem group_resolution_accounts_for_members (config : AnalysisConfig)
    (group : list Citation) :
  known_strategy (duplicate_strategy config) = true ->
  2 <= length group ->
  exists survivor,
    fst (_resolve_duplicate_group config group) = [survivor]
    /\ In survivor group
    /\ (forall p, In p (snd (_resolve_duplicate_group config group)) ->
                  fst p = survivor /\ In (snd p) group)
    /\ (forall x, In x group ->
                  x = survivor
                  \/ In (survivor, x)
                        (snd (_resolve_duplicate_group config group))).
Proof.
  intros Hknown Hlen.
  destruct group as [| first [| second others]]; simpl in Hlen; try lia.
  set (group := first :: second :: others).
  assert (Hgen : forall survivor,
             In survivor group ->
             (forall p, In p (pairs_against survivor group) ->
                        fst p = survivor /\ In (snd p) group)
             /\ (forall x, In x group ->
                           x = survivor
                           \/ In (survivor, x) (pairs_against survivor group))).
  { intros survivor _. split.
    - intros p Hp. apply pairs_against_in in Hp. tauto.
    - intros x Hx. destruct (Citation_eq_dec x survivor) as [-> | Hne];
        [left; reflexivity | right].
      apply pairs_against_in; simpl; auto. }
  apply known_strategy_cases in Hknown as [H | [H | H]];
    unfold _resolve_duplicate_group; rewrite H;
    cbn [String.eqb Ascii.eqb Bool.eqb]; fold group.
  - exists first. cbn [fst snd].
    split; [reflexivity |]. split; [left; reflexivity |]. split.
    + intros p Hp. apply in_map_iff in Hp as (dup & <- & Hdup).
      simpl; split; [reflexivity | right; exact Hdup].
    + intros x [<- | Hx]; [left; reflexivity | right].
      apply in_map_iff; exists x; auto.
  - exists (max_by_len first (second :: others)). cbn [fst snd].
    pose proof (max_by_len_in first (second :: others)) as Hin.
    split; [reflexivity |]. split; [exact Hin |]. apply Hgen; exact Hin.
  - destruct (List.filter (fun c => Py.truthy_str (doi c)) group)
      as [| d ds] eqn:Hdoi.
    + exists (max_by_len first (second :: others)). cbn [fst snd].
      pose proof (max_by_len_in first (second :: others)) as Hin.
      split; [reflexivity |]. split; [exact Hin |]. apply Hgen; exact Hin.
    + exists (max_by_len d ds). cbn [fst snd].
      assert (Hin : In (max_by_len d ds) group).
      { assert (H' : In (max_by_len d ds)
                        (List.filter (fun c => Py.truthy_str (doi c)) group))
          by (rewrite Hdoi; apply max_by_len_in).
        apply filter_In in H'; tauto. }
      split; [reflexivity |]. split; [exact Hin |]. apply Hgen; exact Hin.
Qed.

Lemma group_resolution_accounts_for_members_witness :
  exists survivor,
    fst (_resolve_duplicate_group Samples.keep_longest
           [Samples.short; Samples.long]) = [survivor]
    /\ In survivor [Samples.short; Samples.long].
Proof.
  destruct (group_resolution_accounts_for_members Samples.keep_longest
              [Samples.short; Samples.long])
    as (survivor & Hkept & Hin & _).
  - reflexivity.
  - simpl; lia.
  - exists survivor; split; assumption.
Defined.

(** [max]: the first element of greatest length. *)
Lemma max_by_len_first (cs : list Citation) :
  forall best before between,
    Forall (fun x => text_len x < text_len best) before ->
    Forall (fun x => text_len x <= text_len best) between ->
    exists pre post,
      before ++ best :: between ++ cs = pre ++ max_by_len best cs :: post
      /\ Forall (fun x => text_len x < text_len (max_by_len best cs)) pre
      /\ Forall (fun x => text_len x <= text_len (max_by_len best cs)) post.
Proof.
  induction cs as [| c cs IH]; intros best before between Hbefore Hbetween.
  - exists before, between. rewrite app_nil_r. simpl; auto.
  - simpl. destruct (text_len best <? text_len c) eqn:E.
    + apply Nat.ltb_lt in E.
      destruct (IH c (before ++ best :: between) []) as (pre & post & Heq & H).
      * apply Forall_app; split.
        -- eapply Forall_impl; [exact Hbefore |]. simpl; intros; lia.
        -- constructor; [exact E |].
           eapply Forall_impl; [exact Hbetween |]. simpl; intros; lia.
      * constructor.
      * exists pre, post. split; [| exact H].
        rewrite <- Heq. rewrite <- !app_assoc. reflexivity.
    + apply Nat.ltb_ge in E.
      destruct (IH best before (between ++ [c])) as (pre & post & Heq & H).
      * exact Hbefore.
      * apply Forall_app; split; [exact Hbetween |].
        constructor; [exact E | constructor].
      * exists pre, post. split; [| exact H].
        rewrite <- Heq. rewrite <- !app_assoc. reflexivity.
Qed.

(** [X3] Under [keep_longest] the survivor of a group of two or more is the
    first element of greatest text length: every element before it is
    strictly shorter and no element after it is longer. *)
Theorem keep_longest_keeps_first_longest (config : AnalysisConfig)
    (group : list Citation) :
  duplicate_strategy config = "keep_longest" ->
  2 <= length group ->
  exists pre survivor post,
    group = pre ++ survivor :: post
    /\ fst (_resolve_duplicate_group config group) = [survivor]
    /\ Forall (fun x => text_len x < text_len survivor) pre
    /\ Forall (fun x => text_len x <= text_len survivor) post.
Proof.
  intros Hstrategy Hlen.
  destruct group as [| first [| second others]]; simpl in Hlen; try lia.
  destruct (max_by_len_first (second :: others) first [] [])
    as (pre & post & Heq & Hpre & Hpost); [constructor | constructor |].
  exists pre, (max_by_len first (second :: others)), post.
  split; [exact Heq |]. split; [| split; assumption].
  unfold _resolve_duplicate_group; rewrite Hstrategy. reflexivity.
Qed.

Lemma keep_longest_keeps_first_longest_witness :
  exists pre survivor post,
    [Samples.short; Samples.long; Samples.long] = pre ++ survivor :: post
    /\ fst (_resolve_duplicate_group Samples.keep_longest
              [Samples.short; Samples.long; Samples.long]) = [survivor].
Proof.
  destruct (keep_longest_keeps_first_longest Samples.keep_longest
              [Samples.short; Samples.long; Samples.long])
    as (pre & survivor & post & Heq & Hkept & _).
  - reflexivity.
  - simpl; lia.
  - exists pre, survivor, post; split; assumption.
Defined.

(** ** The de-duplication run as a whole *)

Lemma list_remove_in (u x : Citation) (l : list Citation) :
  In x (list_remove u l) -> In x l.
Proof.
  induction l as [| y l IH]; simpl; [tauto |].
  destruct (bool_decide (y = u)); simpl; tauto.
Qed.

(** Whatever the configuration, what a group keeps and what it records
    are elements of the group. *)
Lemma resolve_group_members (config : AnalysisConfig)
    (group : list Citation) :
  (forall x, In x (fst (_resolve_duplicate_group config group)) ->
             In x group)
  /\ (forall p, In p (snd (_resolve_duplicate_group config group)) ->
                In (fst p) group /\ In (snd p) group).
Proof.
  destruct group as [| first [| second others]];
    [simpl; tauto | simpl; tauto |].
  set (group := first :: second :: others).
  assert (Hgen : forall survivor,
             In survivor group ->
             (forall x, In x [survivor] -> In x group)
             /\ (forall p, In p (pairs_against survivor group) ->
                           In (fst p) group /\ In (snd p) group)).
  { intros survivor Hs. split.
    - intros x [<- | []]; exact Hs.
    - intros p Hp. apply pairs_against_in in Hp as (-> & Hin & _). auto. }
  unfold _resolve_duplicate_group.
  destruct (String.eqb (duplicate_strategy config) "keep_first").
  { cbn [fst snd]. split.
    - intros x [<- | []]; left; reflexivity.
    - intros p Hp. apply in_map_iff in Hp as (dup & <- & Hdup).
      simpl; split; [left; reflexivity | right; exact Hdup]. }
  destruct (String.eqb (duplicate_strategy config) "keep_longest").
  { apply Hgen, max_by_len_in. }
  destruct (String.eqb (duplicate_strategy config) "keep_most_complete");
    [| simpl; tauto].
  fold group.
  destruct (List.filter (fun c => Py.truthy_str (doi c)) group)
    as [| d ds] eqn:Hdoi; cbn [fst snd].
  - apply Hgen, max_by_len_in.
  - apply Hgen.
    assert (H' : In (max_by_len d ds)
                    (List.filter (fun c => Py.truthy_str (doi c)) group))
      by (rewrite Hdoi; apply max_by_len_in).
    apply filter_In in H'; tauto.
Qed.

Lemma resolve_step_members (config : AnalysisConfig)
    (st : list Citation * list DuplicatePair)
    (entry : string * list Citation) :
  (forall x, In x (fst (resolve_step config st entry)) ->
             In x (fst st) \/ In x (snd entry))
  /\ (forall p, In p (snd (resolve_step config st entry)) ->
                In p (snd st)
                \/ (In (fst p) (snd entry) /\ In (snd p) (snd entry))).
Proof.
  destruct st as [uniq removed]; unfold resolve_step.
  destruct (length (snd entry) =? 1); cbn [fst snd].
  - split; [intros x Hx; apply in_app_iff in Hx; exact Hx | tauto].
  - destruct (resolve_group_members config (snd entry)) as [Hk Hp].
    destruct (_resolve_duplicate_group config (snd entry)) as [kept pairs].
    cbn [fst snd] in *. split.
    + intros x Hx; apply in_app_iff in Hx as [Hx | Hx]; auto.
    + intros p Hin; apply in_app_iff in Hin as [Hin | Hin]; auto.
Qed.

Lemma resolve_groups_members (config : AnalysisConfig)
    (groups : list (string * list Citation))
    (st : list Citation * list DuplicatePair) :
  (forall x, In x (fst (fold_left (resolve_step config) groups st)) ->
             In x (fst st) \/ exists e, In e groups /\ In x (snd e))
  /\ (forall p, In p (snd (fold_left (resolve_step config) groups st)) ->
                In p (snd st)
                \/ exists e, In e groups
                             /\ In (fst p) (snd e) /\ In (snd p) (snd e)).
Proof.
  revert st; induction groups as [| e groups IH]; intros st; cbn [fold_left].
  - split; intros; left; assumption.
  - destruct (IH (resolve_step config st e)) as [IHx IHp].
    destruct (resolve_step_members config st e) as [Hx Hp]. split.
    + intros x H. destruct (IHx x H) as [H1 | (e' & He' & H1)].
      * destruct (Hx x H1); [left; assumption |].
        right; exists e; simpl; auto.
      * right; exists e'; simpl; auto.
    + intros p H. destruct (IHp p H) as [H1 | (e' & He' & H1)].
      * destruct (Hp p H1); [left; assumption |].
        right; exists e; simpl; auto.
      * right; exists e'; simpl; auto.
Qed.

Lemma group_member_is_citation (cs : list Citation)
    (e : string * list Citation) (x : Citation) :
  In e (fingerprint_groups cs) -> In x (snd e) -> In x cs.
Proof.
  intros He Hx. destruct e as [k g].
  apply (fingerprint_groups_holds cs k x). exists g; auto.
Qed.

Lemma group_survivors_members (config : AnalysisConfig) (self : Analyzer) :
  (forall x, In x (fst (group_survivors config self)) ->
             In x (citations self))
  /\ (forall p, In p (snd (group_survivors config self)) ->
                In p (duplicates_removed self)
                \/ (In (fst p) (citations self)
                    /\ In (snd p) (citations self))).
Proof.
  unfold group_survivors, resolve_groups.
  destruct (resolve_groups_members config
              (fingerprint_groups (citations self))
              ([], duplicates_removed self)) as [Hx Hp].
  split.
  - intros x H. destruct (Hx x H) as [[] | (e & He & Hin)].
    eapply group_member_is_citation; eassumption.
  - intros p H. destruct (Hp p H) as [H1 | (e & He & H1 & H2)];
      [left; exact H1 | right].
    split; eapply group_member_is_citation; eassumption.
Qed.

Lemma similar_step_members (config : AnalysisConfig)
    (st : list Citation * list DuplicatePair) (c : Citation) :
  (forall x, In x (fst (similar_step config st c)) ->
             In x (fst st) \/ x = c)
  /\ (forall p, In p (snd (similar_step config st c)) ->
                In p (snd st)
                \/ ((In (fst p) (fst st) \/ fst p = c)
                    /\ (In (snd p) (fst st) \/ snd p = c))).
Proof.
  destruct st as [uniq removed]; unfold similar_step.
  destruct (List.find _ uniq) as [u |] eqn:Hfind.
  - apply find_some in Hfind as [Hu _].
    destruct (_should_replace config u c); cbn [fst snd]; split.
    + intros x Hx; apply in_app_iff in Hx as [Hx | [<- | []]]; auto.
      left; eapply list_remove_in; exact Hx.
    + intros p Hp; apply in_app_iff in Hp as [Hp | [<- | []]]; simpl; auto.
    + auto.
    + intros p Hp; apply in_app_iff in Hp as [Hp | [<- | []]]; simpl; auto.
  - cbn [fst snd]; split; [| auto].
    intros x Hx; apply in_app_iff in Hx as [Hx | [<- | []]]; auto.
Qed.

Lemma similar_pass_members (config : AnalysisConfig) (cs : list Citation)
    (st : list Citation * list DuplicatePair) :
  (forall x, In x (fst (fold_left (similar_step config) cs st)) ->
             In x (fst st) \/ In x cs)
  /\ (forall p, In p (snd (fold_left (similar_step config) cs st)) ->
                In p (snd st)
                \/ ((In (fst p) (fst st) \/ In (fst p) cs)
                    /\ (In (snd p) (fst st) \/ In (snd p) cs))).
Proof.
  revert st; induction cs as [| c cs IH]; intros st; cbn [fold_left].
  - split; intros; left; assumption.
  - destruct (IH (similar_step config st c)) as [IHx IHp].
    destruct (similar_step_members config st c) as [Hx Hp].
    assert (Hx' : forall x, In x (fst (similar_step config st c)) \/ In x cs ->
                            In x (fst st) \/ In x (c :: cs)).
    { intros x [H | H]; [| simpl; auto].
      destruct (Hx x H) as [H1 | ->]; simpl; auto. }
    split.
    + intros x H. apply Hx'. apply IHx; exact H.
    + intros p H. destruct (IHp p H) as [H1 | [H1 H2]].
      * destruct (Hp p H1) as [H2 | [H2 H3]]; [left; exact H2 | right].
        split; [destruct H2 as [H2 | ->] | destruct H3 as [H3 | ->]];
          simpl; auto.
      * right; split; apply Hx'; assumption.
Qed.

Lemma organized_by_run (config : AnalysisConfig) (self : Analyzer) :
  organized_data (_remove_duplicates config self)
  = _organize_citations (citations (_remove_duplicates config self)).
Proof.
  unfold _remove_duplicates.
  destruct (resolve_groups config _ _) as [survivors removed].
  destruct (negb _); [| reflexivity].
  destruct (_remove_similar_duplicates config survivors removed);
    reflexivity.
Qed.

Lemma remove_duplicates_members (config : AnalysisConfig) (self : Analyzer) :
  (forall x, In x (citations (_remove_duplicates config self)) ->
             In x (citations self))
  /\ (forall p, In p (duplicates_removed (_remove_duplicates config self)) ->
                In p (duplicates_removed self)
                \/ (In (fst p) (citations self)
                    /\ In (snd p) (citations self))).
Proof.
  destruct (group_survivors_members config self) as [Hgx Hgp].
  pose proof (remove_duplicates_gate config self) as Hgate.
  destruct (negb (Qle_bool 1 (similarity_threshold config))).
  - unfold _remove_similar_duplicates in Hgate.
    destruct (similar_pass_members config
                (fst (group_survivors config self))
                ([], snd (group_survivors config self))) as [Hx Hp].
    rewrite <- Hgate in Hx, Hp. cbn [fst snd] in Hx, Hp. split.
    + intros x H. destruct (Hx x H) as [[] | H1]. auto.
    + intros p H. destruct (Hp p H) as [H1 | [[[] | H1] [[] | H2]]]; auto.
  - rewrite <- Hgate in Hgx, Hgp. cbn [fst snd] in Hgx, Hgp.
    split; assumption.
Qed.

(** [X4] The run invents nothing: every citation it keeps is one of the
    citations it started from, every ledger entry it adds joins two of
    them, and every citation of the organized structure is a kept citation
    filed under its own category and year. *)
Theorem run_keeps_only_input_citations (config : AnalysisConfig)
    (self : Analyzer) :
  (forall x, In x (citations (_remove_duplicates config self)) ->
             In x (citations self))
  /\ (forall p, In p (duplicates_removed (_remove_duplicates config self)) ->
                In p (duplicates_removed self)
                \/ (In (fst p) (citations self)
                    /\ In (snd p) (citations self)))
  /\ (forall cat y c,
         bucket (organized_data (_remove_duplicates config self)) cat y c ->
         In c (citations (_remove_duplicates config self))
         /\ category c = cat /\ year c = Some y).
Proof.
  destruct (remove_duplicates_members config self) as [Hx Hp].
  split; [exact Hx |]. split; [exact Hp |].
  intros cat y c Hb.
  rewrite organized_by_run in Hb. unfold _organize_citations in Hb.
  rewrite sort_years_bucket, organize_fold_bucket, bucket_nil in Hb.
  tauto.
Qed.

Lemma run_keeps_only_input_citations_witness :
  In Samples.tide
     (citations (parsed (Samples.one_author ["tide"; "diet"]))).
Proof.
  refine (proj1 (run_keeps_only_input_citations Samples.keep_first
                   (parsed (Samples.one_author ["tide"; "diet"])))
                Samples.tide _).
  vm_compute. left; reflexivity.
Defined.

Lemma resolve_group_count (config : AnalysisConfig)
    (group : list Citation) :
  length (fst (_resolve_duplicate_group config group))
  + length (snd (_resolve_duplicate_group config group)) <= length group
  /\ (duplicate_strategy config = "keep_first" ->
      length (fst (_resolve_duplicate_group config group))
      + length (snd (_resolve_duplicate_group config group))
      = length group).
Proof.
  destruct group as [| first [| second others]];
    [simpl; split; [lia | intros _; lia]
    | simpl; split; [lia | intros _; lia] |].
  set (group := first :: second :: others).
  assert (Hgen : forall survivor,
             In survivor group ->
             length [survivor] + length (pairs_against survivor group)
             <= length group).
  { intros survivor Hin.
    pose proof (pairs_against_length survivor group) as Hlen.
    pose proof (proj1 (count_occ_In Citation_eq_dec group survivor) Hin).
    change (length [survivor]) with 1. lia. }
  unfold _resolve_duplicate_group.
  destruct (String.eqb (duplicate_strategy config) "keep_first") eqn:E1.
  { subst group. cbn [fst snd]. rewrite length_map. cbn [length].
    split; [lia | intros _; lia]. }
  split; [| intros H; rewrite H in E1; discriminate].
  destruct (String.eqb (duplicate_strategy config) "keep_longest").
  { apply Hgen, max_by_len_in. }
  destruct (String.eqb (duplicate_strategy config) "keep_most_complete");
    [| simpl; lia].
  fold group.
  destruct (List.filter (fun c => Py.truthy_str (doi c)) group)
    as [| d ds] eqn:Hdoi; cbn [fst snd].
  - apply Hgen, max_by_len_in.
  - apply Hgen.
    assert (H' : In (max_by_len d ds)
                    (List.filter (fun c => Py.truthy_str (doi c)) group))
      by (rewrite Hdoi; apply max_by_len_in).
    apply filter_In in H'; tauto.
Qed.

Lemma resolve_step_count (config : AnalysisConfig)
    (st : list Citation * list DuplicatePair)
    (entry : string * list Citation) :
  length (fst (resolve_step config st entry))
  + length (snd (resolve_step config st entry))
  <= length (fst st) + length (snd st) + length (snd entry)
  /\ (duplicate_strategy config = "keep_first" ->
      length (fst (resolve_step config st entry))
      + length (snd (resolve_step config st entry))
      = length (fst st) + length (snd st) + length (snd entry)).
Proof.
  destruct st as [uniq removed]; unfold resolve_step.
  destruct (length (snd entry) =? 1) eqn:E; cbn [fst snd].
  - rewrite length_app. lia.
  - destruct (resolve_group_count config (snd entry)) as [Hle Heq].
    destruct (_resolve_duplicate_group config (snd entry)) as [kept pairs].
    cbn [fst snd] in *. rewrite !length_app. split; [lia |].
    intros H; specialize (Heq H); lia.
Qed.

Lemma resolve_groups_count (config : AnalysisConfig)
    (groups : list (string * list Citation))
    (st : list Citation * list DuplicatePair) :
  length (fst (fold_left (resolve_step config) groups st))
  + length (snd (fold_left (resolve_step config) groups st))
  <= length (fst st) + length (snd st) + length (concat (map snd groups))
  /\ (duplicate_strategy config = "keep_first" ->
      length (fst (fold_left (resolve_step config) groups st))
      + length (snd (fold_left (resolve_step config) groups st))
      = length (fst st) + length (snd st)
        + length (concat (map snd groups))).
Proof.
  revert st; induction groups as [| e groups IH]; intros st;
    cbn [fold_left]; simpl; [lia |].
  destruct (IH (resolve_step config st e)) as [IHle IHeq].
  destruct (resolve_step_count config st e) as [Hle Heq].
  rewrite length_app. split; [lia |].
  intros H; specialize (IHeq H); specialize (Heq H); lia.
Qed.

(** [X5] The citations kept and the ledger entries added by a run are together
    never more than the citations the run started from; under
    [keep_first] they are exactly as many, so that the number of removed
    citations is the number of ledger entries added. *)
Theorem run_counts (config : AnalysisConfig) (self : Analyzer) :
  length (citations (_remove_duplicates config self))
  + length (duplicates_removed (_remove_duplicates config self))
  <= length (citations self) + length (duplicates_removed self)
  /\ (duplicate_strategy config = "keep_first" ->
      length (citations (_remove_duplicates config self))
      + length (duplicates_removed (_remove_duplicates config self))
      = length (citations self) + length (duplicates_removed self)).
Proof.
  pose proof (remove_duplicates_gate config self) as Hgate.
  pose proof (f_equal fst Hgate) as Hfst.
  pose proof (f_equal snd Hgate) as Hsnd.
  cbn [fst snd] in Hfst, Hsnd. rewrite Hfst, Hsnd. clear Hfst Hsnd Hgate.
  destruct (resolve_groups_count config
              (fingerprint_groups (citations self))
              ([], duplicates_removed self)) as [Hle Heq].
  rewrite fingerprint_groups_total in Hle, Heq. cbn [fst snd length] in *.
  fold (resolve_groups config (fingerprint_groups (citations self))
          (duplicates_removed self)) in Hle, Heq.
  fold (group_survivors config self) in Hle, Heq.
  destruct (negb (Qle_bool 1 (similarity_threshold config))); lazy iota.
  - unfold _remove_similar_duplicates.
    pose proof (remove_similar_count config
                  (fst (group_survivors config self))
                  ([], snd (group_survivors config self))) as Hcount.
    cbn [fst snd length] in Hcount.
    split; [lia |]. intros H; specialize (Heq H); lia.
  - split; [lia |]. intros H; specialize (Heq H); lia.
Qed.

Lemma run_counts_witness :
  length (citations (_remove_duplicates Samples.keep_first
                       (parsed (Samples.one_author ["tide"; "tide"]))))
  + length (duplicates_removed (_remove_duplicates Samples.keep_first
                       (parsed (Samples.one_author ["tide"; "tide"]))))
  = length (citations (parsed (Samples.one_author ["tide"; "tide"])))
    + length (duplicates_removed
                (parsed (Samples.one_author ["tide"; "tide"]))).
Proof.
  refine (proj2 (run_counts Samples.keep_first
                   (parsed (Samples.one_author ["tide"; "tide"]))) _).
  reflexivity.
Defined.

(** ** A strategy that is none of the three *)

Lemma resolve_step_unknown (config : AnalysisConfig)
    (st : list Citation * list DuplicatePair)
    (entry : string * list Citation) :
  known_strategy (duplicate_strategy config) = false ->
  resolve_step config st entry = (fst st ++ lone (snd entry), snd st).
Proof.
  intros Hunknown. unfold known_strategy in Hunknown.
  apply orb_false_iff in Hunknown as [H H3].
  apply orb_false_iff in H as [H1 H2].
  destruct st as [uniq removed]; unfold resolve_step, lone.
  destruct (length (snd entry) =? 1) eqn:E; [reflexivity |].
  unfold _resolve_duplicate_group. rewrite H1, H2, H3.
  destruct (snd entry) as [| first [| second others]]; cbn [fst snd].
  - rewrite !app_nil_r; reflexivity.
  - discriminate.
  - rewrite !app_nil_r; reflexivity.
Qed.

Lemma resolve_groups_unknown (config : AnalysisConfig)
    (groups : list (string * list Citation))
    (st : list Citation * list DuplicatePair) :
  known_strategy (duplicate_strategy config) = false ->
  fold_left (resolve_step config) groups st
  = (fst st ++ concat (map (fun e => lone (snd e)) groups), snd st).
Proof.
  intros Hunknown; revert st.
  induction groups as [| e groups IH]; intros st; cbn [fold_left].
  - simpl; rewrite app_nil_r; destruct st; reflexivity.
  - rewrite IH, resolve_step_unknown by exact Hunknown.
    cbn [fst snd map concat]. rewrite <- app_assoc. reflexivity.
Qed.

(** [X6] With a strategy that is none of the three, group resolution keeps the
    groups of one citation and drops every larger group whole, without a
    ledger entry: a citation that is kept by the run is the only citation
    of the input with its fingerprint. *)
Theorem unknown_strategy_drops_duplicate_groups (config : AnalysisConfig)
    (self : Analyzer) :
  known_strategy (duplicate_strategy config) = false ->
  group_survivors config self
  = (concat (map (fun e => lone (snd e))
                 (fingerprint_groups (citations self))),
     duplicates_removed self)
  /\ (forall x, In x (citations (_remove_duplicates config self)) ->
                with_fingerprint (fingerprint x) (citations self) = [x]).
Proof.
  intros Hunknown.
  assert (Hsurv : group_survivors config self
                  = (concat (map (fun e => lone (snd e))
                               (fingerprint_groups (citations self))),
                     duplicates_removed self)).
  { unfold group_survivors, resolve_groups.
    rewrite resolve_groups_unknown by exact Hunknown. reflexivity. }
  split; [exact Hsurv |].
  intros x Hx.
  assert (Hin : In x (fst (group_survivors config self))).
  { pose proof (remove_duplicates_gate config self) as Hgate.
    assert (Hc : citations (_remove_duplicates config self)
                 = fst (citations (_remove_duplicates config self),
                        duplicates_removed (_remove_duplicates config self)))
      by reflexivity.
    rewrite Hc, Hgate in Hx.
    destruct (negb _); [| exact Hx].
    unfold _remove_similar_duplicates in Hx.
    apply similar_pass_members in Hx as [[] | Hx]. exact Hx. }
  rewrite Hsurv in Hin; cbn [fst] in Hin.
  apply in_concat in Hin as (l & Hl & Hxl).
  apply in_map_iff in Hl as ([k g] & <- & Hg).
  unfold lone in Hxl; cbn [snd] in Hxl.
  destruct (length g =? 1) eqn:E; [| destruct Hxl].
  apply Nat.eqb_eq in E.
  destruct g as [| y [| z g]]; try discriminate.
  destruct Hxl as [-> | []].
  destruct (fingerprint_groups_grouped (citations self)) as (_ & _ & Hgroups).
  destruct (Hgroups k [x] Hg) as [_ Heq].
  assert (Hk : fingerprint x = k).
  { assert (Hm : In x (List.filter
                         (fun c => String.eqb (fingerprint c) k)
                         (citations self)))
      by (rewrite <- Heq; left; reflexivity).
    apply filter_In in Hm as [_ Hm]. apply String.eqb_eq; exact Hm. }
  unfold with_fingerprint. rewrite Hk, <- Heq. reflexivity.
Qed.

Lemma unknown_strategy_drops_duplicate_groups_witness :
  group_survivors Samples.keep_best
    (parsed (Samples.one_author ["tide"; "tide"; "diet"]))
  = (concat (map (fun e => lone (snd e))
               (fingerprint_groups
                  (citations
                     (parsed (Samples.one_author ["tide"; "tide"; "diet"]))))),
     duplicates_removed
       (parsed (Samples.one_author ["tide"; "tide"; "diet"]))).
Proof.
  refine (proj1 (unknown_strategy_drops_duplicate_groups Samples.keep_best
                   (parsed (Samples.one_author ["tide"; "tide"; "diet"]))
                   _)).
  reflexivity.
Defined.

(** ** What the pass achieves when nothing is replaced *)

Lemma no_duplicate_of_earlier_snoc (threshold : Q) (l : list Citation)
    (c : Citation) :
  no_duplicate_of_earlier threshold l ->
  (forall u, In u l -> is_duplicate_of c u threshold = false) ->
  no_duplicate_of_earlier threshold (l ++ [c]).
Proof.
  intros Hl Hc i j u x Hij Hi Hj.
  apply lookup_app_Some in Hj as [Hj | [Hlen Hj]].
  - apply lookup_app_Some in Hi as [Hi | [Hlen _]].
    + exact (Hl i j u x Hij Hi Hj).
    + apply lookup_lt_Some in Hj. lia.
  - apply list_lookup_singleton_Some in Hj as [Hj0 <-].
    apply lookup_app_Some in Hi as [Hi | [Hlen' _]]; [| lia].
    apply Hc. apply list_elem_of_In. eapply list_elem_of_lookup_2; exact Hi.
Qed.

Lemma never_replace_no_duplicate (config : AnalysisConfig)
    (cs acc : list Citation) (removed : list DuplicatePair) :
  (forall existing new, _should_replace config existing new = false) ->
  no_duplicate_of_earlier (similarity_threshold config) acc ->
  no_duplicate_of_earlier (similarity_threshold config)
    (fst (fold_left (similar_step config) cs (acc, removed))).
Proof.
  intros Hnever; revert acc removed.
  induction cs as [| c cs IH]; intros acc removed Hacc; cbn [fold_left].
  - exact Hacc.
  - destruct (List.find
                (fun u => is_duplicate_of c u (similarity_threshold config))
                acc) as [u |] eqn:Hfind.
    + rewrite (similar_step_match _ _ _ _ _ Hfind), Hnever.
      apply IH; exact Hacc.
    + rewrite (similar_step_fresh _ _ _ _ Hfind).
      apply IH, no_duplicate_of_earlier_snoc; [exact Hacc |].
      intros u Hu. exact (find_none _ _ Hfind u Hu).
Qed.

(** [X7] Under [keep_first] the list returned by the near-duplicate pass is
    free of duplicates in the sense of the pass: no citation of it is a
    duplicate, at the configured threshold, of a citation before it. *)
Theorem keep_first_pass_leaves_no_duplicate (config : AnalysisConfig)
    (cs : list Citation) (removed : list DuplicatePair) :
  duplicate_strategy config = "keep_first" ->
  no_duplicate_of_earlier (similarity_threshold config)
    (fst (_remove_similar_duplicates config cs removed)).
Proof.
  intros Hfirst. unfold _remove_similar_duplicates.
  apply never_replace_no_duplicate.
  - intros existing new; unfold _should_replace; rewrite Hfirst; reflexivity.
  - intros i j u c _ Hi; rewrite lookup_nil in Hi; discriminate.
Qed.

Lemma keep_first_pass_leaves_no_duplicate_witness :
  no_duplicate_of_earlier (similarity_threshold Samples.keep_first)
    (fst (_remove_similar_duplicates Samples.keep_first
            [Samples.nets; Samples.net; Samples.tide] [])).
Proof.
  apply (keep_first_pass_leaves_no_duplicate Samples.keep_first
           [Samples.nets; Samples.net; Samples.tide] []).
  reflexivity.
Defined.

(** ** Extracted years *)

Lemma head_In {A : Type} (l : list A) (x : A) : head l = Some x -> In x l.
Proof. destruct l; simpl; [discriminate | intros [= ->]; auto]. Qed.

Lemma in_year_range_bounds (y : Z) :
  in_year_range y = true -> (1950 <= y <= 2030)%Z.
Proof.
  unfold in_year_range; intros H. apply andb_true_iff in H as [H1 H2].
  apply Z.leb_le in H1, H2. lia.
Qed.

Lemma extract_year_range (text : string) (y : Z) :
  _extract_year text = Some y -> in_year_range y = true.
Proof.
  unfold _extract_year.
  assert (Hfallback :
            head (List.filter in_year_range
                    (map Py.int_of_digits
                       (Re.findall Patterns.bare_year text))) = Some y ->
            in_year_range y = true).
  { intros H. apply head_In, filter_In in H. tauto. }
  destruct (Re.search_group1 Patterns.paren_year text) as [g |];
    [| exact Hfallback].
  destruct (in_year_range (Py.int_of_digits g)) eqn:E; [| exact Hfallback].
  intros [= <-]; exact E.
Qed.

Lemma parsed_citation_year (faculty_data : list Faculty) (c : Citation) :
  In c (_parse_citations faculty_data) ->
  year c = _extract_year (text c).
Proof.
  unfold _parse_citations. intros Hin.
  apply in_concat in Hin as (l & Hl & Hc).
  apply in_map_iff in Hl as (f & <- & _).
  unfold parse_faculty in Hc.
  destruct (faculty_citations f) as [by_category |]; [| destruct Hc].
  apply in_concat in Hc as (l & Hl & Hc).
  apply in_map_iff in Hl as ([category texts] & <- & _).
  apply in_map_iff in Hc as (t & <- & _). reflexivity.
Qed.

(** [X8] A year found by [_extract_year] (and by [extract_year] of
    [citation_analyzer.py]) lies between 1950 and 2030; hence the year of
    a citation parsed from the input file is absent or in that range, and
    never the falsy year 0. *)
Theorem extracted_year_in_range :
  (forall text y, _extract_year text = Some y -> (1950 <= y <= 2030)%Z)
  /\ (forall text y,
         citation_analyzer.extract_year text = Some y ->
         (1950 <= y <= 2030)%Z)
  /\ (forall faculty_data c y,
         In c (_parse_citations faculty_data) -> year c = Some y ->
         (1950 <= y <= 2030)%Z /\ Py.truthy_int (year c) = true).
Proof.
  assert (H : forall text y,
             _extract_year text = Some y -> (1950 <= y <= 2030)%Z)
    by (intros text y Hy; apply in_year_range_bounds,
          (extract_year_range text); exact Hy).
  split; [exact H |]. split; [exact H |].
  intros faculty_data c y Hin Hy.
  assert (Hr : (1950 <= y <= 2030)%Z).
  { apply (H (text c)). rewrite <- (parsed_citation_year _ _ Hin). exact Hy. }
  split; [exact Hr |]. rewrite Hy; simpl.
  apply negb_true_iff, Z.eqb_neq. lia.
Qed.

Lemma extracted_year_in_range_witness :
  _extract_year "Smith (2020) short." = Some 2020%Z
  /\ (1950 <= 2020 <= 2030)%Z.
Proof.
  split; [vm_compute; reflexivity |].
  refine (proj1 extracted_year_in_range "Smith (2020) short." 2020%Z _).
  vm_compute; reflexivity.
Defined.

(** ** The years of the organized output *)

Section YearKeys.

Context {V : Type}.
Variable P : Z -> Prop.

Lemma organized_append_year_keys (d : list (string * list (Z * list V)))
    (category : string) (y : Z) (c : V) :
  P y -> year_keys_satisfy P d ->
  year_keys_satisfy P (organized_append category y c d).
Proof.
  intros Hy. unfold year_keys_satisfy, year_keys.
  induction d as [| [k ys] d IH]; cbn [organized_append]; intros Hd.
  - intros cat years y' [[= <- <-] | []] [<- | []]. exact Hy.
  - destruct (String.eqb k category).
    + intros cat years y' [[= <- <-] | Hin] Hy'.
      * apply (dict_append_key Z.eqb Z.eqb_eq) in Hy' as [Hy' | ->];
          [| exact Hy].
        apply (Hd k ys); [left; reflexivity | exact Hy'].
      * apply (Hd cat years); [right; exact Hin | exact Hy'].
    + intros cat years y' [[= <- <-] | Hin] Hy'.
      * apply (Hd k ys); [left; reflexivity | exact Hy'].
      * apply (IH (fun cat years y H => Hd cat years y (or_intror H))
                  cat years); assumption.
Qed.

Lemma sort_years_year_keys (d : list (string * list (Z * list V))) :
  year_keys_satisfy P d -> year_keys_satisfy P (sort_years d).
Proof.
  unfold year_keys_satisfy, year_keys, sort_years.
  intros Hd cat years y Hin Hy.
  apply in_map_iff in Hin as ([k ys] & [= <- <-] & Hin).
  apply in_map_iff in Hy as (kv & <- & Hkv).
  apply (proj1 (sorted_desc_in ys kv)) in Hkv.
  apply (Hd k ys); [exact Hin | apply in_map; exact Hkv].
Qed.

End YearKeys.

Lemma organize_year_keys (P : Z -> Prop) (cs : list Citation) :
  (forall c y, In c cs -> year c = Some y ->
               Py.truthy_int (year c) = true -> P y) ->
  year_keys_satisfy P (_organize_citations cs).
Proof.
  intros Hcs. unfold _organize_citations. apply sort_years_year_keys.
  assert (H0 : year_keys_satisfy P (@nil (string * list (Z * list Citation))))
    by (intros cat years y []).
  revert H0. generalize (@nil (string * list (Z * list Citation))).
  induction cs as [| c cs IH]; intros d Hd; cbn [fold_left]; [exact Hd |].
  apply IH.
  { intros c' y' Hc' Hy' Ht'.
    apply (Hcs c' y'); [right; exact Hc' | exact Hy' | exact Ht']. }
  unfold organize_step.
  destruct (year c) as [y |] eqn:Hy; [| exact Hd].
  destruct (Py.truthy_int (Some y)) eqn:Ht; [| exact Hd].
  apply organized_append_year_keys; [| exact Hd].
  apply (Hcs c y); [left; reflexivity | exact Hy |].
  rewrite Hy; exact Ht.
Qed.

Lemma legacy_year_keys (P : Z -> Prop) (faculty_data : list Faculty) :
  (forall text y, citation_analyzer.extract_year text = Some y -> P y) ->
  year_keys_satisfy P (citation_analyzer.parse_citations faculty_data).
Proof.
  intros HP. unfold citation_analyzer.parse_citations.
  apply sort_years_year_keys.
  assert (H0 : year_keys_satisfy P
                 (@nil (string * list (Z * list citation_analyzer.Entry))))
    by (intros cat years y []).
  revert H0.
  generalize (@nil (string * list (Z * list citation_analyzer.Entry))).
  induction faculty_data as [| f fs IH]; intros d Hd; cbn [fold_left];
    [exact Hd |].
  apply IH. unfold citation_analyzer.add_faculty.
  destruct (faculty_citations f) as [by_category |]; [| exact Hd].
  revert d Hd; induction by_category as [| [category texts] rest IHc];
    intros d Hd; cbn [fold_left]; [exact Hd |].
  apply IHc.
  revert d Hd; induction texts as [| t texts IHt]; intros d Hd;
    cbn [fold_left]; [exact Hd |].
  apply IHt. unfold citation_analyzer.add_citation.
  destruct (citation_analyzer.extract_year t) as [y |] eqn:Hy; [| exact Hd].
  destruct (Py.truthy_int _); [| exact Hd].
  apply organized_append_year_keys; [| exact Hd].
  apply (HP t); exact Hy.
Qed.

(** [X9] Every year key of the structure organized by a run on a loaded input
    lies between 1950 and 2030, and so does every year key of the structure
    built by [parse_citations] of [citation_analyzer.py]. *)
Theorem organized_years_in_range :
  (forall config faculty_data a,
      load_data config (Loaded faculty_data) = Returns a ->
      year_keys_satisfy (fun y => (1950 <= y <= 2030)%Z) (organized_data a))
  /\ (forall faculty_data,
         year_keys_satisfy (fun y => (1950 <= y <= 2030)%Z)
           (citation_analyzer.parse_citations faculty_data)).
Proof.
  split.
  - intros config faculty_data a. rewrite load_data_loaded.
    intros [= <-].
    destruct (enable_duplicate_detection config);
      [| intros cat years y []].
    rewrite organized_by_run. apply organize_year_keys.
    intros c y Hc Hy _.
    apply (remove_duplicates_members config (parsed faculty_data)) in Hc.
    apply in_year_range_bounds, (extract_year_range (text c)).
    rewrite <- (parsed_citation_year faculty_data c Hc). exact Hy.
  - intros faculty_data. apply legacy_year_keys.
    intros text y Hy. apply in_year_range_bounds, (extract_year_range text).
    exact Hy.
Qed.

Lemma organized_years_in_range_witness :
  year_keys_satisfy (fun y => (1950 <= y <= 2030)%Z)
    (organized_data
       (_remove_duplicates Samples.keep_first
          (parsed (Samples.one_author ["tide"; "Smith (2020) short."])))).
Proof.
  refine (proj1 organized_years_in_range Samples.keep_first
            (Samples.one_author ["tide"; "Smith (2020) short."]) _ _).
  reflexivity.
Defined.

(** ** The matcher, character by character *)

Section MatcherChars.

Import Re.

Lemma sem_all_chr (P : ascii -> Prop) (r : re) (st st' : state) :
  sem r st st' -> all_chr P r ->
  exists w, rest st = w ++ rest st' /\ pos st' = pos st + length w
            /\ Forall P w.
Proof.
  induction 1 as [st | p c s' st Hrest Hp | r1 r2 st m st' _ IH1 _ IH2
                 | r1 r2 st st' _ IH | r1 r2 st st' _ IH
                 | r st | r st m st' _ IH1 _ IH2
                 | r st | r st m st' _ IH1 _ IH2
                 | r st m _ IH | st Hb]; cbn [all_chr]; intros Hall.
  - exists []; simpl; split; [reflexivity |]. split; [lia | constructor].
  - exists [c]; simpl; split; [exact Hrest |].
    split; [lia |]. constructor; [apply Hall; exact Hp | constructor].
  - destruct Hall as [Ha1 Ha2].
    destruct (IH1 Ha1) as (w1 & H1 & P1 & F1).
    destruct (IH2 Ha2) as (w2 & H2 & P2 & F2).
    exists (w1 ++ w2). rewrite <- app_assoc, <- H2, H1, length_app.
    split; [reflexivity |]. split; [lia | apply Forall_app; auto].
  - apply IH; tauto.
  - apply IH; tauto.
  - exists []; simpl; split; [reflexivity |]. split; [lia | constructor].
  - destruct (IH1 Hall) as (w1 & H1 & P1 & F1).
    destruct (IH2 Hall) as (w2 & H2 & P2 & F2).
    exists (w1 ++ w2). rewrite <- app_assoc, <- H2, H1, length_app.
    split; [reflexivity |]. split; [lia | apply Forall_app; auto].
  - exists []; simpl; split; [reflexivity |]. split; [lia | constructor].
  - destruct (IH1 Hall) as (w1 & H1 & P1 & F1).
    destruct (IH2 Hall) as (w2 & H2 & P2 & F2).
    exists (w1 ++ w2). rewrite <- app_assoc, <- H2, H1, length_app.
    split; [reflexivity |]. split; [lia | apply Forall_app; auto].
  - apply IH; exact Hall.
  - exists []; simpl; split; [reflexivity |]. split; [lia | constructor].
Qed.

Lemma needs_sem (P : ascii -> Prop) (r : re) :
  needs P r ->
  forall st st', sem r st st' -> Exists P (rest st).
Proof.
  induction 1 as [p Hp | r1 r2 _ IH | r1 r2 _ IH]; intros st st' Hsem.
  - inversion Hsem as [| ? c s' ? Hrest Hc | | | | | | | | |]; subst.
    rewrite Hrest. apply Exists_cons_hd, Hp, Hc.
  - inversion Hsem as [| | ? ? ? m ? H1 H2 | | | | | | | |]; subst.
    eapply IH; exact H1.
  - inversion Hsem as [| | ? ? ? m ? H1 H2 | | | | | | | |]; subst.
    apply sem_consumes in H1 as (w & Hw & _).
    rewrite Hw. apply Exists_app; right. eapply IH; exact H2.
Qed.

Lemma needs_no_match (P : ascii -> Prop) (r : re) (p : option ascii)
    (s : list ascii) (i : nat) :
  needs P r -> Forall (fun c => ~ P c) s -> match_here r p s i = None.
Proof.
  intros Hneeds Hnot. destruct (match_here r p s i) as [res |] eqn:E;
    [| reflexivity].
  unfold match_here in E. apply run_sound in E as (st' & Hsem & _).
  apply (needs_sem P r Hneeds) in Hsem. cbn [rest] in Hsem.
  apply Exists_exists in Hsem as (c & Hin & Hc).
  rewrite Forall_forall in Hnot. destruct (Hnot c Hin Hc).
Qed.

(** A search for a pattern that needs a character the text does not have
    finds nothing, and a substitution of such a pattern leaves the text as
    it is. *)
Lemma search_from_absent (P : ascii -> Prop) (r : re) :
  needs P r ->
  forall s p i, Forall (fun c => ~ P c) s -> search_from r p s i = None.
Proof.
  intros Hneeds s; induction s as [| x s IH]; intros p i Hnot;
    cbn [search_from]; rewrite (needs_no_match P r p _ i Hneeds Hnot);
    [reflexivity |].
  apply IH. inversion Hnot; assumption.
Qed.

Lemma sub_from_absent (P : ascii -> Prop) (r : re) (repl : list ascii) :
  needs P r ->
  forall fuel s p i,
    Forall (fun c => ~ P c) s -> sub_from fuel r repl p s i = s.
Proof.
  intros Hneeds fuel; induction fuel as [| fuel IH]; intros s p i Hnot;
    cbn [sub_from]; [reflexivity |].
  rewrite (needs_no_match P r p s i Hneeds Hnot).
  destruct s as [| x s]; [reflexivity |].
  rewrite IH; [reflexivity |]. inversion Hnot; assumption.
Qed.

Lemma sub_absent (P : ascii -> Prop) (r : re) (repl text : string) :
  needs P r -> Forall (fun c => ~ P c) (list_ascii_of_string text) ->
  sub r repl text = text.
Proof.
  intros Hneeds Hnot; unfold sub.
  rewrite (sub_from_absent P r _ Hneeds) by exact Hnot.
  apply string_of_list_ascii_of_string.
Qed.

(** A substitution brings in no character beyond those of the text and of
    the replacement. *)
Lemma sub_from_Forall (P : ascii -> Prop) (r : re) (repl : list ascii) :
  Forall P repl ->
  forall fuel s p i, Forall P s -> Forall P (sub_from fuel r repl p s i).
Proof.
  intros Hrepl fuel; induction fuel as [| fuel IH]; intros s p i Hs;
    cbn [sub_from]; [exact Hs |].
  assert (Hcopy : Forall P match s with
                           | [] => []
                           | x :: s' =>
                               x :: sub_from fuel r repl (Some x) s' (S i)
                           end).
  { destruct s as [| x s']; [constructor |].
    inversion Hs; subst. constructor; [assumption | apply IH; assumption]. }
  destruct (match_here r p s i) as [[e g] |]; [| exact Hcopy].
  destruct (i <? e); [| exact Hcopy].
  apply Forall_app; split; [exact Hrepl |].
  apply IH, Forall_drop; exact Hs.
Qed.

Lemma sub_Forall (P : ascii -> Prop) (r : re) (repl text : string) :
  Forall P (list_ascii_of_string repl) ->
  Forall P (list_ascii_of_string text) ->
  Forall P (list_ascii_of_string (sub r repl text)).
Proof.
  intros Hrepl Htext; unfold sub.
  rewrite list_ascii_of_string_of_list_ascii.
  apply sub_from_Forall; assumption.
Qed.

(** Deleting a character class leaves no character of the class. *)
Lemma sub_from_class (cls : ascii -> bool) :
  forall fuel s p i,
    length s < fuel ->
    Forall (fun c => cls c = false) (sub_from fuel (Chr cls) [] p s i).
Proof.
  intros fuel; induction fuel as [| fuel IH]; intros s p i Hlen; [lia |].
  cbn [sub_from]. unfold match_here; cbn [run rest pos grp].
  destruct s as [| x s]; [constructor |].
  simpl in Hlen.
  destruct (cls x) eqn:Hx.
  - replace (i <? S i) with true by (symmetry; apply Nat.ltb_lt; lia).
    replace (S i - i) with 1 by lia. simpl.
    apply IH. rewrite length_drop. lia.
  - constructor; [exact Hx | apply IH; lia].
Qed.

Lemma sub_class (cls : ascii -> bool) (text : string) :
  Forall (fun c => cls c = false)
         (list_ascii_of_string (sub (Chr cls) "" text)).
Proof.
  unfold sub. rewrite list_ascii_of_string_of_list_ascii.
  apply sub_from_class; lia.
Qed.

(** Replacing the runs of a character class leaves no character of the
    class but those of the replacement. *)
Lemma star_loop_total
    (body : (state -> option result) -> state -> option result)
    (k : state -> option result) (n : nat) (st : state) :
  (forall st, k st <> None) -> star_loop body k n st <> None.
Proof.
  intros Hk; destruct n as [| n]; cbn [star_loop]; [apply Hk |].
  destruct (body _ st); [discriminate | apply Hk].
Qed.

Lemma plus_class_matches (cls : ascii -> bool) (p : option ascii)
    (x : ascii) (s : list ascii) (i : nat) :
  cls x = true ->
  exists e g, match_here (plus (Chr cls)) p (x :: s) i = Some (e, g)
              /\ i < e.
Proof.
  intros Hx.
  destruct (match_here (plus (Chr cls)) p (x :: s) i) as [[e g] |] eqn:E.
  - exists e, g; split; [reflexivity |].
    unfold match_here in E. apply run_sound in E as (st' & Hsem & [= <- <-]).
    inversion Hsem as [| | ? ? ? m ? H1 H2 | | | | | | | |]; subst.
    inversion H1; subst. apply sem_consumes in H2 as (w & _ & ->).
    cbn [pos]. lia.
  - exfalso. unfold match_here, plus in E. cbn [run rest] in E.
    rewrite Hx in E. revert E. apply star_loop_total. discriminate.
Qed.

Lemma sub_from_plus_class (cls : ascii -> bool) (repl : list ascii) :
  forall fuel s p i,
    length s < fuel ->
    Forall (fun c => cls c = false \/ In c repl)
           (sub_from fuel (plus (Chr cls)) repl p s i).
Proof.
  intros fuel; induction fuel as [| fuel IH]; intros s p i Hlen; [lia |].
  cbn [sub_from].
  destruct s as [| x s].
  - unfold match_here, plus; cbn [run rest]. constructor.
  - simpl in Hlen. destruct (cls x) eqn:Hx.
    + destruct (plus_class_matches cls p x s i Hx) as (e & g & -> & Hlt).
      apply Nat.ltb_lt in Hlt as Hlt'. rewrite Hlt'.
      apply Forall_app; split.
      * apply Forall_forall; intros c Hc; right.
        apply list_elem_of_In; exact Hc.
      * apply IH. rewrite length_drop. simpl. lia.
    + assert (Hcopy : Forall (fun c => cls c = false \/ In c repl)
                        (x :: sub_from fuel (plus (Chr cls)) repl
                                (Some x) s (S i)))
        by (constructor; [left; exact Hx | apply IH; lia]).
      destruct (match_here _ p (x :: s) i) as [[e g] |]; [| exact Hcopy].
      destruct (i <? e) eqn:Hlt; [| exact Hcopy].
      apply Forall_app; split.
      * apply Forall_forall; intros c Hc; right.
        apply list_elem_of_In; exact Hc.
      * apply IH. rewrite length_drop. apply Nat.ltb_lt in Hlt. simpl. lia.
Qed.

End MatcherChars.

(** ** Group 1 as a match of the group body *)

Section GroupWord.

Import Re.

Lemma match_here_group_word (body r : re) (s : list ascii)
    (p : option ascii) (i e : nat) (g : option (nat * nat)) :
  ends_in_group body r ->
  match_here r p (drop i s) i = Some (e, g) ->
  exists gi gj st st',
    g = Some (gi, gj) /\ sem body st st'
    /\ rest st = take (gj - gi) (drop gi s) ++ rest st'.
Proof.
  intros Hends Hmatch. unfold match_here in Hmatch.
  apply run_sound in Hmatch as (st' & Hsem & [= <- <-]).
  eapply ends_in_group_sem in Hsem as (g0 & m & Hbody & Hgrp & Hg0);
    [| exact Hends | reflexivity].
  exists (pos g0), (pos m), g0, m.
  split; [exact Hgrp |]. split; [exact Hbody |].
  apply sem_consumes in Hbody as (w & Hw & Hpos).
  rewrite <- Hg0, Hpos, Hw.
  replace (pos g0 + length w - pos g0) with (length w) by lia.
  rewrite take_app_length. reflexivity.
Qed.

Lemma search_from_group_word (body r : re) (s : list ascii) :
  ends_in_group body r ->
  forall t i p start e g,
    t = drop i s ->
    search_from r p t i = Some (start, (e, g)) ->
    exists gi gj st st',
      g = Some (gi, gj) /\ sem body st st'
      /\ rest st = take (gj - gi) (drop gi s) ++ rest st'.
Proof.
  intros Hends t; induction t as [| x t IH]; intros i p start e g Ht;
    cbn [search_from];
    destruct (match_here r p _ i) as [[e' g'] |] eqn:E;
    try discriminate.
  - intros [= <- <- <-]. rewrite Ht in E.
    eapply match_here_group_word; eassumption.
  - intros [= <- <- <-]. rewrite Ht in E.
    eapply match_here_group_word; eassumption.
  - apply IH.
    rewrite <- (Nat.add_1_r i), <- drop_drop, <- Ht. reflexivity.
Qed.

(** What [match.group(1)] returns is a text the group body matches. *)
Lemma search_group1_word (body r : re) (text g : string) :
  ends_in_group body r ->
  search_group1 r text = Some g ->
  exists st st',
    sem body st st' /\ rest st = list_ascii_of_string g ++ rest st'.
Proof.
  intros Hends; unfold search_group1.
  destruct (search_from r None (list_ascii_of_string text) 0)
    as [[start [e grp]] |] eqn:E; [| discriminate].
  eapply (search_from_group_word body r (list_ascii_of_string text))
    in E as (gi & gj & st & st' & -> & Hsem & Hrest);
    [| assumption | reflexivity].
  intros [= <-]. exists st, st'. split; [exact Hsem |].
  unfold slice. rewrite list_ascii_of_string_of_list_ascii. exact Hrest.
Qed.

(** Its characters are those the classes of the group body allow. *)
Lemma search_group1_chars (P : ascii -> Prop) (body r : re)
    (text g : string) :
  ends_in_group body r -> all_chr P body ->
  search_group1 r text = Some g ->
  Forall P (list_ascii_of_string g).
Proof.
  intros Hends Hall Hg.
  destruct (search_group1_word body r text g Hends Hg)
    as (st & st' & Hsem & Hrest).
  destruct (sem_all_chr P body st st' Hsem Hall) as (w & Hw & _ & HP).
  rewrite Hrest in Hw. apply app_inv_tail in Hw. rewrite Hw. exact HP.
Qed.

End GroupWord.

(** ** [str.strip] and [str.rstrip] *)

Section Strip.

Variable p : ascii -> bool.

Lemma lstrip_list_suffix (l : list ascii) :
  exists junk, l = junk ++ Py.lstrip_list p l.
Proof.
  induction l as [| x l (junk & IH)]; simpl; [exists []; reflexivity |].
  destruct (p x).
  - exists (x :: junk). simpl. rewrite <- IH. reflexivity.
  - exists []. reflexivity.
Qed.

Lemma rstrip_list_prefix (l : list ascii) :
  exists junk, l = Py.rstrip_list p l ++ junk.
Proof.
  unfold Py.rstrip_list.
  destruct (lstrip_list_suffix (rev l)) as (junk & H).
  exists (rev junk). rewrite <- rev_app_distr, <- H, rev_involutive.
  reflexivity.
Qed.

Lemma lstrip_list_Forall (P : ascii -> Prop) (l : list ascii) :
  Forall P l -> Forall P (Py.lstrip_list p l).
Proof.
  intros H. destruct (lstrip_list_suffix l) as (junk & E).
  rewrite E in H. apply Forall_app in H. tauto.
Qed.

Lemma rstrip_list_Forall (P : ascii -> Prop) (l : list ascii) :
  Forall P l -> Forall P (Py.rstrip_list p l).
Proof.
  intros H. destruct (rstrip_list_prefix l) as (junk & E).
  rewrite E in H. apply Forall_app in H. tauto.
Qed.

Lemma lstrip_list_head (l l' : list ascii) (c : ascii) :
  Py.lstrip_list p l = c :: l' -> p c = false.
Proof.
  induction l as [| x l IH]; simpl; [discriminate |].
  destruct (p x) eqn:Hx; [exact IH |]. intros [= <- _]; exact Hx.
Qed.

Lemma rstrip_list_last (l l' : list ascii) (c : ascii) :
  Py.rstrip_list p l = l' ++ [c] -> p c = false.
Proof.
  unfold Py.rstrip_list. intros H.
  apply (f_equal (@rev ascii)) in H.
  rewrite rev_involutive, rev_app_distr in H. simpl in H.
  eapply lstrip_list_head; exact H.
Qed.

Lemma rstrip_list_head (l l' : list ascii) (c : ascii) :
  Py.rstrip_list p (Py.lstrip_list p l) = c :: l' -> p c = false.
Proof.
  intros H.
  destruct (rstrip_list_prefix (Py.lstrip_list p l)) as (junk & E).
  rewrite H in E. simpl in E. eapply lstrip_list_head; exact E.
Qed.

(** Stripping a list that neither starts nor ends with a character of the
    class changes nothing. *)
Lemma lstrip_list_id (l : list ascii) :
  (forall c l', l = c :: l' -> p c = false) -> Py.lstrip_list p l = l.
Proof.
  destruct l as [| x l]; simpl; [reflexivity |].
  intros H. rewrite (H x l eq_refl). reflexivity.
Qed.

Lemma rstrip_list_id (l : list ascii) :
  (forall l' c, l = l' ++ [c] -> p c = false) -> Py.rstrip_list p l = l.
Proof.
  intros H. unfold Py.rstrip_list.
  rewrite lstrip_list_id; [apply rev_involutive |].
  intros c l' E. apply (H (rev l')).
  rewrite <- (rev_involutive l), E. reflexivity.
Qed.

End Strip.

Lemma strip_Forall (P : ascii -> Prop) (s : string) :
  Forall P (list_ascii_of_string s) ->
  Forall P (list_ascii_of_string (Py.strip s)).
Proof.
  intros H. unfold Py.strip. rewrite list_ascii_of_string_of_list_ascii.
  apply rstrip_list_Forall, lstrip_list_Forall, H.
Qed.

Lemma strip_stripped (s : string) : stripped (Py.strip s).
Proof.
  unfold stripped, Py.strip. rewrite list_ascii_of_string_of_list_ascii.
  split.
  - intros c l H. eapply rstrip_list_head; exact H.
  - intros l c H. eapply rstrip_list_last; exact H.
Qed.

Lemma strip_id (s : string) : stripped s -> Py.strip s = s.
Proof.
  intros [Hhead Hlast]. unfold Py.strip.
  rewrite lstrip_list_id, rstrip_list_id by assumption.
  apply string_of_list_ascii_of_string.
Qed.

(** ** Characters *)

(** A fact about every character is checked on the 256 of them. *)
Ltac each_char c :=
  destruct c as [[] [] [] [] [] [] [] []]; vm_compute; intros;
  repeat match goal with
         | H : _ \/ _ |- _ => destruct H
         | H : _ /\ _ |- _ => destruct H
         end;
  try discriminate; try congruence;
  repeat split; try reflexivity; try discriminate; try congruence;
  try tauto.

Lemma lower_char_not_upper (c : ascii) :
  Re.is_upper (Re.lower_char c) = false.
Proof. each_char c. Qed.

Lemma lower_char_id (c : ascii) :
  Re.is_upper c = false -> Re.lower_char c = c.
Proof. unfold Re.lower_char. intros ->. reflexivity. Qed.

Lemma lower_Forall (s : string) :
  Forall (fun c => Re.is_upper c = false)
         (list_ascii_of_string (Py.lower s)).
Proof.
  unfold Py.lower. rewrite list_ascii_of_string_of_list_ascii.
  apply Forall_map, Forall_forall. intros c _; apply lower_char_not_upper.
Qed.

Lemma lower_id (s : string) :
  Forall (fun c => Re.is_upper c = false) (list_ascii_of_string s) ->
  Py.lower s = s.
Proof.
  intros H. unfold Py.lower.
  rewrite <- (string_of_list_ascii_of_string s) at 2. f_equal.
  induction H as [| c l Hc _ IH]; simpl; [reflexivity |].
  rewrite IH, (lower_char_id c Hc). reflexivity.
Qed.

(** ** The form of an extracted DOI *)

(** What the group of a DOI pattern can hold: no white space, comma or
    closing parenthesis. *)
Lemma doi_group_chars (c : ascii) :
  (Re.is_digit c || Ascii.eqb c ".")%bool = true
  \/ Ascii.eqb "/" c = true
  \/ Ascii.eqb "1" c = true \/ Ascii.eqb "0" c = true
  \/ Ascii.eqb "." c = true \/ Re.is_digit c = true
  \/ negb (Re.is_space c || Re.one_of ",)" c) = true ->
  Re.is_space c = false /\ c <> ","%char /\ c <> ")"%char.
Proof. each_char c. Qed.

Lemma doi_char_lower (c : ascii) :
  Re.is_space c = false /\ c <> ","%char /\ c <> ")"%char ->
  doi_char (Re.lower_char c).
Proof. unfold doi_char. each_char c. Qed.

Lemma one_of_lower (c : ascii) :
  Re.one_of ".,;)" c = false -> Re.one_of ".,;)" (Re.lower_char c) = false.
Proof. each_char c. Qed.

Lemma doi_patterns_chars :
  Forall (fun r => exists body,
              Re.ends_in_group body r
              /\ Re.contains_lit "/"%char body
              /\ all_chr (fun c => Re.is_space c = false
                                   /\ c <> ","%char /\ c <> ")"%char) body)
         Patterns.doi_patterns.
Proof.
  unfold Patterns.doi_patterns, Patterns.doi_body.
  repeat apply List.Forall_cons; [| | | | apply List.Forall_nil];
    eexists; (split; [cbn [Re.seqs fold_right]; repeat constructor |]);
    cbn [Re.seqs fold_right];
    (split;
     [| cbn [all_chr Re.plus Re.lit Re.word fold_right list_ascii_of_string];
        repeat match goal with |- _ /\ _ => split end;
        try exact I; intros c Hc; apply doi_group_chars; tauto]).
  - apply Re.contains_later, Re.contains_here.
  - apply Re.contains_later, Re.contains_here.
  - apply Re.contains_later, Re.contains_here.
  - apply Re.contains_later, Re.contains_later, Re.contains_here.
Qed.

Lemma first_doi_form (patterns : list Re.re) (text d : string) :
  Forall (fun r => exists body,
              Re.ends_in_group body r
              /\ Re.contains_lit "/"%char body
              /\ all_chr (fun c => Re.is_space c = false
                                   /\ c <> ","%char /\ c <> ")"%char) body)
         patterns ->
  first_doi patterns text = Some d ->
  In "/"%char (list_ascii_of_string d)
  /\ Forall doi_char (list_ascii_of_string d)
  /\ (forall l c, list_ascii_of_string d = l ++ [c] ->
                  Re.one_of ".,;)" c = false).
Proof.
  induction 1 as [| r patterns (body & Hends & Hlit & Hall) _ IH]; simpl;
    [discriminate |].
  destruct (Re.search_group1 r text) as [g |] eqn:E; [| exact IH].
  intros [= <-]. unfold Py.lower, Py.rstrip.
  rewrite !list_ascii_of_string_of_list_ascii.
  split; [| split].
  - change "/"%char with (Re.lower_char "/"). apply in_map.
    apply rstrip_list_keeps; [| reflexivity].
    eapply search_group1_contains; eassumption.
  - apply Forall_map.
    eapply Forall_impl; [| intros c Hc; apply doi_char_lower; exact Hc].
    apply rstrip_list_Forall.
    eapply search_group1_chars; eassumption.
  - intros l c Hl.
    destruct (Py.rstrip_list (Re.one_of ".,;)") (list_ascii_of_string g))
      as [| x xs] eqn:Hr using rev_ind;
      [destruct l; discriminate |].
    rewrite map_app in Hl. simpl in Hl.
    apply app_inj_tail in Hl as [_ <-].
    apply one_of_lower. eapply rstrip_list_last; exact Hr.
Qed.

(** [X10] [_extract_doi] returns a DOI in a fixed form: it contains the slash,
    it holds no white space, no upper-case letter, no comma and no closing
    parenthesis, and it does not end in one of [.,;)]. *)
Theorem extracted_doi_form (text d : string) :
  _extract_doi text = Some d ->
  In "/"%char (list_ascii_of_string d)
  /\ Forall doi_char (list_ascii_of_string d)
  /\ (forall l c, list_ascii_of_string d = l ++ [c] ->
                  Re.one_of ".,;)" c = false).
Proof. apply first_doi_form, doi_patterns_chars. Qed.

Lemma extracted_doi_form_witness :
  _extract_doi "Kaya, M. Nets, 2020. https://doi.org/10.1/ABC." 
  = Some "10.1/abc"
  /\ Forall doi_char (list_ascii_of_string "10.1/abc").
Proof.
  split; [vm_compute; reflexivity |].
  refine (proj1 (proj2 (extracted_doi_form
            "Kaya, M. Nets, 2020. https://doi.org/10.1/ABC." "10.1/abc" _))).
  vm_compute; reflexivity.
Defined.

(** ** The normalized text *)

Lemma needs_lit (c : ascii) : needs (eq c) (Re.lit c).
Proof. apply needs_chr. intros x Hx. apply Ascii.eqb_eq in Hx. exact Hx. Qed.

Lemma sub_plus_class (cls : ascii -> bool) (repl text : string) :
  Forall (fun c => cls c = false \/ In c (list_ascii_of_string repl))
         (list_ascii_of_string (Re.sub (Re.plus (Re.Chr cls)) repl text)).
Proof.
  unfold Re.sub. rewrite list_ascii_of_string_of_list_ascii.
  apply sub_from_plus_class; lia.
Qed.

Lemma punctuation_free (c : ascii) :
  (Re.one_of ".,;:!?" c || (Re.code c =? 34))%bool = false ->
  ":"%char <> c /\ "."%char <> c.
Proof. each_char c. Qed.

Lemma amp_spaces_free (c : ascii) :
  ((c =? "&")%char || Re.is_space c)%bool = false
  \/ In c (list_ascii_of_string " ") ->
  c <> "&"%char /\ (Re.is_space c = true -> c = " "%char).
Proof. each_char c. Qed.

Lemma normalized_char_intro (c : ascii) :
  Re.is_upper c = false ->
  c <> "&"%char /\ (Re.is_space c = true -> c = " "%char) ->
  (Re.one_of ".,;:!?" c || (Re.code c =? 34))%bool = false ->
  normalized_char c.
Proof. unfold normalized_char. each_char c. Qed.

(** After the first three substitutions the text has neither a colon nor
    a full stop. *)
Lemma punctuation_gone (t : string) :
  Forall (fun c => ":"%char <> c /\ "."%char <> c)
         (list_ascii_of_string
            (Re.sub Patterns.spaces " " (Re.sub Patterns.punctuation "" t))).
Proof.
  apply sub_Forall.
  - repeat constructor; discriminate.
  - eapply Forall_impl; [apply sub_class |].
    intros c Hc; apply punctuation_free; exact Hc.
Qed.

Lemma doi_prefix_needs_colon : needs (eq ":"%char) Patterns.doi_prefix.
Proof.
  unfold Patterns.doi_prefix.
  cbn [Re.seqs Re.word fold_right list_ascii_of_string].
  apply needs_left; do 3 apply needs_right. apply needs_left, needs_lit.
Qed.

Lemma url_needs_colon : needs (eq ":"%char) Patterns.url.
Proof.
  unfold Patterns.url.
  cbn [Re.seqs Re.word fold_right list_ascii_of_string].
  do 2 apply needs_right. do 2 apply needs_left. apply needs_lit.
Qed.

Lemma volume_needs_stop : needs (eq "."%char) Patterns.volume.
Proof.
  unfold Patterns.volume.
  cbn [Re.seqs Re.word fold_right list_ascii_of_string].
  apply needs_left; do 3 apply needs_right. apply needs_left, needs_lit.
Qed.

Lemma pages_needs_stop : needs (eq "."%char) Patterns.pages.
Proof.
  unfold Patterns.pages. cbn [Re.seqs fold_right].
  do 2 apply needs_right. apply needs_left, needs_lit.
Qed.

Lemma normalize_text_effective (text : string) :
  _normalize_text text
  = Py.strip
      (Re.sub Patterns.parenthetical ""
         (Re.sub Patterns.spaces " "
            (Re.sub Patterns.punctuation ""
               (Re.sub Patterns.amp_spaces " " (Py.lower text))))).
Proof.
  unfold _normalize_text; cbv zeta.
  pose proof (punctuation_gone
                (Re.sub Patterns.amp_spaces " " (Py.lower text))) as Hgone.
  set (t := Re.sub Patterns.spaces " " _) in *.
  assert (Hcolon : Forall (fun c => ":"%char <> c) (list_ascii_of_string t))
    by (eapply Forall_impl; [exact Hgone | intros c [H _]; exact H]).
  rewrite (sub_absent _ _ "" t doi_prefix_needs_colon Hcolon).
  rewrite (sub_absent _ _ "" t url_needs_colon Hcolon).
  set (u := Re.sub Patterns.parenthetical "" t).
  assert (Hstop : Forall (fun c => "."%char <> c) (list_ascii_of_string u)).
  { apply sub_Forall; [constructor |].
    eapply Forall_impl; [exact Hgone | intros c [_ H]; exact H]. }
  rewrite (sub_absent _ _ "" u volume_needs_stop Hstop).
  rewrite (sub_absent _ _ "" u pages_needs_stop Hstop).
  reflexivity.
Qed.

(** [X11] Four of the eight substitutions of [_normalize_text] never change
    anything: when they run, the punctuation is already gone, and the
    patterns for the [doi:] prefix, for URLs, for [vol.] and for [pp.] need
    a colon or a full stop.  The normalized text is the lower-cased text
    after the substitutions for ampersands and white space, for the
    punctuation, for runs of white space and for parentheses, stripped. *)
Theorem normalize_text_dead_substitutions (text : string) :
  _normalize_text text
  = Py.strip
      (Re.sub Patterns.parenthetical ""
         (Re.sub Patterns.spaces " "
            (Re.sub Patterns.punctuation ""
               (Re.sub Patterns.amp_spaces " " (Py.lower text))))).
Proof. exact (normalize_text_effective text). Qed.

(** [X12] The normalized text of a citation holds no upper-case letter, none of
    the characters [.,;:!?&] and no double quote; its only white space is
    the space character, and it neither starts nor ends with one. *)
Theorem normalized_text_alphabet (text : string) :
  Forall normalized_char (list_ascii_of_string (_normalize_text text))
  /\ stripped (_normalize_text text).
Proof.
  rewrite normalize_text_effective.
  split; [| apply strip_stripped].
  apply strip_Forall.
  apply sub_Forall; [constructor |].
  apply sub_Forall; [repeat constructor; vm_compute; congruence |].
  set (t1 := Re.sub Patterns.amp_spaces " " (Py.lower text)).
  assert (H1 : Forall (fun c => Re.is_upper c = false
                                /\ c <> "&"%char
                                /\ (Re.is_space c = true -> c = " "%char))
                      (list_ascii_of_string t1)).
  { apply Forall_and; split.
    - apply sub_Forall; [repeat constructor | apply lower_Forall].
    - eapply Forall_impl; [apply sub_plus_class |].
      intros c Hc; apply amp_spaces_free; exact Hc. }
  assert (H2 : Forall (fun c => (Re.is_upper c = false
                                 /\ c <> "&"%char
                                 /\ (Re.is_space c = true -> c = " "%char))
                                /\ (Re.one_of ".,;:!?" c
                                    || (Re.code c =? 34))%bool = false)
                      (list_ascii_of_string
                         (Re.sub Patterns.punctuation "" t1))).
  { apply Forall_and; split.
    - apply sub_Forall; [constructor | exact H1].
    - apply sub_class. }
  eapply Forall_impl; [exact H2 |].
  intros c [(Hu & Ha) Hp]. apply normalized_char_intro; assumption.
Qed.

(** ** [_normalize_string] *)

Lemma lower_char_ascii (c : ascii) :
  Re.code c < 128 -> Re.code (Re.lower_char c) < 128.
Proof.
  intros H. apply Nat.ltb_lt in H. apply Nat.ltb_lt. revert H.
  destruct c as [[] [] [] [] [] [] [] []]; vm_compute;
    intros H; first [reflexivity | discriminate H].
Qed.

Lemma sub_from_class_absent (cls : ascii -> bool) (repl : list ascii) :
  forall fuel s p i,
    Forall (fun c => cls c = false) s ->
    Re.sub_from fuel (Re.Chr cls) repl p s i = s.
Proof.
  intros fuel s p i H.
  apply (sub_from_absent (fun c => cls c = true)).
  - apply needs_chr. auto.
  - eapply Forall_impl; [exact H |]. intros c Hc; congruence.
Qed.

Lemma word_space_chars (c : ascii) :
  Re.is_upper c = false ->
  negb (Re.is_word c || Re.is_space c) = false ->
  normalized_string_char c.
Proof. unfold normalized_string_char. each_char c. Qed.

Lemma normalized_string_char_elim (c : ascii) :
  normalized_string_char c ->
  Re.is_upper c = false /\ negb (Re.is_word c || Re.is_space c) = false.
Proof. unfold normalized_string_char. each_char c. Qed.

Lemma normalize_string_chars (s : string) :
  Forall normalized_string_char (list_ascii_of_string (_normalize_string s)).
Proof.
  unfold _normalize_string. apply strip_Forall.
  eapply Forall_impl.
  - apply Forall_and; split.
    + apply sub_Forall; [constructor | apply lower_Forall].
    + apply sub_class.
  - intros c [Hu Hc]. apply word_space_chars; assumption.
Qed.

Lemma normalize_string_fixed (s : string) :
  Forall normalized_string_char (list_ascii_of_string s) -> stripped s ->
  _normalize_string s = s.
Proof.
  intros Hchars Hstripped. unfold _normalize_string.
  rewrite lower_id.
  - unfold Re.sub, Patterns.not_word_space.
    rewrite sub_from_class_absent.
    + rewrite string_of_list_ascii_of_string. apply strip_id, Hstripped.
    + eapply Forall_impl; [exact Hchars |].
      intros c Hc; apply normalized_string_char_elim, Hc.
  - eapply Forall_impl; [exact Hchars |].
    intros c Hc; apply normalized_string_char_elim, Hc.
Qed.

(** [X13] The character classes are those of the ASCII range, where they agree
    with Python's; [_normalize_string] is therefore described on the
    ASCII characters.  Every ASCII character of its
    result is a lower-case letter, a digit, an underscore or white space
    (no [A-Z], no ASCII punctuation), and for a string of ASCII characters
    these are all the characters of the result.  The result neither
    starts nor ends with white space, and [_normalize_string] leaves it as
    it is: normalizing twice is normalizing once. *)
Theorem normalize_string_idempotent (s : string) :
  Forall (fun c => Re.code c < 128 -> normalized_string_char c)
         (list_ascii_of_string (_normalize_string s))
  /\ (ascii_only s ->
      ascii_only (_normalize_string s)
      /\ Forall normalized_string_char
                (list_ascii_of_string (_normalize_string s)))
  /\ stripped (_normalize_string s)
  /\ _normalize_string (_normalize_string s) = _normalize_string s.
Proof.
  split.
  { eapply Forall_impl; [apply normalize_string_chars |].
    intros c Hc _; exact Hc. }
  split.
  { intros Hascii. split; [| apply normalize_string_chars].
    unfold _normalize_string, ascii_only. apply strip_Forall.
    apply sub_Forall; [constructor |].
    unfold Py.lower. rewrite list_ascii_of_string_of_list_ascii.
    apply Forall_map. eapply Forall_impl; [exact Hascii |].
    intros c Hc. apply lower_char_ascii, Hc. }
  split; [apply strip_stripped |].
  apply normalize_string_fixed;
    [apply normalize_string_chars | apply strip_stripped].
Qed.

Lemma normalize_string_idempotent_witness :
  _normalize_string "  Deep Nets: A Study (2nd ed.)! "
  = "deep nets a study 2nd ed"
  /\ Forall normalized_string_char
            (list_ascii_of_string
               (_normalize_string "  Deep Nets: A Study (2nd ed.)! ")).
Proof.
  split; [vm_compute; reflexivity |].
  refine (proj2 (proj1 (proj2 (normalize_string_idempotent
                                 "  Deep Nets: A Study (2nd ed.)! ")) _)).
  apply List.Forall_forall. intros c Hc. apply Nat.ltb_lt.
  revert c Hc. apply forallb_forall. vm_compute; reflexivity.
Defined.

(** ** The form of an extracted title *)

Section GroupIn.

Import Re.

Lemma sem_no_group (r : re) (st st' : state) :
  sem r st st' -> no_group r -> grp st' = grp st.
Proof.
  induction 1 as [st | p c s' st Hrest Hp | r1 r2 st m st' _ IH1 _ IH2
                 | r1 r2 st st' _ IH | r1 r2 st st' _ IH
                 | r st | r st m st' _ IH1 _ IH2
                 | r st | r st m st' _ IH1 _ IH2
                 | r st m _ IH | st Hb]; cbn [no_group]; intros Hno;
    try reflexivity.
  - rewrite IH2, IH1; tauto.
  - apply IH; tauto.
  - apply IH; tauto.
  - rewrite IH2, IH1; auto.
  - rewrite IH2, IH1; auto.
  - destruct Hno.
Qed.

Lemma group_in_sem (body r : re) (s : list ascii) :
  group_in body r ->
  forall st st',
    rest st = drop (pos st) s -> sem r st st' ->
    exists g m,
      sem body g m /\ grp st' = Some (pos g, pos m)
      /\ rest g = drop (pos g) s.
Proof.
  induction 1 as [| r1 r2 _ IH Hno | r1 r2 _ IH]; intros st st' Hst Hsem.
  - inversion Hsem as [| | | | | | | | | ? ? m' Hbody |]; subst.
    exists st, m'. auto.
  - inversion Hsem as [| | ? ? ? m ? H1 H2 | | | | | | | |]; subst.
    destruct (IH st m Hst H1) as (g & m' & Hbody & Hgrp & Hg).
    exists g, m'. split; [exact Hbody |]. split; [| exact Hg].
    rewrite (sem_no_group r2 m st' H2 Hno). exact Hgrp.
  - inversion Hsem as [| | ? ? ? m ? H1 H2 | | | | | | | |]; subst.
    apply (IH m st'); [| exact H2].
    eapply sem_in_text; eassumption.
Qed.

Lemma search_from_group_in (P : ascii -> Prop) (body r : re)
    (s : list ascii) :
  group_in body r -> all_chr P body ->
  forall t i p start e g,
    t = drop i s ->
    search_from r p t i = Some (start, (e, g)) ->
    exists gi gj, g = Some (gi, gj) /\ Forall P (take (gj - gi) (drop gi s)).
Proof.
  intros Hin Hall.
  assert (Hhere : forall p i e g,
             match_here r p (drop i s) i = Some (e, g) ->
             exists gi gj,
               g = Some (gi, gj) /\ Forall P (take (gj - gi) (drop gi s))).
  { intros p i e g Hmatch. unfold match_here in Hmatch.
    apply run_sound in Hmatch as (st' & Hsem & [= <- <-]).
    eapply group_in_sem in Hsem as (g0 & m & Hbody & Hgrp & Hg0);
      [| exact Hin | reflexivity].
    exists (pos g0), (pos m). split; [exact Hgrp |].
    destruct (sem_all_chr P body g0 m Hbody Hall) as (w & Hw & Hpos & HP).
    rewrite <- Hg0, Hpos, Hw.
    replace (pos g0 + length w - pos g0) with (length w) by lia.
    rewrite take_app_length. exact HP. }
  intros t; induction t as [| x t IH]; intros i p start e g Ht;
    cbn [search_from];
    destruct (match_here r p _ i) as [[e' g'] |] eqn:E;
    try discriminate.
  - intros [= <- <- <-]. rewrite Ht in E. eapply Hhere; exact E.
  - intros [= <- <- <-]. rewrite Ht in E. eapply Hhere; exact E.
  - apply IH.
    rewrite <- (Nat.add_1_r i), <- drop_drop, <- Ht. reflexivity.
Qed.

End GroupIn.

Lemma search_group1_in_chars (P : ascii -> Prop) (body r : Re.re)
    (text g : string) :
  group_in body r -> all_chr P body ->
  Re.search_group1 r text = Some g ->
  Forall P (list_ascii_of_string g).
Proof.
  intros Hin Hall; unfold Re.search_group1.
  destruct (Re.search_from r None (list_ascii_of_string text) 0)
    as [[start [e grp]] |] eqn:E; [| discriminate].
  eapply (search_from_group_in P body r (list_ascii_of_string text))
    in E as (gi & gj & -> & HP); [| assumption | assumption | reflexivity].
  intros [= <-]. unfold Re.slice.
  rewrite list_ascii_of_string_of_list_ascii. exact HP.
Qed.

Lemma quoted_chars (text g : string) :
  Re.search_group1 Patterns.quoted text = Some g ->
  Forall (fun c => Re.code c <> 34) (list_ascii_of_string g).
Proof.
  apply (search_group1_in_chars _
           (Re.plus (Re.Chr (fun c => negb (Re.code c =? 34))))).
  - unfold Patterns.quoted. cbn [Re.seqs fold_right].
    apply group_right, group_left; [apply group_here |].
    cbn [no_group]; tauto.
  - cbn [all_chr Re.plus].
    assert (H : forall c, negb (Re.code c =? 34) = true -> Re.code c <> 34)
      by (intros c Hc; apply Nat.eqb_neq, negb_true_iff, Hc).
    split; exact H.
Qed.

Lemma title_patterns_shape :
  Forall (group_in (Re.plus_lazy (Re.none_of "."))) Patterns.title_patterns.
Proof.
  unfold Patterns.title_patterns, Patterns.title_lead.
  repeat apply List.Forall_cons; [| | apply List.Forall_nil];
    cbn [Re.seqs fold_right];
    (apply group_left;
     [do 2 apply group_right; apply group_left;
      [apply group_here | exact I]
     | cbn; tauto]).
Qed.

Lemma first_title_form (patterns : list Re.re) (text t : string) :
  Forall (group_in (Re.plus_lazy (Re.none_of "."))) patterns ->
  first_title patterns text = Some t ->
  10 < String.length t
  /\ Forall (fun c => c <> "."%char) (list_ascii_of_string t).
Proof.
  induction 1 as [| r patterns Hin _ IH]; simpl; [discriminate |].
  destruct (Re.search_group1 r text) as [g |] eqn:E; [| exact IH].
  destruct (10 <? String.length (Py.strip g)) eqn:Hlen; [| exact IH].
  intros [= <-]. split; [apply Nat.ltb_lt, Hlen |].
  apply strip_Forall.
  eapply search_group1_in_chars; [exact Hin | | exact E].
  cbn [all_chr Re.plus_lazy Re.none_of].
  assert (H : forall c, negb (Re.one_of "." c) = true -> c <> "."%char)
    by (intros c Hc ->; discriminate Hc).
  split; exact H.
Qed.

(** [X14] A title found by [_extract_title] never starts or ends with white
    space.  It is the stripped inside of the first quoted part of the
    text, and then holds no double quote (no length is asked for: it may
    be empty); or the text has no quoted part, and the title has more than
    ten characters and no full stop. *)
Theorem extracted_title_form (text t : string) :
  _extract_title text = Some t ->
  stripped t /\ (quoted_title text t \/ guessed_title text t).
Proof.
  unfold _extract_title, quoted_title, guessed_title.
  destruct (Re.search_group1 Patterns.quoted text) as [g |] eqn:E.
  - intros [= <-]. split; [apply strip_stripped |]. left.
    exists g. split; [reflexivity |]. split; [reflexivity |].
    apply strip_Forall, (quoted_chars text), E.
  - intros Ht. split.
    + revert Ht. generalize Patterns.title_patterns as ps.
      induction ps as [| r ps IH]; simpl; [discriminate |].
      destruct (Re.search_group1 r text) as [g |]; [| exact IH].
      destruct (10 <? String.length (Py.strip g)); [| exact IH].
      intros [= <-]; apply strip_stripped.
    + right. split; [reflexivity |].
      eapply first_title_form; [apply title_patterns_shape | exact Ht].
Qed.

Lemma extracted_title_form_witness :
  _extract_title "Kaya, M. Deep neural networks for graphs (2020)"
  = Some "Deep neural networks for graphs"
  /\ stripped "Deep neural networks for graphs".
Proof.
  split; [vm_compute; reflexivity |].
  refine (proj1 (extracted_title_form
            "Kaya, M. Deep neural networks for graphs (2020)"
            "Deep neural networks for graphs" _)).
  vm_compute; reflexivity.
Defined.

(** ** The score lies between 0 and 1 *)

Section Window.

Import Difflib.

Variables (a b : list ascii) (alo ahi blo bhi : nat).

Lemma j2len_get_bound (i : nat) (m : list (nat * nat)) (j : nat) :
  Forall (run_entry alo blo i) m ->
  j2len_get m j = 0
  \/ (blo <= j /\ j2len_get m j + blo <= S j /\ j2len_get m j + alo <= i).
Proof.
  induction 1 as [| [j' k] m (Hj & Hk & Hi) _ IH]; simpl; [left; reflexivity |].
  destruct (j' =? j) eqn:E; [| exact IH].
  apply Nat.eqb_eq in E; subst j'. right. simpl in *. lia.
Qed.

Lemma scan_js_inside (i : nat) (j2len : list (nat * nat)) :
  alo <= i -> i < ahi ->
  Forall (run_entry alo blo i) j2len ->
  forall js newj2len best,
    Forall (run_entry alo blo (S i)) newj2len ->
    inside alo ahi blo bhi best ->
    Forall (run_entry alo blo (S i))
           (fst (scan_js i blo bhi j2len js newj2len best))
    /\ inside alo ahi blo bhi
              (snd (scan_js i blo bhi j2len js newj2len best)).
Proof.
  intros Hlo Hhi Hj2len js; induction js as [| j js IH];
    intros newj2len best Hnew Hbest; cbn [scan_js]; [auto |].
  destruct (j <? blo) eqn:Hjlo; [apply IH; assumption |].
  destruct (bhi <=? j) eqn:Hjhi; [auto |].
  apply Nat.ltb_ge in Hjlo. apply Nat.leb_gt in Hjhi.
  destruct best as [[besti bestj] bestsize].
  set (k := S match j with 0 => 0 | S j' => j2len_get j2len j' end).
  assert (Hk : k + blo <= S j /\ k + alo <= S i).
  { subst k. destruct j as [| j']; [lia |].
    destruct (j2len_get_bound i j2len j' Hj2len) as [-> | H]; lia. }
  apply IH.
  - constructor; [| exact Hnew]. unfold run_entry; simpl. lia.
  - destruct (bestsize <? k); [| exact Hbest]. unfold inside. lia.
Qed.

Lemma scan_is_inside (n : nat) :
  forall i j2len best,
    alo <= i -> i + n <= ahi ->
    Forall (run_entry alo blo i) j2len ->
    inside alo ahi blo bhi best ->
    inside alo ahi blo bhi (scan_is a b n i blo bhi j2len best).
Proof.
  induction n as [| n IH]; intros i j2len best Hlo Hhi Hj2len Hbest;
    cbn [scan_is]; [exact Hbest |].
  match goal with
  | |- context [scan_js i blo bhi j2len ?js [] best] =>
      pose proof (scan_js_inside i j2len Hlo ltac:(lia) Hj2len js [] best
                    (List.Forall_nil _) Hbest) as [Hnew Hbest'];
      destruct (scan_js i blo bhi j2len js [] best) as [newj2len best']
  end.
  apply IH; [lia | lia | exact Hnew | exact Hbest'].
Qed.

Lemma extend_left_inside (fuel : nat) :
  forall m,
    inside alo ahi blo bhi m ->
    inside alo ahi blo bhi (extend_left a b fuel alo blo m).
Proof.
  induction fuel as [| fuel IH]; intros [[i j] k] Hm; cbn [extend_left];
    [exact Hm |].
  destruct ((alo <? i) && (blo <? j) && same_at a b (i - 1) (j - 1)) eqn:E;
    [| exact Hm].
  apply andb_true_iff in E as [E _]. apply andb_true_iff in E as [Hi Hj].
  apply Nat.ltb_lt in Hi, Hj. apply IH. unfold inside in *. lia.
Qed.

Lemma extend_right_inside (fuel : nat) :
  forall m,
    inside alo ahi blo bhi m ->
    inside alo ahi blo bhi (extend_right a b fuel ahi bhi m).
Proof.
  induction fuel as [| fuel IH]; intros [[i j] k] Hm; cbn [extend_right];
    [exact Hm |].
  destruct ((i + k <? ahi) && (j + k <? bhi) && same_at a b (i + k) (j + k))
    eqn:E; [| exact Hm].
  apply andb_true_iff in E as [E _]. apply andb_true_iff in E as [Hi Hj].
  apply Nat.ltb_lt in Hi, Hj. apply IH. unfold inside in *. lia.
Qed.

(** The longest match of a window lies inside the window. *)
Lemma find_longest_match_inside :
  alo <= ahi -> blo <= bhi ->
  inside alo ahi blo bhi (find_longest_match a b alo ahi blo bhi).
Proof.
  intros Ha Hb. unfold find_longest_match.
  apply extend_right_inside, extend_left_inside, scan_is_inside;
    [lia | lia | constructor | unfold inside; lia].
Qed.

End Window.

(** The matching blocks of a window do not overlap: their sizes add up to
    no more than either side of the window. *)
Lemma matches_in_bound (a b : list ascii) (fuel : nat) :
  forall alo ahi blo bhi,
    alo <= ahi -> blo <= bhi ->
    Difflib.matches_in a b fuel alo ahi blo bhi + alo <= ahi
    /\ Difflib.matches_in a b fuel alo ahi blo bhi + blo <= bhi.
Proof.
  induction fuel as [| fuel IH]; intros alo ahi blo bhi Ha Hb;
    cbn [Difflib.matches_in]; [lia |].
  pose proof (find_longest_match_inside a b alo ahi blo bhi Ha Hb) as Hin.
  destruct (Difflib.find_longest_match a b alo ahi blo bhi) as [[i j] k].
  unfold inside in Hin.
  destruct (k =? 0); [lia |].
  assert (Hleft :
            (if (alo <? i) && (blo <? j)
             then Difflib.matches_in a b fuel alo i blo j else 0) + alo <= i
            /\ (if (alo <? i) && (blo <? j)
                then Difflib.matches_in a b fuel alo i blo j else 0) + blo
               <= j).
  { destruct ((alo <? i) && (blo <? j)); [apply IH; lia | lia]. }
  assert (Hright :
            (if (i + k <? ahi) && (j + k <? bhi)
             then Difflib.matches_in a b fuel (i + k) ahi (j + k) bhi
             else 0) + (i + k) <= ahi
            /\ (if (i + k <? ahi) && (j + k <? bhi)
                then Difflib.matches_in a b fuel (i + k) ahi (j + k) bhi
                else 0) + (j + k) <= bhi).
  { destruct ((i + k <? ahi) && (j + k <? bhi)); [apply IH; lia | lia]. }
  lia.
Qed.

Lemma matches_bound (a b : list ascii) :
  2 * Difflib.matches a b <= length a + length b.
Proof.
  unfold Difflib.matches.
  pose proof (matches_in_bound a b (S (length a)) 0 (length a) 0 (length b)
                ltac:(lia) ltac:(lia)).
  lia.
Qed.

(** [ratio()] is a number between 0 and 1. *)
Lemma ratio_range (x y : string) :
  (0 <= Difflib.ratio x y <= 1)%Q.
Proof.
  unfold Difflib.ratio, Difflib._calculate_ratio.
  pose proof (matches_bound (list_ascii_of_string x)
                (list_ascii_of_string y)) as Hm.
  set (m := Difflib.matches _ _) in *.
  set (len := length _ + length _) in *.
  destruct (len =? 0) eqn:E; [split; discriminate |].
  apply Nat.eqb_neq in E.
  unfold Qle; cbn [Qnum Qden].
  assert (Hden : Zpos (Pos.of_nat len) = Z.of_nat len).
  { rewrite <- positive_nat_Z, Nat2Pos.id by exact E. reflexivity. }
  rewrite Hden. split; lia.
Qed.

Lemma min1_range (x : Q) : (0 <= x)%Q -> (0 <= Py.min1 x <= 1)%Q.
Proof.
  intros Hx. unfold Py.min1.
  destruct (Qle_bool 1 x) eqn:E; [split; discriminate |].
  split; [exact Hx |].
  apply Qlt_le_weak, Qnot_le_lt. intros H.
  apply Qle_bool_iff in H. congruence.
Qed.

Lemma similarity_score_range (self other : Citation) :
  (0 <= similarity_score self other <= 1)%Q.
Proof.
  rewrite similarity_score_rules.
  destruct (doi_rule self other); [split; discriminate |].
  destruct (title_rule self other); [split; discriminate |].
  pose proof (ratio_range (normalized_text self) (normalized_text other))
    as [H0 H1].
  destruct (_ && _ && _); [| split; assumption].
  apply min1_range.
  apply Qle_trans with (1 := H0).
  rewrite <- (Qplus_0_r (Difflib.ratio _ _)) at 1.
  apply Qplus_le_r. discriminate.
Qed.

(** [X15] The similarity score of two citations lies between 0 and 1, whatever
    rule gives it: the sizes of the matching blocks that [ratio()] adds up
    never exceed the shorter text, and the bonus for equal years is capped
    at 1. *)
Theorem similarity_score_in_unit_interval (self other : Citation) :
  (0 <= similarity_score self other <= 1)%Q.
Proof. exact (similarity_score_range self other). Qed.

(** [X16] With a threshold of 0 or less every citation is a duplicate of every
    other, so the near-duplicate pass keeps one citation of a non-empty
    list; with a threshold above 1 no pair is a duplicate. *)
Theorem threshold_outside_unit_interval (config : AnalysisConfig) :
  ((similarity_threshold config <= 0)%Q ->
   (forall self other,
       is_duplicate_of self other (similarity_threshold config) = true)
   /\ (forall c cs removed,
          length (fst (_remove_similar_duplicates config (c :: cs) removed))
          = 1))
  /\ ((1 < similarity_threshold config)%Q ->
      forall self other,
        is_duplicate_of self other (similarity_threshold config) = false).
Proof.
  split.
  - intros Hth.
    assert (Hdup : forall self other,
               is_duplicate_of self other (similarity_threshold config)
               = true).
    { intros self other. apply is_duplicate_of_iff.
      apply Qle_trans with (1 := Hth), similarity_score_range. }
    split; [exact Hdup |].
    intros c cs removed. unfold _remove_similar_duplicates.
    cbn [fold_left]. rewrite similar_step_fresh by reflexivity.
    simpl app.
    assert (Hone : forall cs st,
               length (fst st) = 1 ->
               length (fst (fold_left (similar_step config) cs st)) = 1).
    { clear cs. intros cs; induction cs as [| x cs IH]; intros st Hst;
        cbn [fold_left]; [exact Hst |].
      apply IH. destruct st as [[| u [| u' us]] rem]; try discriminate.
      rewrite (similar_step_match config [u] rem x u)
        by (cbn [List.find]; rewrite Hdup; reflexivity).
      destruct (_should_replace config u x); cbn [fst]; [| reflexivity].
      cbn [list_remove]. rewrite bool_decide_eq_true_2 by reflexivity.
      reflexivity. }
    apply Hone. reflexivity.
  - intros Hth self other.
    destruct (is_duplicate_of self other (similarity_threshold config))
      eqn:E; [| reflexivity].
    apply is_duplicate_of_iff in E.
    pose proof (similarity_score_range self other) as [_ H1].
    exfalso. apply (Qlt_not_le _ _ Hth).
    apply Qle_trans with (1 := E), H1.
Qed.

Lemma threshold_outside_unit_interval_witness :
  length
    (fst (_remove_similar_duplicates MoreSamples.lenient
            [Samples.tide; Samples.diet] []))
  = 1.
Proof.
  refine (proj2 (proj1 (threshold_outside_unit_interval MoreSamples.lenient)
                   _)
                Samples.tide [Samples.diet] []).
  vm_compute; discriminate.
Defined.

(** ** The nested dictionary as a list of entries *)

Lemma concat_map_Permutation {A B : Type} (f : A -> list B) (l1 l2 : list A) :
  Permutation l1 l2 -> Permutation (concat (map f l1)) (concat (map f l2)).
Proof.
  induction 1 as [| x l1 l2 _ IH | x y l | l1 l2 l3 _ IH1 _ IH2]; simpl.
  - constructor.
  - apply Permutation_app_head, IH.
  - rewrite !app_assoc. apply Permutation_app_tail, Permutation_app_comm.
  - etransitivity; eassumption.
Qed.

Section Entries.

Context {V : Type}.

Lemma year_entries_dict_append (y : Z) (v : V) (years : list (Z * list V)) :
  Permutation (year_entries (dict_append Z.eqb y v years))
              (year_entries years ++ [(y, v)]).
Proof.
  unfold year_entries.
  induction years as [| [y' vs] years IH]; simpl; [reflexivity |].
  destruct (Z.eqb y' y) eqn:E; simpl.
  - apply Z.eqb_eq in E; subst y'.
    rewrite map_app; simpl. rewrite <- !app_assoc.
    apply Permutation_app_head. apply Permutation_app_comm.
  - rewrite <- app_assoc. apply Permutation_app_head, IH.
Qed.

Lemma entries_organized_append (cat : string) (y : Z) (v : V)
    (d : list (string * list (Z * list V))) :
  Permutation (entries (organized_append cat y v d))
              (entries d ++ [(cat, y, v)]).
Proof.
  unfold entries.
  induction d as [| [k years] d IH]; simpl; [reflexivity |].
  destruct (String.eqb k cat) eqn:E; simpl.
  - apply String.eqb_eq in E; subst k.
    rewrite <- app_assoc.
    etransitivity;
      [| apply Permutation_app_head, Permutation_app_comm].
    rewrite app_assoc. apply Permutation_app_tail.
    change [(cat, y, v)]
      with (map (fun '(y0, v0) => (cat, y0, v0)) [(y, v)]).
    rewrite <- map_app. apply Permutation_map, year_entries_dict_append.
  - rewrite <- app_assoc. apply Permutation_app_head, IH.
Qed.

Lemma insert_desc_Permutation {W : Type} (kv : Z * W) (l : list (Z * W)) :
  Permutation (insert_desc kv l) (kv :: l).
Proof.
  induction l as [| kv' l IH]; simpl; [reflexivity |].
  destruct (fst kv' <? fst kv)%Z; [reflexivity |].
  rewrite IH. apply perm_swap.
Qed.

Lemma sorted_desc_Permutation {W : Type} (items : list (Z * W)) :
  Permutation (sorted_desc items) items.
Proof.
  unfold sorted_desc.
  assert (H : forall acc,
             Permutation
               (fold_left (fun acc kv => insert_desc kv acc) items acc)
               (items ++ acc)).
  { induction items as [| kv items IH]; intros acc; simpl; [reflexivity |].
    rewrite IH, insert_desc_Permutation. symmetry. apply Permutation_middle. }
  rewrite H, app_nil_r. reflexivity.
Qed.

Lemma entries_sort_years (d : list (string * list (Z * list V))) :
  Permutation (entries (sort_years d)) (entries d).
Proof.
  unfold entries, sort_years.
  induction d as [| [cat years] d IH]; simpl; [reflexivity |].
  apply Permutation_app; [| exact IH].
  apply Permutation_map. unfold year_entries.
  apply concat_map_Permutation, sorted_desc_Permutation.
Qed.

(** The number of entries is what the reports add up: the lengths of the
    lists under the years of the categories. *)
Lemma entries_length (d : list (string * list (Z * list V))) :
  length (entries d)
  = list_sum (map (fun '(_, years) =>
                     list_sum (map (fun '(_, vs) => length vs) years))
                  d).
Proof.
  unfold entries.
  induction d as [| [cat years] d IH]; simpl; [reflexivity |].
  rewrite length_app, IH, length_map. f_equal.
  unfold year_entries.
  induction years as [| [y vs] years IHy]; simpl; [reflexivity |].
  rewrite length_app, length_map, IHy. reflexivity.
Qed.

End Entries.

Lemma option_list_omap {A B : Type} (f : A -> option B) (x : A)
    (l : list A) :
  omap f (x :: l)
  = match f x with Some y => y :: omap f l | None => omap f l end.
Proof. reflexivity. Qed.

Lemma organize_fold_entries (cs : list Citation) (d : Organized) :
  Permutation (entries (fold_left organize_step cs d))
              (entries d ++ omap dated cs).
Proof.
  revert d; induction cs as [| c cs IH]; intros d; cbn [fold_left].
  - simpl. rewrite app_nil_r. reflexivity.
  - rewrite IH, option_list_omap. unfold organize_step, dated.
    destruct (year c) as [y |]; [| reflexivity].
    destruct (Py.truthy_int (Some y)); [| reflexivity].
    rewrite entries_organized_append, <- app_assoc. reflexivity.
Qed.

Lemma organize_entries (cs : list Citation) :
  Permutation (entries (_organize_citations cs)) (omap dated cs).
Proof.
  unfold _organize_citations.
  rewrite entries_sort_years, organize_fold_entries. reflexivity.
Qed.

(** Without a citation that has a year nothing is organized. *)
Lemma organize_nothing (cs : list Citation) :
  (forall c, In c cs -> Py.truthy_int (year c) = false) ->
  _organize_citations cs = [].
Proof.
  intros H. unfold _organize_citations.
  assert (E : fold_left organize_step cs [] = []); [| rewrite E; reflexivity].
  induction cs as [| c cs IH]; cbn [fold_left]; [reflexivity |].
  unfold organize_step at 2.
  rewrite (H c) by (left; reflexivity).
  destruct (year c); apply IH; intros c' Hc'; apply H; right; exact Hc'.
Qed.

(** ** The rows of the CSV file *)

Lemma save_to_csv_entries (translations : Translations) (self : Analyzer)
    (language : string) :
  save_to_csv translations self language
  = map (fun '(cat, y, c) =>
           (get_category_name translations cat language, y, author c,
            text c))
        (entries (organized_data self)).
Proof.
  unfold save_to_csv, entries.
  induction (organized_data self) as [| [cat years] d IH]; simpl;
    [reflexivity |].
  rewrite map_app, IH. f_equal.
  rewrite map_map. unfold year_entries.
  induction years as [| [y vs] years IHy]; simpl; [reflexivity |].
  rewrite map_app, IHy, !map_map. reflexivity.
Qed.

Lemma csv_rows_of_dated (translations : Translations) (language : string)
    (cs : list Citation) :
  map (fun '(cat, y, c) =>
         (get_category_name translations cat language, y, author c, text c))
      (omap dated cs)
  = omap (csv_row translations language) cs.
Proof.
  induction cs as [| c cs IH]; [reflexivity |].
  rewrite !option_list_omap. unfold csv_row at 1.
  assert (Hd : forall cat y c', dated c = Some (cat, y, c') -> c' = c).
  { unfold dated. intros cat y c'. destruct (year c); [| discriminate].
    destruct (Py.truthy_int _); [| discriminate]. intros [= _ _ <-].
    reflexivity. }
  destruct (dated c) as [[[cat y] c'] |] eqn:E; [| exact IH].
  rewrite (Hd cat y c' eq_refl). simpl. rewrite IH. reflexivity.
Qed.

Lemma csv_rows_organized (translations : Translations) (language : string)
    (cs : list Citation) (ledger : list DuplicatePair) :
  Permutation
    (save_to_csv translations
       (mkAnalyzer cs ledger (_organize_citations cs)) language)
    (omap (csv_row translations language) cs).
Proof.
  rewrite save_to_csv_entries, <- csv_rows_of_dated. cbn [organized_data].
  apply Permutation_map, organize_entries.
Qed.

(** [X17] After a run with the duplicate detection enabled the CSV file has one
    row for each surviving citation that has a year, with the name of its
    category, its year, its author and its text, and no other row: a
    citation without a year is not exported. *)
Theorem csv_has_one_row_per_dated_citation (config : AnalysisConfig)
    (faculty_data : list Faculty) (a : Analyzer)
    (translations : Translations) (language : string) :
  load_data config (Loaded faculty_data) = Returns a ->
  enable_duplicate_detection config = true ->
  Permutation (save_to_csv translations a language)
              (omap (csv_row translations language) (citations a))
  /\ length (save_to_csv translations a language)
     = length (List.filter (fun c => Py.truthy_int (year c)) (citations a)).
Proof.
  rewrite load_data_loaded. intros [= <-] ->.
  pose proof (organized_by_run config (parsed faculty_data)) as Horg.
  revert Horg.
  generalize (_remove_duplicates config (parsed faculty_data)) as a.
  intros [cs ledger organized]; cbn [citations organized_data]; intros ->.
  pose proof (csv_rows_organized translations language cs ledger) as Hperm.
  split; [exact Hperm |].
  rewrite (Permutation_length Hperm). clear Hperm.
  induction cs as [| c cs IH]; [reflexivity |].
  rewrite option_list_omap. cbn [List.filter].
  unfold csv_row at 1, dated.
  destruct (year c) as [y |]; [| exact IH].
  destruct (Py.truthy_int (Some y)); [| exact IH].
  simpl. rewrite IH. reflexivity.
Qed.

Lemma csv_has_one_row_per_dated_citation_witness :
  length
    (save_to_csv MoreSamples.translations
       (_remove_duplicates Samples.keep_first
          (parsed (Samples.one_author ["tide"; "Smith (2020) short."])))
       "en")
  = length
      (List.filter (fun c => Py.truthy_int (year c))
         (citations
            (_remove_duplicates Samples.keep_first
               (parsed
                  (Samples.one_author ["tide"; "Smith (2020) short."]))))).
Proof.
  refine (proj2 (csv_has_one_row_per_dated_citation Samples.keep_first
                   (Samples.one_author ["tide"; "Smith (2020) short."])
                   _ MoreSamples.translations "en" _ _));
    reflexivity.
Defined.

(** ** The statistics *)

Lemma category_statistics_cases (years : list (Z * list Citation)) :
  (years = []
   /\ category_statistics years = Value (mkCategoryStatistics 0 [] None))
  \/ (years <> [] /\ category_statistics years = RaisesTypeError).
Proof.
  destruct years as [| [y cs] years]; [left | right]; split;
    try reflexivity; discriminate.
Qed.

Lemma categories_statistics_raises (organized : Organized) :
  forall categories,
    categories_statistics organized categories = RaisesTypeError
    <-> Exists (fun e => snd e <> []) organized.
Proof.
  induction organized as [| [cat years] organized IH]; intros categories;
    cbn [categories_statistics].
  - split; [discriminate | intros H; inversion H].
  - destruct (category_statistics_cases years) as [[-> ->] | [Hne ->]].
    + rewrite IH. split; [intros H; right; exact H |].
      intros H; inversion H as [? ? Hhd | ? ? Htl]; subst;
        [destruct Hhd; reflexivity | exact Htl].
    + split; [intros _; left; exact Hne | reflexivity].
Qed.

Lemma categories_statistics_value (organized : Organized) :
  forall categories result,
    categories_statistics organized categories = Value result ->
    result
    = categories
      ++ map (fun e => (fst e, mkCategoryStatistics 0 [] None)) organized.
Proof.
  induction organized as [| [cat years] organized IH];
    intros categories result; cbn [categories_statistics].
  - intros [= <-]. simpl. rewrite app_nil_r. reflexivity.
  - destruct (category_statistics_cases years) as [[-> ->] | [Hne ->]];
      [| discriminate].
    intros H. apply IH in H. rewrite H, <- app_assoc. reflexivity.
Qed.

Lemma generate_statistics_raises (config : AnalysisConfig)
    (self : Analyzer) :
  generate_statistics config self = RaisesTypeError
  <-> Exists (fun e => snd e <> []) (organized_data self).
Proof.
  rewrite <- (categories_statistics_raises (organized_data self) []).
  unfold generate_statistics.
  destruct (categories_statistics (organized_data self) []);
    [| split; reflexivity].
  destruct (fold_left count_step (citations self) ([], [])).
  split; discriminate.
Qed.

Lemma entries_category {V : Type} (d : list (string * list (Z * list V)))
    (x : string * Z * V) :
  In x (entries d) -> Exists (fun e => snd e <> []) d.
Proof.
  unfold entries. intros H.
  apply in_concat in H as (l & Hl & Hx).
  apply in_map_iff in Hl as ([cat years] & <- & Hin).
  apply Exists_exists. exists (cat, years).
  split; [apply list_elem_of_In; exact Hin |].
  simpl. intros ->. destruct Hx.
Qed.

Lemma organized_has_years (cs : list Citation) :
  Exists (fun e => snd e <> []) (_organize_citations cs)
  <-> exists c, In c cs /\ Py.truthy_int (year c) = true.
Proof.
  split.
  - intros H.
    destruct (existsb (fun c => Py.truthy_int (year c)) cs) eqn:E.
    + apply existsb_exists in E. exact E.
    + rewrite organize_nothing in H; [inversion H |].
      intros c Hc.
      destruct (Py.truthy_int (year c)) eqn:Ec; [| reflexivity].
      rewrite <- E. symmetry. apply existsb_exists. exists c; auto.
  - intros (c & Hc & Ht).
    assert (Hd : exists x, dated c = Some x).
    { unfold dated. destruct (year c) as [y |]; [| discriminate Ht].
      rewrite Ht. eexists; reflexivity. }
    destruct Hd as (x & Hx).
    apply (entries_category _ x).
    apply (Permutation_in _ (Permutation_sym (organize_entries cs))).
    apply list_elem_of_In, list_elem_of_omap.
    exists c. split; [apply list_elem_of_In; exact Hc | exact Hx].
Qed.

(** [X18] [generate_statistics] raises [TypeError] as soon as a category has a
    year: [dict(years.keys())] is given the integer keys where [dict]
    wants pairs.  After a run with the duplicate detection enabled that
    is the case exactly when a surviving citation has a year. *)
Theorem generate_statistics_type_error :
  (forall config self,
      generate_statistics config self = RaisesTypeError
      <-> Exists (fun e => snd e <> []) (organized_data self))
  /\ (forall config faculty_data a,
         load_data config (Loaded faculty_data) = Returns a ->
         enable_duplicate_detection config = true ->
         (generate_statistics config a = RaisesTypeError
          <-> exists c, In c (citations a)
                        /\ Py.truthy_int (year c) = true)).
Proof.
  split; [exact generate_statistics_raises |].
  intros config faculty_data a. rewrite load_data_loaded.
  intros [= <-] ->.
  rewrite generate_statistics_raises, organized_by_run.
  apply organized_has_years.
Qed.

Lemma generate_statistics_type_error_witness :
  generate_statistics Samples.keep_first
    (_remove_duplicates Samples.keep_first
       (parsed (Samples.one_author ["tide"; "Smith (2020) short."])))
  = RaisesTypeError.
Proof.
  refine (proj2 (proj2 generate_statistics_type_error Samples.keep_first
                   (Samples.one_author ["tide"; "Smith (2020) short."])
                   _ _ _) _); [reflexivity | reflexivity |].
  exists Samples.short. split; vm_compute; [| reflexivity].
  right; left; reflexivity.
Defined.

Lemma filter_split_length {A : Type} (f : A -> bool) (l : list A) :
  length (List.filter f l) + length (List.filter (fun x => negb (f x)) l)
  = length l.
Proof.
  induction l as [| x l IH]; simpl; [reflexivity |].
  destruct (f x); simpl; lia.
Qed.

Lemma counter_add_sum {K : Type} (eqb : K -> K -> bool) (k : K)
    (d : list (K * nat)) :
  list_sum (map snd (counter_add eqb k d)) = S (list_sum (map snd d)).
Proof.
  induction d as [| [k' n] d IH]; simpl; [reflexivity |].
  destruct (eqb k' k); simpl; [reflexivity |]. rewrite IH. lia.
Qed.

Lemma count_step_sums (cs : list Citation) :
  forall st,
    list_sum (map snd (fst (fold_left count_step cs st)))
    = list_sum (map snd (fst st))
      + length (List.filter (fun c => Py.truthy_int (year c)) cs)
    /\ list_sum (map snd (snd (fold_left count_step cs st)))
       = list_sum (map snd (snd st)) + length cs.
Proof.
  induction cs as [| c cs IH]; intros [years authors]; cbn [fold_left].
  - simpl. lia.
  - destruct (IH (count_step (years, authors) c)) as [-> ->].
    unfold count_step; cbn [fst snd List.filter].
    rewrite counter_add_sum.
    destruct (year c) as [y |]; cbn [Py.truthy_int].
    + destruct (negb (y =? 0)%Z); simpl; [rewrite counter_add_sum |]; lia.
    + simpl. lia.
Qed.

(** [X19] When [generate_statistics] returns, its counts add up: the citations
    with and without a year make up the total, the counts of the years add
    up to the citations with a year and the counts of the authors to the
    total; no category is reported with a citation or a year range; and
    the duplicate information is missing exactly when the detection is
    disabled. *)
Theorem returned_statistics_add_up (config : AnalysisConfig)
    (self : Analyzer) (s : Statistics) :
  generate_statistics config self = Value s ->
  total_citations s = length (citations self)
  /\ citations_with_years s + citations_without_years s = total_citations s
  /\ list_sum (map snd (stat_years s)) = citations_with_years s
  /\ list_sum (map snd (stat_authors s)) = total_citations s
  /\ stat_categories s
     = map (fun e => (fst e, mkCategoryStatistics 0 [] None))
           (organized_data self)
  /\ (duplicate_info s = None <-> enable_duplicate_detection config = false).
Proof.
  unfold generate_statistics.
  destruct (categories_statistics (organized_data self) []) as [cats |] eqn:E;
    [| discriminate].
  apply categories_statistics_value in E. simpl in E.
  pose proof (count_step_sums (citations self) ([], [])) as [Hy Ha].
  destruct (fold_left count_step (citations self) ([], []))
    as [years authors].
  intros [= <-]. cbn [total_citations citations_with_years
                     citations_without_years stat_years stat_authors
                     stat_categories duplicate_info fst snd] in *.
  split; [reflexivity |]. split; [apply filter_split_length |].
  split; [exact Hy |]. split; [exact Ha |]. split; [exact E |].
  unfold get_duplicate_statistics.
  destruct (enable_duplicate_detection config); simpl;
    split; intros; congruence.
Qed.

Lemma returned_statistics_add_up_witness :
  total_citations
    (mkStatistics 2 0 2 [] [] [("A", 2)] None)
  = length (citations (parsed (Samples.one_author ["tide"; "diet"]))).
Proof.
  refine (proj1 (returned_statistics_add_up MoreSamples.detection_off
                   (parsed (Samples.one_author ["tide"; "diet"]))
                   (mkStatistics 2 0 2 [] [] [("A", 2)] None) _)).
  vm_compute; reflexivity.
Defined.

(** [X20] With the duplicate detection disabled the citations are parsed and
    counted but never organized: [_organize_citations] only runs inside
    [_remove_duplicates].  The CSV file then has no row, whatever the
    input, and the statistics report the total without any category. *)
Theorem disabled_detection_exports_nothing (config : AnalysisConfig)
    (faculty_data : list Faculty) (a : Analyzer)
    (translations : Translations) (language : string) :
  enable_duplicate_detection config = false ->
  load_data config (Loaded faculty_data) = Returns a ->
  citations a = _parse_citations faculty_data
  /\ organized_data a = []
  /\ save_to_csv translations a language = []
  /\ exists s,
      generate_statistics config a = Value s
      /\ total_citations s = length (_parse_citations faculty_data)
      /\ stat_categories s = []
      /\ duplicate_info s = None.
Proof.
  intros Hoff. rewrite load_data_loaded, Hoff. intros [= <-].
  split; [reflexivity |]. split; [reflexivity |]. split; [reflexivity |].
  unfold generate_statistics, parsed; cbn [organized_data citations
                                            categories_statistics].
  destruct (fold_left count_step (_parse_citations faculty_data) ([], []))
    as [years authors].
  eexists. split; [reflexivity |].
  cbn [total_citations stat_categories duplicate_info].
  split; [reflexivity |]. split; [reflexivity |].
  unfold get_duplicate_statistics. rewrite Hoff. reflexivity.
Qed.

Lemma disabled_detection_exports_nothing_witness :
  citations (parsed (Samples.one_author ["tide"; "Smith (2020) short."]))
  = _parse_citations (Samples.one_author ["tide"; "Smith (2020) short."])
  /\ save_to_csv MoreSamples.translations
       (parsed (Samples.one_author ["tide"; "Smith (2020) short."])) "en"
     = [].
Proof.
  destruct (disabled_detection_exports_nothing MoreSamples.detection_off
              (Samples.one_author ["tide"; "Smith (2020) short."])
              (parsed (Samples.one_author ["tide"; "Smith (2020) short."]))
              MoreSamples.translations "en" eq_refl eq_refl)
    as (H1 & _ & H3 & _).
  split; [exact H1 | exact H3].
Defined.

(** ** The outputs of [citation_analyzer.py] *)

Section Legacy.

Import citation_analyzer.

Lemma add_citation_entries (name cat : string)
    (organized : list (string * list (Z * list Entry))) (t : string) :
  Permutation (entries (add_citation name cat organized t))
              (entries organized ++ omap legacy_dated [(name, cat, t)]).
Proof.
  unfold add_citation. rewrite option_list_omap. unfold legacy_dated.
  destruct (extract_year t) as [y |]; simpl;
    [| rewrite app_nil_r; reflexivity].
  destruct (negb (y =? 0)%Z); [| rewrite app_nil_r; reflexivity].
  apply entries_organized_append.
Qed.

Lemma add_texts_entries (name cat : string) (texts : list string) :
  forall organized,
    Permutation
      (entries (fold_left (add_citation name cat) texts organized))
      (entries organized
       ++ omap legacy_dated (map (fun t => (name, cat, t)) texts)).
Proof.
  induction texts as [| t texts IH]; intros organized; cbn [fold_left].
  - simpl. rewrite app_nil_r. reflexivity.
  - rewrite IH, add_citation_entries, <- app_assoc.
    apply Permutation_app_head.
    change (map (fun t0 => (name, cat, t0)) (t :: texts))
      with ([(name, cat, t)] ++ map (fun t0 => (name, cat, t0)) texts).
    rewrite omap_app. reflexivity.
Qed.

Lemma add_faculty_entries
    (organized : list (string * list (Z * list Entry))) (f : Faculty) :
  Permutation (entries (add_faculty organized f))
              (entries organized ++ omap legacy_dated (faculty_listed f)).
Proof.
  unfold add_faculty, faculty_listed.
  destruct (faculty_citations f) as [by_category |];
    [| simpl; rewrite app_nil_r; reflexivity].
  revert organized.
  induction by_category as [| [cat texts] by_category IH]; intros organized;
    cbn [fold_left].
  - simpl. rewrite app_nil_r. reflexivity.
  - rewrite IH, add_texts_entries. simpl.
    rewrite omap_app, <- app_assoc. reflexivity.
Qed.

Lemma legacy_fold_entries (faculty_data : list Faculty) :
  forall organized,
    Permutation (entries (fold_left add_faculty faculty_data organized))
                (entries organized ++ omap legacy_dated (listed faculty_data)).
Proof.
  unfold listed.
  induction faculty_data as [| f fs IH]; intros organized; cbn [fold_left].
  - simpl. rewrite app_nil_r. reflexivity.
  - rewrite IH, add_faculty_entries. simpl.
    rewrite omap_app, <- app_assoc. reflexivity.
Qed.

Lemma parse_citations_entries (faculty_data : list Faculty) :
  Permutation (entries (parse_citations faculty_data))
              (omap legacy_dated (listed faculty_data)).
Proof.
  unfold parse_citations.
  rewrite entries_sort_years, legacy_fold_entries. reflexivity.
Qed.

Lemma legacy_name_agrees (TRANSLATIONS : Translations)
    (category_key language name : string) :
  legacy_outputs.get_category_name TRANSLATIONS category_key language
  = legacy_outputs.Found name ->
  get_category_name TRANSLATIONS category_key language = name.
Proof.
  unfold legacy_outputs.get_category_name, get_category_name.
  destruct (dict_get category_key TRANSLATIONS) as [names |].
  - destruct (dict_get language names); [| discriminate].
    intros [= <-]; reflexivity.
  - intros [= <-]; reflexivity.
Qed.

Lemma legacy_save_rows (TRANSLATIONS : Translations) (language : string)
    (organized : list (string * list (Z * list Entry))) :
  forall rows,
    legacy_outputs.save_to_csv TRANSLATIONS organized language
    = legacy_outputs.Found rows ->
    rows
    = map (fun '(cat, y, e) =>
             (get_category_name TRANSLATIONS cat language, y,
              entry_author e, entry_text e))
          (entries organized).
Proof.
  unfold entries.
  induction organized as [| [cat years] organized IH]; intros rows;
    cbn [legacy_outputs.save_to_csv].
  - intros [= <-]; reflexivity.
  - destruct (legacy_outputs.get_category_name TRANSLATIONS cat language)
      as [name |] eqn:E; [| discriminate].
    apply legacy_name_agrees in E.
    destruct (legacy_outputs.save_to_csv TRANSLATIONS organized language)
      as [rows' |]; [| discriminate].
    intros [= <-]. simpl. rewrite map_app, <- (IH rows' eq_refl).
    f_equal. subst name. rewrite map_map. unfold year_entries.
    clear. induction years as [| [y vs] years IHy]; simpl; [reflexivity |].
    rewrite map_app, IHy, !map_map. reflexivity.
Qed.

Lemma legacy_save_raises (TRANSLATIONS : Translations) (language : string)
    (organized : list (string * list (Z * list Entry))) :
  legacy_outputs.save_to_csv TRANSLATIONS organized language
  = legacy_outputs.RaisesKeyError
  <-> exists cat,
      In cat (map fst organized)
      /\ legacy_outputs.get_category_name TRANSLATIONS cat language
         = legacy_outputs.RaisesKeyError.
Proof.
  induction organized as [| [cat years] organized IH];
    cbn [legacy_outputs.save_to_csv].
  - split; [discriminate | intros (cat & [] & _)].
  - destruct (legacy_outputs.get_category_name TRANSLATIONS cat language)
      as [name |] eqn:E.
    + destruct (legacy_outputs.save_to_csv TRANSLATIONS organized language)
        as [rows' |].
      * split; [discriminate |].
        intros (k & [<- | Hk] & Hraise); [simpl in Hraise; congruence |].
        assert (H : legacy_outputs.Found rows'
                    = @legacy_outputs.RaisesKeyError (list CsvRow))
          by (apply (proj2 IH); exists k; auto).
        discriminate H.
      * split; [| reflexivity]. intros _.
        destruct (proj1 IH eq_refl) as (k & Hk & Hraise).
        exists k; split; [right; exact Hk | exact Hraise].
    + split; [| reflexivity]. intros _.
      exists cat; split; [left; reflexivity | exact E].
Qed.

Lemma print_summary_entries (TRANSLATIONS : Translations)
    (organized : list (string * list (Z * list Entry))) :
  forall total n,
    legacy_outputs.print_summary TRANSLATIONS organized total
    = legacy_outputs.Found n ->
    n = total + length (entries organized).
Proof.
  induction organized as [| [cat years] organized IH]; intros total n;
    cbn [legacy_outputs.print_summary].
  - intros [= <-]. simpl. lia.
  - destruct (legacy_outputs.get_category_name TRANSLATIONS cat "en");
      [| discriminate].
    intros H. apply IH in H. rewrite H, !entries_length. simpl. lia.
Qed.

(** The categories of the organized dictionary are those of the listed
    citations that have a year. *)
Lemma add_citation_keys (name cat k : string)
    (organized : list (string * list (Z * list Entry))) (t : string) :
  In k (map fst (add_citation name cat organized t))
  <-> In k (map fst organized)
      \/ exists y e, legacy_dated (name, cat, t) = Some (k, y, e).
Proof.
  unfold add_citation, legacy_dated.
  destruct (extract_year t) as [y |];
    [| split; [auto | intros [H | (? & ? & [=])]; exact H]].
  destruct (Py.truthy_int (Some y));
    [| split; [auto | intros [H | (? & ? & [=])]; exact H]].
  rewrite organized_append_key. split.
  - intros [H | ->]; [auto | right; eauto].
  - intros [H | (y' & e & [= <- _ _])]; auto.
Qed.

Lemma add_texts_keys (name cat k : string) (texts : list string) :
  forall organized,
    In k (map fst (fold_left (add_citation name cat) texts organized))
    <-> In k (map fst organized)
        \/ exists x y e,
            In x (map (fun t => (name, cat, t)) texts)
            /\ legacy_dated x = Some (k, y, e).
Proof.
  induction texts as [| t texts IH]; intros organized; cbn [fold_left].
  - split; [auto | intros [H | (x & y & e & [] & _)]; exact H].
  - rewrite IH, add_citation_keys. simpl. split.
    + intros [[H | (y & e & H)] | (x & y & e & Hx & H)]; [auto | |].
      * right; exists (name, cat, t), y, e; auto.
      * right; exists x, y, e; auto.
    + intros [H | (x & y & e & [<- | Hx] & H)]; [auto | |].
      * left; right; eauto.
      * right; exists x, y, e; auto.
Qed.

Lemma add_faculty_keys (k : string)
    (organized : list (string * list (Z * list Entry))) (f : Faculty) :
  In k (map fst (add_faculty organized f))
  <-> In k (map fst organized)
      \/ exists x y e,
          In x (faculty_listed f) /\ legacy_dated x = Some (k, y, e).
Proof.
  unfold add_faculty, faculty_listed.
  destruct (faculty_citations f) as [by_category |];
    [| split; [auto | intros [H | (x & y & e & [] & _)]; exact H]].
  revert organized.
  induction by_category as [| [cat texts] by_category IH]; intros organized;
    cbn [fold_left].
  - split; [auto | intros [H | (x & y & e & [] & _)]; exact H].
  - rewrite IH, add_texts_keys. simpl. split.
    + intros [[H | (x & y & e & Hx & H)] | (x & y & e & Hx & H)]; [auto | |].
      * right; exists x, y, e; split; [apply in_app_iff; auto | exact H].
      * right; exists x, y, e; split; [apply in_app_iff; auto | exact H].
    + intros [H | (x & y & e & Hx & H)]; [auto |].
      apply in_app_iff in Hx as [Hx | Hx].
      * left; right; exists x, y, e; auto.
      * right; exists x, y, e; auto.
Qed.

Lemma parse_citations_keys (k : string) (faculty_data : list Faculty) :
  In k (map fst (parse_citations faculty_data))
  <-> exists x y e,
      In x (listed faculty_data) /\ legacy_dated x = Some (k, y, e).
Proof.
  unfold parse_citations. rewrite sort_years_keys.
  assert (H : forall organized,
             In k (map fst (fold_left add_faculty faculty_data organized))
             <-> In k (map fst organized)
                 \/ exists x y e,
                     In x (listed faculty_data)
                     /\ legacy_dated x = Some (k, y, e)).
  { unfold listed.
    induction faculty_data as [| f fs IH]; intros organized;
      cbn [fold_left].
    - split; [auto | intros [H | (x & y & e & [] & _)]; exact H].
    - rewrite IH, add_faculty_keys. simpl. split.
      + intros [[H | (x & y & e & Hx & H)] | (x & y & e & Hx & H)];
          [auto | |].
        * right; exists x, y, e; split; [apply in_app_iff; auto | exact H].
        * right; exists x, y, e; split; [apply in_app_iff; auto | exact H].
      + intros [H | (x & y & e & Hx & H)]; [auto |].
        apply in_app_iff in Hx as [Hx | Hx].
        * left; right; exists x, y, e; auto.
        * right; exists x, y, e; auto. }
  rewrite H. simpl. tauto.
Qed.

End Legacy.

Lemma legacy_rows_of_dated (TRANSLATIONS : Translations) (language : string)
    (l : list (string * string * string)) :
  map (fun '(cat, y, e) =>
         (get_category_name TRANSLATIONS cat language, y,
          citation_analyzer.entry_author e, citation_analyzer.entry_text e))
      (omap legacy_dated l)
  = omap (legacy_row TRANSLATIONS language) l.
Proof.
  induction l as [| x l IH]; [reflexivity |].
  rewrite !option_list_omap. unfold legacy_row at 1.
  destruct (legacy_dated x) as [[[cat y] e] |]; [| exact IH].
  simpl. rewrite IH. reflexivity.
Qed.

(** [X21] [citation_analyzer.py] reports every citation of the input that has a
    year exactly once: when [print_summary] returns, its total is their
    number, and when [save_to_csv] returns, its rows are theirs.
    [save_to_csv] raises [KeyError] exactly when such a citation belongs
    to a category whose translations lack the language. *)
Theorem legacy_outputs_cover_dated_citations (TRANSLATIONS : Translations)
    (faculty_data : list Faculty) (language : string) :
  (forall total,
      legacy_outputs.print_summary TRANSLATIONS
        (citation_analyzer.parse_citations faculty_data) 0
      = legacy_outputs.Found total ->
      total = length (omap legacy_dated (listed faculty_data)))
  /\ (forall rows,
         legacy_outputs.save_to_csv TRANSLATIONS
           (citation_analyzer.parse_citations faculty_data) language
         = legacy_outputs.Found rows ->
         Permutation rows
           (omap (legacy_row TRANSLATIONS language) (listed faculty_data)))
  /\ (legacy_outputs.save_to_csv TRANSLATIONS
        (citation_analyzer.parse_citations faculty_data) language
      = legacy_outputs.RaisesKeyError
      <-> exists x cat y e,
          In x (listed faculty_data)
          /\ legacy_dated x = Some (cat, y, e)
          /\ legacy_outputs.get_category_name TRANSLATIONS cat language
             = legacy_outputs.RaisesKeyError).
Proof.
  split; [| split].
  - intros total Htotal. apply print_summary_entries in Htotal.
    rewrite Htotal. simpl.
    apply Permutation_length, parse_citations_entries.
  - intros rows Hrows. apply legacy_save_rows in Hrows. rewrite Hrows.
    rewrite <- legacy_rows_of_dated.
    apply Permutation_map, parse_citations_entries.
  - rewrite legacy_save_raises. split.
    + intros (cat & Hcat & Hraise).
      apply parse_citations_keys in Hcat as (x & y & e & Hx & Hd).
      exists x, cat, y, e. auto.
    + intros (x & cat & y & e & Hx & Hd & Hraise).
      exists cat. split; [| exact Hraise].
      apply parse_citations_keys. exists x, y, e. auto.
Qed.

(** [X22] The two [get_category_name] agree wherever the one of
    [citation_analyzer.py] returns.  Where that one raises [KeyError] (the
    category is translated, but not into the language), the one of
    [new-parser.py] returns the raw category key. *)
Theorem category_name_refines_legacy (translations : Translations)
    (category_key language : string) :
  match legacy_outputs.get_category_name translations category_key language
  with
  | legacy_outputs.Found name =>
      get_category_name translations category_key language = name
  | legacy_outputs.RaisesKeyError =>
      get_category_name translations category_key language = category_key
      /\ dict_get category_key translations <> None
  end.
Proof.
  unfold legacy_outputs.get_category_name, get_category_name.
  destruct (dict_get category_key translations) as [names |];
    [| reflexivity].
  destruct (dict_get language names); [reflexivity |].
  split; [reflexivity | discriminate].
Qed.

Lemma legacy_outputs_cover_dated_citations_witness :
  legacy_outputs.save_to_csv MoreSamples.translations
    (citation_analyzer.parse_citations
       (Samples.one_author ["tide"; "Smith (2020) short."])) "en"
  = legacy_outputs.Found [("Articles", 2020%Z, "A", "Smith (2020) short.")]
  /\ Permutation
       [("Articles", 2020%Z, "A", "Smith (2020) short.")]
       (omap (legacy_row MoreSamples.translations "en")
          (listed (Samples.one_author ["tide"; "Smith (2020) short."]))).
Proof.
  split; [vm_compute; reflexivity |].
  refine (proj1 (proj2 (legacy_outputs_cover_dated_citations
                          MoreSamples.translations
                          (Samples.one_author ["tide"; "Smith (2020) short."])
                          "en")) _ _).
  vm_compute; reflexivity.
Defined.

(** ** How a run ends *)

(** [X23] [analyze] cannot get past its summary once a category has a year:
    with the duplicate detection enabled it raises [TypeError] exactly
    when a surviving citation has a year, and it returns otherwise; with
    the detection disabled it returns, with nothing organized.  [main]
    answers 0 only for an input file that loads and leaves no citation
    with a year. *)
Theorem analyze_fails_once_a_citation_has_a_year :
  (forall config,
      analyze config Missing = Fails FileNotFoundError
      /\ analyze config Malformed = Fails JSONDecodeError)
  /\ (forall config faculty_data,
         enable_duplicate_detection config = true ->
         (analyze config (Loaded faculty_data) = FailsTypeError
          <-> exists c,
              In c (citations
                      (_remove_duplicates config (parsed faculty_data)))
              /\ Py.truthy_int (year c) = true)
         /\ (analyze config (Loaded faculty_data) <> FailsTypeError ->
             exists stats,
               analyze config (Loaded faculty_data)
               = Completes (_remove_duplicates config (parsed faculty_data))
                           stats))
  /\ (forall config faculty_data,
         enable_duplicate_detection config = false ->
         exists stats,
           analyze config (Loaded faculty_data)
           = Completes (parsed faculty_data) stats)
  /\ (forall input,
         main input = 0%Z
         <-> exists faculty_data,
             input = Loaded faculty_data
             /\ forall c,
                 In c (citations
                         (_remove_duplicates main_config
                            (parsed faculty_data))) ->
                 Py.truthy_int (year c) = false).
Proof.
  assert (Hon : forall config faculty_data,
             enable_duplicate_detection config = true ->
             (analyze config (Loaded faculty_data) = FailsTypeError
              <-> exists c,
                  In c (citations
                          (_remove_duplicates config (parsed faculty_data)))
                  /\ Py.truthy_int (year c) = true)
             /\ (analyze config (Loaded faculty_data) <> FailsTypeError ->
                 exists stats,
                   analyze config (Loaded faculty_data)
                   = Completes
                       (_remove_duplicates config (parsed faculty_data))
                       stats)).
  { intros config faculty_data Hen. unfold analyze.
    rewrite load_data_loaded, Hen.
    rewrite <- organized_has_years, <- organized_by_run,
      <- (generate_statistics_raises config).
    destruct (generate_statistics config _) as [stats |].
    - split; [split; intros H; discriminate H |].
      intros _; exists stats; reflexivity.
    - split; [split; reflexivity | intros H; destruct H; reflexivity]. }
  split; [intros config; split; reflexivity |].
  split; [exact Hon |].
  split.
  - intros config faculty_data Hoff. unfold analyze.
    rewrite load_data_loaded, Hoff.
    destruct (generate_statistics config (parsed faculty_data))
      as [stats |] eqn:E; [exists stats; reflexivity |].
    apply generate_statistics_raises in E. inversion E.
  - intros input. unfold main.
    destruct input as [| | faculty_data].
    + split; [discriminate | intros (fd & [=] & _)].
    + split; [discriminate | intros (fd & [=] & _)].
    + destruct (Hon main_config faculty_data eq_refl) as [Hfail Hdone].
      destruct (analyze main_config (Loaded faculty_data)) as [a s | e |]
        eqn:E.
      * split; [| reflexivity]. intros _. exists faculty_data.
        split; [reflexivity |]. intros c Hc.
        destruct (Py.truthy_int (year c)) eqn:Hy; [| reflexivity].
        assert (H : Completes a s = FailsTypeError)
          by (apply (proj2 Hfail); exists c; auto).
        discriminate H.
      * destruct Hdone as (stats & H); discriminate.
      * split; [discriminate |].
        intros (fd & [= <-] & Hnone).
        destruct (proj1 Hfail eq_refl) as (c & Hc & Hy).
        rewrite (Hnone c Hc) in Hy. discriminate.
Qed.

Lemma analyze_fails_once_a_citation_has_a_year_witness :
  main (Loaded (Samples.one_author ["tide"; "Smith (2020) short."])) = 1%Z
  /\ analyze Samples.keep_first
       (Loaded (Samples.one_author ["tide"; "Smith (2020) short."]))
     = FailsTypeError.
Proof.
  split; [vm_compute; reflexivity |].
  refine (proj2 (proj1 (proj1 (proj2 analyze_fails_once_a_citation_has_a_year)
                          Samples.keep_first
                          (Samples.one_author ["tide"; "Smith (2020) short."])
                          _)) _); [reflexivity |].
  exists Samples.short. split; vm_compute; [| reflexivity].
  right; left; reflexivity.
Defined.

(** ** The two organizers *)

Section TwoOrganizers.

Context {V W : Type} (f : V -> W).

Lemma dict_append_map (y : Z) (v : V) (years : list (Z * list V)) :
  map_years f (dict_append Z.eqb y v years)
  = dict_append Z.eqb y (f v) (map_years f years).
Proof.
  unfold map_years.
  induction years as [| [y' vs] years IH]; simpl; [reflexivity |].
  destruct (Z.eqb y' y); simpl; [rewrite map_app; reflexivity |].
  rewrite IH. reflexivity.
Qed.

Lemma organized_append_map (cat : string) (y : Z) (v : V)
    (d : list (string * list (Z * list V))) :
  map_organized f (organized_append cat y v d)
  = organized_append cat y (f v) (map_organized f d).
Proof.
  unfold map_organized.
  induction d as [| [k years] d IH]; simpl; [reflexivity |].
  destruct (String.eqb k cat); simpl; [rewrite dict_append_map; reflexivity |].
  rewrite IH. reflexivity.
Qed.

Lemma insert_desc_map (y : Z) (vs : list V) (l : list (Z * list V)) :
  map_years f (insert_desc (y, vs) l)
  = insert_desc (y, map f vs) (map_years f l).
Proof.
  unfold map_years.
  induction l as [| [y' vs'] l IH]; simpl; [reflexivity |].
  destruct (y' <? y)%Z; simpl; [reflexivity |]. rewrite IH. reflexivity.
Qed.

Lemma sorted_desc_map (years : list (Z * list V)) :
  map_years f (sorted_desc years) = sorted_desc (map_years f years).
Proof.
  unfold sorted_desc.
  assert (H : forall acc,
             map_years f (fold_left (fun acc kv => insert_desc kv acc)
                                    years acc)
             = fold_left (fun acc kv => insert_desc kv acc)
                         (map_years f years) (map_years f acc)).
  { induction years as [| [y vs] years IH]; intros acc; simpl;
      [reflexivity |].
    rewrite IH, insert_desc_map. reflexivity. }
  apply (H []).
Qed.

Lemma sort_years_map (d : list (string * list (Z * list V))) :
  map_organized f (sort_years d) = sort_years (map_organized f d).
Proof.
  unfold map_organized, sort_years.
  induction d as [| [cat years] d IH]; simpl; [reflexivity |].
  rewrite IH, sorted_desc_map. reflexivity.
Qed.

End TwoOrganizers.

Lemma organize_step_as_entry (d : Organized) (name cat t : string) :
  map_organized as_entry
    (organize_step d (Citation_new t name None cat))
  = citation_analyzer.add_citation name cat (map_organized as_entry d) t.
Proof.
  unfold organize_step, citation_analyzer.add_citation,
    citation_analyzer.extract_year, Citation_new.
  cbn [year category].
  destruct (_extract_year t) as [y |]; [| reflexivity].
  destruct (Py.truthy_int (Some y)); [| reflexivity].
  rewrite organized_append_map. reflexivity.
Qed.

Lemma organize_texts_as_entry (name cat : string) (texts : list string) :
  forall d,
    map_organized as_entry
      (fold_left organize_step
         (map (fun t => Citation_new t name None cat) texts) d)
    = fold_left (citation_analyzer.add_citation name cat) texts
        (map_organized as_entry d).
Proof.
  induction texts as [| t texts IH]; intros d; cbn [map fold_left];
    [reflexivity |].
  rewrite IH, organize_step_as_entry. reflexivity.
Qed.

Lemma organize_faculty_as_entry (f : Faculty) (d : Organized) :
  map_organized as_entry (fold_left organize_step (parse_faculty f) d)
  = citation_analyzer.add_faculty (map_organized as_entry d) f.
Proof.
  unfold parse_faculty, citation_analyzer.add_faculty.
  destruct (faculty_citations f) as [by_category |]; [| reflexivity].
  revert d.
  induction by_category as [| [cat texts] by_category IH]; intros d;
    [reflexivity |].
  cbn [map concat fold_left].
  rewrite fold_left_app, IH, organize_texts_as_entry. reflexivity.
Qed.

Lemma organize_parsed_as_entry (faculty_data : list Faculty) (d : Organized) :
  map_organized as_entry
    (fold_left organize_step (_parse_citations faculty_data) d)
  = fold_left citation_analyzer.add_faculty faculty_data
      (map_organized as_entry d).
Proof.
  unfold _parse_citations. revert d.
  induction faculty_data as [| f fs IH]; intros d; [reflexivity |].
  cbn [map concat fold_left].
  rewrite fold_left_app, IH, organize_faculty_as_entry. reflexivity.
Qed.

(** [X24] [citation_analyzer.py] is the organizer of [new-parser.py] without
    the duplicate detection: on the same input [parse_citations] gives the
    dictionary that [_organize_citations] gives for all parsed citations,
    with the same categories and years in the same order, each citation
    reduced to its text and author. *)
Theorem legacy_organizer_is_organizer_without_detection
    (faculty_data : list Faculty) :
  citation_analyzer.parse_citations faculty_data
  = map_organized as_entry
      (_organize_citations (_parse_citations faculty_data)).
Proof.
  unfold citation_analyzer.parse_citations, _organize_citations.
  rewrite sort_years_map, organize_parsed_as_entry. reflexivity.
Qed.

(** ** The strategy in the ledger *)

Lemma resolve_group_honours (config : AnalysisConfig)
    (group : list Citation) (p : DuplicatePair) :
  In p (snd (_resolve_duplicate_group config group)) -> honours config p.
Proof.
  unfold _resolve_duplicate_group.
  destruct group as [| first [| second others]]; [intros [] | intros [] |].
  set (group := first :: second :: others).
  destruct (String.eqb (duplicate_strategy config) "keep_first") eqn:E1.
  { apply String.eqb_eq in E1. intros _.
    split; intros E; rewrite E in E1; discriminate E1. }
  destruct (String.eqb (duplicate_strategy config) "keep_longest") eqn:E2.
  { apply String.eqb_eq in E2. cbn [snd]. intros Hp.
    apply pairs_against_in in Hp as (Hfst & Hsnd & _).
    split; intros E; [| rewrite E in E2; discriminate E2].
    rewrite Hfst. apply max_by_len_ge. exact Hsnd. }
  destruct (String.eqb (duplicate_strategy config) "keep_most_complete")
    eqn:E3; [| intros []].
  apply String.eqb_eq in E3. cbn [snd]. intros Hp.
  apply pairs_against_in in Hp as (Hfst & Hsnd & _).
  split; intros E; [rewrite E in E3; discriminate E3 |].
  rewrite Hfst. clear Hfst.
  destruct (List.filter (fun c => Py.truthy_str (doi c)) group)
    as [| d ds] eqn:Hdoi.
  - assert (Hnone : Py.truthy_str (doi (snd p)) = false).
    { destruct (Py.truthy_str (doi (snd p))) eqn:Hd; [| reflexivity].
      assert (Hin : In (snd p)
                       (List.filter (fun c => Py.truthy_str (doi c)) group))
        by (apply filter_In; auto).
      rewrite Hdoi in Hin. destruct Hin. }
    split; [rewrite Hnone; discriminate |].
    intros _. apply max_by_len_ge. exact Hsnd.
  - assert (Hbest : Py.truthy_str (doi (max_by_len d ds)) = true).
    { pose proof (max_by_len_in d ds) as Hin.
      rewrite <- Hdoi in Hin. apply filter_In in Hin. tauto. }
    split; [intros _; exact Hbest |].
    rewrite Hbest. intros Hd. apply max_by_len_ge.
    rewrite <- Hdoi. apply filter_In. auto.
Qed.

Lemma should_replace_honours (config : AnalysisConfig) (u c : Citation) :
  honours config
    (if _should_replace config u c then (c, u) else (u, c)).
Proof.
  unfold _should_replace, honours.
  destruct (String.eqb (duplicate_strategy config) "keep_first") eqn:E1.
  { apply String.eqb_eq in E1.
    split; intros E; rewrite E in E1; discriminate E1. }
  destruct (String.eqb (duplicate_strategy config) "keep_longest") eqn:E2.
  { apply String.eqb_eq in E2.
    split; intros E; [| rewrite E in E2; discriminate E2].
    destruct (Nat.ltb_spec (text_len u) (text_len c)); cbn [fst snd]; lia. }
  destruct (String.eqb (duplicate_strategy config) "keep_most_complete")
    eqn:E3.
  - apply String.eqb_eq in E3.
    split; intros E; [rewrite E in E3; discriminate E3 |].
    destruct (Py.truthy_str (doi c)) eqn:Hc,
      (Py.truthy_str (doi u)) eqn:Hu;
      cbn [andb negb];
      try destruct (Nat.ltb_spec (text_len u) (text_len c));
      cbn [fst snd]; rewrite ?Hc, ?Hu;
      split; intros; try discriminate; try reflexivity; lia.
  - split; intros E.
    + rewrite E in E2. discriminate E2.
    + rewrite E in E3. discriminate E3.
Qed.

Section LedgerInvariant.

Variable config : AnalysisConfig.
Variable Q : DuplicatePair -> Prop.
Hypothesis group_pairs :
  forall group p, In p (snd (_resolve_duplicate_group config group)) -> Q p.
Hypothesis pass_pairs :
  forall u c, Q (if _should_replace config u c then (c, u) else (u, c)).

Lemma resolve_step_extends (st : list Citation * list DuplicatePair)
    (entry : string * list Citation) :
  exists new,
    snd (resolve_step config st entry) = snd st ++ new /\ Forall Q new.
Proof.
  destruct st as [unique_citations removed]. unfold resolve_step.
  destruct (length (snd entry) =? 1).
  - exists []. rewrite app_nil_r. split; [reflexivity | constructor].
  - pose proof (group_pairs (snd entry)) as Hpairs.
    destruct (_resolve_duplicate_group config (snd entry)) as [kept pairs].
    exists pairs. split; [reflexivity |].
    apply List.Forall_forall. exact Hpairs.
Qed.

Lemma resolve_groups_extends (groups : list (string * list Citation)) :
  forall st,
    exists new,
      snd (fold_left (resolve_step config) groups st) = snd st ++ new
      /\ Forall Q new.
Proof.
  induction groups as [| e groups IH]; intros st; cbn [fold_left].
  - exists []. rewrite app_nil_r. split; [reflexivity | constructor].
  - destruct (IH (resolve_step config st e)) as (new2 & -> & H2).
    destruct (resolve_step_extends st e) as (new1 & -> & H1).
    exists (new1 ++ new2). rewrite app_assoc.
    split; [reflexivity | apply Forall_app; auto].
Qed.

Lemma similar_step_extends (st : list Citation * list DuplicatePair)
    (c : Citation) :
  exists new,
    snd (similar_step config st c) = snd st ++ new /\ Forall Q new.
Proof.
  destruct st as [unique_citations removed]. unfold similar_step.
  destruct (List.find _ unique_citations) as [u |].
  - pose proof (pass_pairs u c) as Hq.
    destruct (_should_replace config u c); cbn [snd];
      eexists; (split; [reflexivity |]); constructor;
      (exact Hq || constructor).
  - exists []. cbn [snd]. rewrite app_nil_r.
    split; [reflexivity | constructor].
Qed.

Lemma similar_pass_extends (cs : list Citation) :
  forall st,
    exists new,
      snd (fold_left (similar_step config) cs st) = snd st ++ new
      /\ Forall Q new.
Proof.
  induction cs as [| c cs IH]; intros st; cbn [fold_left].
  - exists []. rewrite app_nil_r. split; [reflexivity | constructor].
  - destruct (IH (similar_step config st c)) as (new2 & -> & H2).
    destruct (similar_step_extends st c) as (new1 & -> & H1).
    exists (new1 ++ new2). rewrite app_assoc.
    split; [reflexivity | apply Forall_app; auto].
Qed.

Lemma remove_duplicates_extends (self : Analyzer) :
  exists new,
    duplicates_removed (_remove_duplicates config self)
    = duplicates_removed self ++ new
    /\ Forall Q new.
Proof.
  pose proof (f_equal snd (remove_duplicates_gate config self)) as Hgate.
  cbn [snd] in Hgate. rewrite Hgate. clear Hgate.
  unfold group_survivors, resolve_groups.
  destruct (resolve_groups_extends (fingerprint_groups (citations self))
              ([], duplicates_removed self)) as (new1 & H1 & Q1).
  cbn [snd] in H1.
  destruct (negb (Qle_bool 1 (similarity_threshold config))).
  - unfold _remove_similar_duplicates.
    destruct (similar_pass_extends
                (fst (fold_left (resolve_step config)
                        (fingerprint_groups (citations self))
                        ([], duplicates_removed self)))
                ([], snd (fold_left (resolve_step config)
                            (fingerprint_groups (citations self))
                            ([], duplicates_removed self))))
      as (new2 & H2 & Q2).
    cbn [snd] in H2. rewrite H2, H1.
    exists (new1 ++ new2). rewrite app_assoc.
    split; [reflexivity | apply Forall_app; auto].
  - exists new1. split; [exact H1 | exact Q1].
Qed.

End LedgerInvariant.

(** [X25] The ledger only grows, and every entry that a run adds honours
    the strategy of the configuration: under [keep_longest] the removed
    citation of an entry is never longer than the kept one; under
    [keep_most_complete] a citation with a DOI is never removed for one
    without, and between two citations that both have a DOI, or both have
    none, the removed one is never the longer. *)
Theorem ledger_honours_strategy (config : AnalysisConfig) (self : Analyzer) :
  exists new,
    duplicates_removed (_remove_duplicates config self)
    = duplicates_removed self ++ new
    /\ Forall (honours config) new.
Proof.
  apply remove_duplicates_extends.
  - apply resolve_group_honours.
  - apply should_replace_honours.
Qed.

(** [X26] The decision of [_should_replace] is a strict preference: no
    citation replaces itself, two citations never replace each other, and
    a citation that replaces one that replaces a third replaces the third.
    Under [keep_first] and under an unknown strategy nothing replaces
    anything. *)
Theorem should_replace_is_strict_preference (config : AnalysisConfig) :
  (forall c, _should_replace config c c = false)
  /\ (forall existing new,
         _should_replace config existing new = true ->
         _should_replace config new existing = false)
  /\ (forall a b c,
         _should_replace config a b = true ->
         _should_replace config b c = true ->
         _should_replace config a c = true)
  /\ (duplicate_strategy config = "keep_first" ->
      forall existing new, _should_replace config existing new = false)
  /\ (known_strategy (duplicate_strategy config) = false ->
      forall existing new, _should_replace config existing new = false).
Proof.
  assert (Hfirst : duplicate_strategy config = "keep_first" ->
                   forall existing new,
                     _should_replace config existing new = false).
  { intros H existing new. unfold _should_replace. rewrite H. reflexivity. }
  assert (Hunknown : known_strategy (duplicate_strategy config) = false ->
                     forall existing new,
                       _should_replace config existing new = false).
  { intros H existing new. apply should_replace_unknown, H. }
  repeat match goal with |- _ /\ _ => split end;
    try exact Hfirst; try exact Hunknown; clear Hfirst Hunknown;
    unfold _should_replace;
    destruct (String.eqb (duplicate_strategy config) "keep_first");
    try (intros; discriminate || reflexivity);
    destruct (String.eqb (duplicate_strategy config) "keep_longest").
  - intros c. apply Nat.ltb_irrefl.
  - destruct (String.eqb (duplicate_strategy config) "keep_most_complete");
      [| reflexivity].
    intros c. destruct (Py.truthy_str (doi c)); cbn [andb negb];
      apply Nat.ltb_irrefl.
  - intros existing new H. apply Nat.ltb_lt in H. apply Nat.ltb_ge. lia.
  - destruct (String.eqb (duplicate_strategy config) "keep_most_complete");
      [| intros; discriminate].
    intros existing new.
    destruct (Py.truthy_str (doi new)), (Py.truthy_str (doi existing));
      cbn [andb negb]; intros H; try discriminate H; try reflexivity;
      apply Nat.ltb_lt in H; apply Nat.ltb_ge; lia.
  - intros a b c H1 H2. apply Nat.ltb_lt in H1, H2. apply Nat.ltb_lt. lia.
  - destruct (String.eqb (duplicate_strategy config) "keep_most_complete");
      [| intros; discriminate].
    intros a b c.
    destruct (Py.truthy_str (doi a)), (Py.truthy_str (doi b)),
      (Py.truthy_str (doi c)); cbn [andb negb]; intros H1 H2;
      try discriminate H1; try discriminate H2; try reflexivity;
      apply Nat.ltb_lt in H1, H2; apply Nat.ltb_lt; lia.
Qed.

Lemma should_replace_is_strict_preference_witness :
  _should_replace Samples.keep_longest Samples.long Samples.short = false
  /\ _should_replace Samples.keep_best Samples.short Samples.long = false.
Proof.
  split.
  - refine (proj1 (proj2 (should_replace_is_strict_preference
                            Samples.keep_longest))
                  Samples.short Samples.long _).
    vm_compute; reflexivity.
  - refine (proj2 (proj2 (proj2 (proj2 (should_replace_is_strict_preference
                                          Samples.keep_best))))
                  _ Samples.short Samples.long).
    reflexivity.
Defined.

(** ** What a run keeps *)

Lemma resolve_groups_kept (config : AnalysisConfig)
    (groups : list (string * list Citation)) :
  forall st,
    fst (fold_left (resolve_step config) groups st)
    = fst st ++ concat (map (kept_of config) groups).
Proof.
  induction groups as [| e groups IH]; intros st; cbn [fold_left].
  - simpl. rewrite app_nil_r. reflexivity.
  - rewrite IH. cbn [map concat]. rewrite app_assoc. f_equal.
    destruct st as [unique_citations removed].
    unfold resolve_step, kept_of.
    destruct (length (snd e) =? 1); [reflexivity |].
    destruct (_resolve_duplicate_group config (snd e)); reflexivity.
Qed.

Lemma kept_of_short (config : AnalysisConfig)
    (entry : string * list Citation) :
  kept_of config entry = []
  \/ exists x, kept_of config entry = [x] /\ In x (snd entry).
Proof.
  unfold kept_of.
  destruct (snd entry) as [| first [| second others]] eqn:E.
  - left. reflexivity.
  - right. exists first. split; [reflexivity | left; reflexivity].
  - change (length (first :: second :: others) =? 1) with false.
    cbv iota.
    pose proof (proj1 (resolve_group_members config
                         (first :: second :: others))) as Hin.
    unfold _resolve_duplicate_group in *.
    destruct (String.eqb (duplicate_strategy config) "keep_first");
      [right; eexists; split; [reflexivity | left; reflexivity] |].
    destruct (String.eqb (duplicate_strategy config) "keep_longest");
      [right; eexists; split;
       [reflexivity | apply Hin; left; reflexivity] |].
    destruct (String.eqb (duplicate_strategy config) "keep_most_complete");
      [right; eexists; split;
       [reflexivity | apply Hin; left; reflexivity]
      | left; reflexivity].
Qed.

Lemma kept_fingerprints_sublist (config : AnalysisConfig)
    (groups : list (string * list Citation)) :
  (forall e x, In e groups -> In x (snd e) -> fingerprint x = fst e) ->
  sublist (map fingerprint (concat (map (kept_of config) groups)))
          (map fst groups).
Proof.
  induction groups as [| e groups IH]; intros Hkey; [constructor |].
  cbn [map concat]. rewrite map_app.
  assert (IH' : sublist
                  (map fingerprint (concat (map (kept_of config) groups)))
                  (map fst groups))
    by (apply IH; intros e' x He' Hx; apply Hkey; [right |]; assumption).
  destruct (kept_of_short config e) as [-> | (x & -> & Hx)]; simpl.
  - apply sublist_cons. exact IH'.
  - rewrite (Hkey e x (or_introl eq_refl) Hx).
    apply sublist_skip. exact IH'.
Qed.

Lemma group_survivors_fingerprints (config : AnalysisConfig)
    (cs : list Citation) (removed : list DuplicatePair) :
  List.NoDup
    (map fingerprint
       (fst (resolve_groups config (fingerprint_groups cs) removed))).
Proof.
  unfold resolve_groups. rewrite resolve_groups_kept. cbn [fst app].
  destruct (fingerprint_groups_grouped cs) as (Hkeys & _ & Hgroups).
  apply NoDup_ListNoDup.
  eapply sublist_NoDup; [apply NoDup_ListNoDup; exact Hkeys |].
  apply kept_fingerprints_sublist.
  intros [k g] x He Hx. destruct (Hgroups k g He) as [_ Hg].
  cbn [fst snd] in *. rewrite Hg in Hx. apply filter_In in Hx as [_ Hx].
  apply String.eqb_eq. exact Hx.
Qed.

Lemma list_remove_sublist (u : Citation) (l : list Citation) :
  sublist (list_remove u l) l.
Proof.
  induction l as [| y l IH]; simpl; [constructor |].
  destruct (bool_decide (y = u)); [apply sublist_cons; reflexivity |].
  apply sublist_skip, IH.
Qed.

Lemma similar_pass_submseteq (config : AnalysisConfig)
    (cs : list Citation) :
  forall st, fst (fold_left (similar_step config) cs st) ⊆+ fst st ++ cs.
Proof.
  induction cs as [| c cs IH]; intros st; cbn [fold_left].
  - rewrite app_nil_r. reflexivity.
  - etransitivity; [apply IH |].
    change (fst st ++ c :: cs) with (fst st ++ [c] ++ cs).
    rewrite app_assoc. apply submseteq_app; [| reflexivity].
    destruct st as [unique_citations removed]. unfold similar_step.
    destruct (List.find _ unique_citations) as [u |]; [| reflexivity].
    destruct (_should_replace config u c); cbn [fst].
    + apply submseteq_app; [| reflexivity].
      apply sublist_submseteq, list_remove_sublist.
    + apply submseteq_inserts_r. reflexivity.
Qed.

Lemma remove_duplicates_fingerprints (config : AnalysisConfig)
    (self : Analyzer) :
  List.NoDup (map fingerprint (citations (_remove_duplicates config self))).
Proof.
  pose proof (f_equal fst (remove_duplicates_gate config self)) as Hgate.
  cbn [fst] in Hgate. rewrite Hgate. clear Hgate.
  pose proof (group_survivors_fingerprints config (citations self)
                (duplicates_removed self)) as Hsurvivors.
  unfold group_survivors.
  destruct (negb (Qle_bool 1 (similarity_threshold config)));
    [| exact Hsurvivors].
  unfold _remove_similar_duplicates.
  pose proof (similar_pass_submseteq config
                (fst (resolve_groups config
                        (fingerprint_groups (citations self))
                        (duplicates_removed self)))
                ([], snd (resolve_groups config
                            (fingerprint_groups (citations self))
                            (duplicates_removed self)))) as Hsub.
  cbn [fst app] in Hsub.
  apply (fmap_submseteq fingerprint) in Hsub.
  apply submseteq_sublist_r in Hsub as (l & Hperm & Hl).
  apply (Permutation_NoDup (Permutation_sym Hperm)).
  apply NoDup_ListNoDup.
  eapply sublist_NoDup; [apply NoDup_ListNoDup; exact Hsurvivors | exact Hl].
Qed.

(** [X27] After a run no two kept citations have the same fingerprint,
    whatever the strategy and the threshold: each fingerprint group leaves
    at most one citation, and the near-duplicate pass only drops or moves
    citations. *)
Theorem kept_fingerprints_are_distinct (config : AnalysisConfig)
    (self : Analyzer) :
  List.NoDup (map fingerprint (citations (_remove_duplicates config self))).
Proof. exact (remove_duplicates_fingerprints config self). Qed.

(** ** [keep_first] keeps the input order *)

Section Firsts.

Lemma dict_append_firsts (k : string) (v : Citation)
    (d : list (string * list Citation)) :
  Forall (fun e => snd e <> []) d ->
  Forall (fun e => snd e <> []) (dict_append String.eqb k v d)
  /\ exists tail,
      firsts (dict_append String.eqb k v d) = firsts d ++ tail
      /\ sublist tail [v].
Proof.
  unfold firsts.
  induction 1 as [| [k' vs] d Hvs Hd IH]; cbn [dict_append].
  - split; [repeat constructor; discriminate |].
    exists [v]. split; reflexivity.
  - cbn [snd] in Hvs. destruct (String.eqb k' k).
    + split.
      * constructor; [| exact Hd]. cbn [snd]. intros E.
        apply app_eq_nil in E as [_ E]. discriminate E.
      * exists []. rewrite app_nil_r. split; [| apply sublist_nil_l].
        cbn [map concat snd]. f_equal.
        destruct vs as [| x vs]; [destruct Hvs; reflexivity | reflexivity].
    + destruct IH as (Hne & tail & Htail & Hsub).
      split; [constructor; assumption |].
      exists tail. split; [| exact Hsub].
      cbn [map concat snd]. rewrite Htail, app_assoc. reflexivity.
Qed.

Lemma fingerprint_groups_firsts (cs : list Citation) :
  sublist (firsts (fingerprint_groups cs)) cs.
Proof.
  unfold fingerprint_groups.
  assert (H : forall d,
             Forall (fun e => snd e <> []) d ->
             exists tail,
               firsts (fold_left
                         (fun groups c =>
                            dict_append String.eqb (fingerprint c) c groups)
                         cs d)
               = firsts d ++ tail
               /\ sublist tail cs).
  { induction cs as [| c cs IH]; intros d Hd; cbn [fold_left].
    - exists []. rewrite app_nil_r. split; [reflexivity | constructor].
    - destruct (dict_append_firsts (fingerprint c) c d Hd)
        as (Hne & t1 & Ht1 & Hs1).
      destruct (IH _ Hne) as (t2 & Ht2 & Hs2).
      exists (t1 ++ t2). rewrite Ht2, Ht1, app_assoc.
      split; [reflexivity |].
      change (c :: cs) with ([c] ++ cs). apply sublist_app; assumption. }
  destruct (H [] (List.Forall_nil _)) as (tail & -> & Hsub). exact Hsub.
Qed.

Lemma kept_of_keep_first (config : AnalysisConfig)
    (entry : string * list Citation) :
  duplicate_strategy config = "keep_first" ->
  kept_of config entry = take 1 (snd entry).
Proof.
  intros Hfirst. unfold kept_of, _resolve_duplicate_group.
  rewrite Hfirst.
  destruct (snd entry) as [| first [| second others]]; reflexivity.
Qed.

End Firsts.

Lemma keep_first_run_sublist (config : AnalysisConfig) (self : Analyzer) :
  duplicate_strategy config = "keep_first" ->
  sublist (citations (_remove_duplicates config self)) (citations self).
Proof.
  intros Hfirst.
  pose proof (f_equal fst (remove_duplicates_gate config self)) as Hgate.
  cbn [fst] in Hgate. rewrite Hgate. clear Hgate.
  assert (Hsurvivors :
            sublist (fst (group_survivors config self)) (citations self)).
  { unfold group_survivors, resolve_groups.
    rewrite resolve_groups_kept. cbn [fst app].
    rewrite (map_ext_in _ (fun e => take 1 (snd e)))
      by (intros e _; apply kept_of_keep_first; exact Hfirst).
    apply fingerprint_groups_firsts. }
  destruct (negb (Qle_bool 1 (similarity_threshold config)));
    [| exact Hsurvivors].
  unfold _remove_similar_duplicates.
  destruct (never_replace_sublist config (fst (group_survivors config self))
              [] (snd (group_survivors config self)))
    as (tail & Htail & Hsub).
  { intros existing new. unfold _should_replace. rewrite Hfirst.
    reflexivity. }
  rewrite Htail. cbn [app]. etransitivity; eassumption.
Qed.

(** [X28] Under [keep_first] a run keeps the input order: the kept
    citations are a subsequence of the citations the run started from,
    each fingerprint group leaving its first citation. *)
Theorem keep_first_run_keeps_input_order (config : AnalysisConfig)
    (self : Analyzer) :
  duplicate_strategy config = "keep_first" ->
  sublist (citations (_remove_duplicates config self)) (citations self)
  /\ fst (group_survivors config self)
     = firsts (fingerprint_groups (citations self)).
Proof.
  intros Hfirst. split; [apply keep_first_run_sublist; exact Hfirst |].
  unfold group_survivors, resolve_groups, firsts.
  rewrite resolve_groups_kept. cbn [fst app]. f_equal.
  apply map_ext_in. intros e _. apply kept_of_keep_first. exact Hfirst.
Qed.

Lemma keep_first_run_keeps_input_order_witness :
  sublist
    (citations
       (_remove_duplicates Samples.keep_first
          (parsed (Samples.one_author ["tide"; "diet"; "tide"]))))
    (citations (parsed (Samples.one_author ["tide"; "diet"; "tide"]))).
Proof.
  refine (proj1 (keep_first_run_keeps_input_order Samples.keep_first
                   (parsed (Samples.one_author ["tide"; "diet"; "tide"]))
                   _)).
  reflexivity.
Defined.

(** ** Nothing disappears without a trace *)

Lemma resolve_group_accounts (config : AnalysisConfig)
    (group : list Citation) (x : Citation) :
  known_strategy (duplicate_strategy config) = true ->
  In x group ->
  In x (kept_of config ("", group))
  \/ In x (map snd (snd (_resolve_duplicate_group config group))).
Proof.
  intros Hknown Hx. unfold kept_of. cbn [snd].
  destruct group as [| first [| second others]];
    [destruct Hx | left; exact Hx |].
  change (length (first :: second :: others) =? 1) with false. cbv iota.
  set (group := first :: second :: others) in *.
  assert (Hpairs : forall survivor,
             In x [survivor]
             \/ In x (map snd (pairs_against survivor group))).
  { intros survivor.
    destruct (decide (x = survivor)) as [-> | Hne];
      [left; left; reflexivity | right].
    apply in_map_iff. exists (survivor, x). split; [reflexivity |].
    apply pairs_against_in. cbn [fst snd]. auto. }
  apply known_strategy_cases in Hknown as [E | [E | E]];
    unfold _resolve_duplicate_group; rewrite E; fold group.
  - change (String.eqb "keep_first" "keep_first") with true. cbv iota.
    subst group. cbn [fst snd].
    destruct Hx as [<- | Hx]; [left; left; reflexivity | right].
    rewrite map_map. cbn [snd]. rewrite map_id. exact Hx.
  - change (String.eqb "keep_longest" "keep_first") with false.
    change (String.eqb "keep_longest" "keep_longest") with true.
    cbv iota. cbn [fst snd]. apply Hpairs.
  - change (String.eqb "keep_most_complete" "keep_first") with false.
    change (String.eqb "keep_most_complete" "keep_longest") with false.
    change (String.eqb "keep_most_complete" "keep_most_complete") with true.
    cbv iota. cbn [fst snd]. apply Hpairs.
Qed.

Lemma resolve_step_accounts (config : AnalysisConfig)
    (st : list Citation * list DuplicatePair)
    (entry : string * list Citation) (x : Citation) :
  known_strategy (duplicate_strategy config) = true ->
  In x (fst st) \/ In x (map snd (snd st)) \/ In x (snd entry) ->
  In x (fst (resolve_step config st entry))
  \/ In x (map snd (snd (resolve_step config st entry))).
Proof.
  intros Hknown Hx. destruct st as [unique_citations removed].
  pose proof (resolve_group_accounts config (snd entry) x Hknown) as Hgroup.
  unfold resolve_step, kept_of in *. cbn [fst snd] in *.
  destruct (length (snd entry) =? 1).
  - cbn [fst snd]. rewrite in_app_iff. tauto.
  - destruct (_resolve_duplicate_group config (snd entry)) as [kept pairs].
    cbn [fst snd] in *. rewrite map_app, !in_app_iff. tauto.
Qed.

Lemma resolve_groups_accounts (config : AnalysisConfig)
    (groups : list (string * list Citation)) (x : Citation) :
  known_strategy (duplicate_strategy config) = true ->
  forall st,
    In x (fst st) \/ In x (map snd (snd st))
    \/ (exists e, In e groups /\ In x (snd e)) ->
    In x (fst (fold_left (resolve_step config) groups st))
    \/ In x (map snd (snd (fold_left (resolve_step config) groups st))).
Proof.
  intros Hknown.
  induction groups as [| e groups IH]; intros st Hx; cbn [fold_left].
  - destruct Hx as [H | [H | (e & [] & _)]]; auto.
  - apply IH.
    destruct Hx as [H | [H | (e' & [<- | He'] & Hx)]].
    + destruct (resolve_step_accounts config st e x Hknown); auto.
    + destruct (resolve_step_accounts config st e x Hknown); auto.
    + destruct (resolve_step_accounts config st e x Hknown); auto.
    + right; right. exists e'; auto.
Qed.

(** [X29] Under one of the three strategies nothing disappears without a
    trace: every citation a run started from is kept, or is the removed
    citation of a ledger entry.  (A copy equal to a kept citation counts
    as kept; it may have no entry of its own.) *)
Theorem every_citation_is_kept_or_recorded (config : AnalysisConfig)
    (self : Analyzer) (x : Citation) :
  known_strategy (duplicate_strategy config) = true ->
  In x (citations self) ->
  In x (citations (_remove_duplicates config self))
  \/ In x (map snd (duplicates_removed (_remove_duplicates config self))).
Proof.
  intros Hknown Hx.
  pose proof (remove_duplicates_gate config self) as Hgate.
  pose proof (f_equal fst Hgate) as Hfst.
  pose proof (f_equal snd Hgate) as Hsnd.
  cbn [fst snd] in Hfst, Hsnd. rewrite Hfst, Hsnd. clear Hgate Hfst Hsnd.
  assert (Hsurvivors :
            In x (fst (group_survivors config self))
            \/ In x (map snd (snd (group_survivors config self)))).
  { unfold group_survivors, resolve_groups.
    apply resolve_groups_accounts; [exact Hknown |].
    right; right.
    destruct (proj2 (fingerprint_groups_holds (citations self)
                       (fingerprint x) x) (conj Hx eq_refl))
      as (g & Hg & Hin).
    exists (fingerprint x, g). auto. }
  destruct (negb (Qle_bool 1 (similarity_threshold config)));
    [| exact Hsurvivors].
  unfold _remove_similar_duplicates.
  apply remove_similar_accounts. cbn [fst snd].
  destruct Hsurvivors as [H | H]; auto.
Qed.

Lemma every_citation_is_kept_or_recorded_witness :
  In Samples.short
     (citations
        (_remove_duplicates Samples.keep_longest
           (parsed (Samples.one_author
                      ["Smith (2020) short."; "Smith (2020) short."]))))
  \/ In Samples.short
        (map snd
           (duplicates_removed
              (_remove_duplicates Samples.keep_longest
                 (parsed (Samples.one_author
                            ["Smith (2020) short.";
                             "Smith (2020) short."]))))).
Proof.
  refine (every_citation_is_kept_or_recorded Samples.keep_longest
            (parsed (Samples.one_author
                       ["Smith (2020) short."; "Smith (2020) short."]))
            Samples.short _ _).
  - reflexivity.
  - vm_compute. left; reflexivity.
Defined.

(** ** The derived fields as functions of the text and the year *)

Lemma generate_fingerprint_without_doi (normalized : string)
    (year : option Z) :
  _generate_fingerprint None normalized year
  = Md5.hexdigest (normalized ++ ":" ++ year_part year).
Proof. reflexivity. Qed.

Lemma parsed_citation_recomputable (faculty_data : list Faculty)
    (c : Citation) :
  In c (_parse_citations faculty_data) -> recomputable c.
Proof.
  unfold _parse_citations. intros Hin.
  apply in_concat in Hin as (l & Hl & Hc).
  apply in_map_iff in Hl as (f & <- & _).
  unfold parse_faculty in Hc.
  destruct (faculty_citations f) as [by_category |]; [| destruct Hc].
  apply in_concat in Hc as (l & Hl & Hc).
  apply in_map_iff in Hl as ([cat texts] & <- & _).
  apply in_map_iff in Hc as (t & <- & _).
  unfold recomputable, Citation_new.
  cbn [year normalized_text doi fingerprint text].
  repeat split; reflexivity.
Qed.

Lemma run_citation_recomputable (config : AnalysisConfig)
    (faculty_data : list Faculty) (a : Analyzer) (c : Citation) :
  load_data config (Loaded faculty_data) = Returns a ->
  appears a c -> recomputable c.
Proof.
  rewrite load_data_loaded. intros [= <-] Hc.
  apply (parsed_citation_recomputable faculty_data).
  change (_parse_citations faculty_data)
    with (citations (parsed faculty_data)).
  destruct (enable_duplicate_detection config).
  - destruct (remove_duplicates_members config (parsed faculty_data))
      as [Hkept Hledger].
    destruct Hc as [Hc | (p & Hp & Hc)]; [apply Hkept; exact Hc |].
    destruct (Hledger p Hp) as [[] | [Hfst Hsnd]].
    destruct Hc as [-> | ->]; assumption.
  - destruct Hc as [Hc | (p & [] & _)]. exact Hc.
Qed.

(** [C7] The normalized text and the fingerprint of a citation are
    functions of its text and year, and of nothing else.

    - Two citations built from the same text and year have the same
      normalized text and the same fingerprint, whatever their authors and
      categories.
    - The normalized text is [_normalize_text] of the text, whatever the
      year.  When the text has a DOI the fingerprint is the MD5 digest of
      [doi:] and the DOI, whatever the year; otherwise it is the MD5
      digest of the normalized text, a colon, and the given or extracted
      year ([no_year] when there is none).
    - Whatever the run: every citation that a run of [load_data] keeps or
      enters in its ledger, under any configuration and for any input
      file, carries the fields that the constructor computes from its
      text alone, so two citations with the same text have the same year,
      normalized text and fingerprint across any two runs.
    - The dependence is real: the digest is the fixed MD5 function, and
      the same text gives three fingerprints for no year, 2020 and 2021,
      whatever the author and the category. *)
Theorem derived_fields_depend_on_text_and_year :
  (forall t year author1 category1 author2 category2,
      normalized_text (Citation_new t author1 year category1)
      = normalized_text (Citation_new t author2 year category2)
      /\ fingerprint (Citation_new t author1 year category1)
         = fingerprint (Citation_new t author2 year category2))
  /\ (forall t year author category,
         normalized_text (Citation_new t author year category)
         = _normalize_text t)
  /\ (forall t d year author category,
         _extract_doi t = Some d ->
         fingerprint (Citation_new t author year category)
         = Md5.hexdigest ("doi:" ++ d))
  /\ (forall t year author category,
         _extract_doi t = None ->
         fingerprint (Citation_new t author year category)
         = Md5.hexdigest
             (_normalize_text t ++ ":"
              ++ year_part (match year with
                            | None => _extract_year t
                            | Some y => Some y
                            end)))
  /\ (forall config faculty_data a c,
         load_data config (Loaded faculty_data) = Returns a ->
         appears a c -> recomputable c)
  /\ (forall config1 faculty_data1 a1 config2 faculty_data2 a2 c1 c2,
         load_data config1 (Loaded faculty_data1) = Returns a1 ->
         load_data config2 (Loaded faculty_data2) = Returns a2 ->
         appears a1 c1 -> appears a2 c2 ->
         text c1 = text c2 ->
         year c1 = year c2
         /\ normalized_text c1 = normalized_text c2
         /\ fingerprint c1 = fingerprint c2)
  /\ (fingerprint (Citation_new "tide" "A" None "articles")
      = "719d1571e3a1dbf8a8c106d648e9d880"
      /\ fingerprint (Citation_new "tide" "B" (Some 2020%Z) "books")
         = "da20918b8696b8b65d13778650f93076"
      /\ fingerprint (Citation_new "tide" "C" (Some 2021%Z) "")
         = "8d65d7e6c4203a5f9da9742248ccf1c9"
      /\ fingerprint
           (Citation_new "Kaya (2020) nets. doi:10.1/abc" "B" (Some 1999%Z)
                         "articles")
         = "ea24fa46a5c61dcc492986deaf9ca16b").
Proof.
  split; [intros; unfold Citation_new; cbn [normalized_text fingerprint];
          split; reflexivity |].
  split; [intros; reflexivity |].
  split.
  { intros t d y author cat Hdoi.
    apply fingerprint_of_doi; [| unfold Citation_new; cbn [doi]; exact Hdoi].
    exists t, author, y, cat. reflexivity. }
  split.
  { intros t y author cat Hdoi.
    unfold Citation_new; cbn [fingerprint]. rewrite Hdoi.
    apply generate_fingerprint_without_doi. }
  split; [exact run_citation_recomputable |].
  split.
  { intros config1 fd1 a1 config2 fd2 a2 c1 c2 H1 H2 Hc1 Hc2 Htext.
    destruct (run_citation_recomputable config1 fd1 a1 c1 H1 Hc1)
      as (Hy1 & Hn1 & _ & Hf1).
    destruct (run_citation_recomputable config2 fd2 a2 c2 H2 Hc2)
      as (Hy2 & Hn2 & _ & Hf2).
    rewrite Hy1, Hy2, Hn1, Hn2, Hf1, Hf2, Htext. auto. }
  vm_compute. repeat split; reflexivity.
Qed.

Lemma derived_fields_depend_on_text_and_year_witness :
  _extract_doi "Kaya, M. Nets, 2020. https://doi.org/10.1/ABC."
  = Some "10.1/abc"
  /\ fingerprint
       (Citation_new "Kaya, M. Nets, 2020. https://doi.org/10.1/ABC." "C"
                     (Some 2003%Z) "books")
     = Md5.hexdigest ("doi:" ++ "10.1/abc").
Proof.
  split; [vm_compute; reflexivity |].
  refine (proj1 (proj2 (proj2 derived_fields_depend_on_text_and_year))
            "Kaya, M. Nets, 2020. https://doi.org/10.1/ABC." "10.1/abc"
            (Some 2003%Z) "C" "books" _).
  vm_compute; reflexivity.
Defined.
